(** * TalkToMeKit: the Qwen3-TTS runners

    A shallow embedding of the two Python runner modules

      - [Sources/TTMService/Resources/qwen_tts_runner.py]      (multi-mode)
      - [Sources/TTMPythonBridge/Resources/qwen_tts_runner.py] (single-mode)

    The first part models the fragment of the Python runtime the runners
    rely on (exceptions, binary64 floats, [str.strip], [struct.pack], the
    [wave] writer, dynamically typed values).  The modules [TTMService] and
    [TTMPythonBridge] then follow the two source files function by
    function.  Theorems come last. *)

From Stdlib Require Import ZArith Zpower Lia Bool Ascii String.
From Stdlib.Strings Require Import Byte.
From Stdlib Require Import Floats.
From stdpp Require Import base decidable option list gmap sets strings.

Local Open Scope string_scope.
Local Open Scope list_scope.
Local Open Scope Z_scope.

(** ** Exceptions and results *)

(** The exception classes that the runners raise or let through. *)
Inductive exn : Type :=
| ValueError (msg : string)
| RuntimeError (msg : string)
| TypeError
| KeyError (key : string)
| IndexError
| AttributeError (name : string)
| OverflowError
| StructError
| WaveError (msg : string)
| ExternalError (tag : string).

(** A Python call either returns or raises. *)
Inductive res (A : Type) : Type :=
| Ok (a : A)
| Raise (e : exn).
Arguments Ok {A} a.
Arguments Raise {A} e.

Definition res_bind {A B : Type} (r : res A) (k : A -> res B) : res B :=
  match r with
  | Ok a => k a
  | Raise e => Raise e
  end.

Notation "'let?' x ':=' r 'in' k" := (res_bind r (fun x => k))
  (at level 10, x pattern, r at level 100, k at level 200).

Fixpoint res_mapM {A B : Type} (f : A -> res B) (l : list A) : res (list B) :=
  match l with
  | [] => Ok []
  | x :: r =>
      let? y := f x in
      let? ys := res_mapM f r in
      Ok (y :: ys)
  end.

(** ** Floats

    A Python [float] is an IEEE 754 binary64.  It is represented by the
    standard library's specification floats at precision 53, whose
    operations are ordinary functions on integers. *)

Definition pyfloat : Type := spec_float.

Definition fl (x : float) : pyfloat := Prim2SF x.

Definition f_one : pyfloat := Eval vm_compute in fl 1%float.
Definition f_minus_one : pyfloat := Eval vm_compute in fl (-1)%float.
Definition f_zero : pyfloat := Eval vm_compute in fl 0%float.
Definition f_32767 : pyfloat := Eval vm_compute in fl 32767%float.
(** The binary64 nearest to 0.35, 0x1.6666666666666p-2. *)
Definition f_0_35 : pyfloat := Eval vm_compute in fl 0x1.6666666666666p-2%float.

Definition fmul (x y : pyfloat) : pyfloat := SFmul prec emax x y.
Definition flt (x y : pyfloat) : bool := SFltb x y.

(** [min(a, b)] and [max(a, b)] on two arguments: the second argument
    replaces the first only when it compares strictly smaller (larger), so
    a NaN in second position loses. *)
Definition py_min (a b : pyfloat) : pyfloat := if flt b a then b else a.
Definition py_max (a b : pyfloat) : pyfloat := if flt a b then b else a.

(** [float(n)] for an integer: correctly rounded, [OverflowError] beyond
    the binary64 range. *)
Definition float_of_Z (z : Z) : res pyfloat :=
  match binary_normalize prec emax z 0 false with
  | S754_infinity _ => Raise OverflowError
  | f => Ok f
  end.

(** [int(x)] for a float: truncation toward zero. *)
Definition trunc_float (f : pyfloat) : res Z :=
  match f with
  | S754_zero _ => Ok 0
  | S754_nan => Raise (ValueError "cannot convert float NaN to integer")
  | S754_infinity _ => Raise OverflowError
  | S754_finite s m e =>
      let a := Z.shiftl (Zpos m) e in
      Ok (if s then - a else a)
  end.

(** [round(x)] for a float: nearest integer, ties to even. *)
Definition round_float (f : pyfloat) : res Z :=
  match f with
  | S754_zero _ => Ok 0
  | S754_nan => Raise (ValueError "cannot convert float NaN to integer")
  | S754_infinity _ => Raise OverflowError
  | S754_finite s m e =>
      let a :=
        match e with
        | Zneg p =>
            let q := Z.shiftr (Zpos m) (Zpos p) in
            let r := Zpos m - Z.shiftl q (Zpos p) in
            let half := Z.shiftl 1 (Zpos p - 1) in
            match r ?= half with
            | Lt => q
            | Gt => q + 1
            | Eq => if Z.even q then q else q + 1
            end
        | _ => Z.shiftl (Zpos m) e
        end in
      Ok (if s then - a else a)
  end.

(** ** Bytes, [struct.pack] and the [wave] writer *)

Definition bytes : Type := list byte.

Definition byte_of_Z (z : Z) : byte :=
  match Byte.of_N (Z.to_N (z mod 256)) with
  | Some b => b
  | None => x00
  end.

Definition Z_of_byte (b : byte) : Z := Z.of_N (Byte.to_N b).

(** Little-endian encoding of the low [n] bytes of [z]. *)
Fixpoint le_bytes (n : nat) (z : Z) : bytes :=
  match n with
  | O => []
  | S n' => byte_of_Z z :: le_bytes n' (z / 256)
  end.

Fixpoint le_value (bs : bytes) : Z :=
  match bs with
  | [] => 0
  | b :: r => Z_of_byte b + 256 * le_value r
  end.

(** [struct.pack("<h", v)]: signed 16-bit, little-endian. *)
Definition pack_h (v : Z) : res bytes :=
  if (-32768 <=? v) && (v <=? 32767) then Ok (le_bytes 2 v) else Raise StructError.

(** [struct.pack("<H", v)] and [struct.pack("<L", v)]. *)
Definition pack_H (v : Z) : res bytes :=
  if (0 <=? v) && (v <? 65536) then Ok (le_bytes 2 v) else Raise StructError.
Definition pack_L (v : Z) : res bytes :=
  if (0 <=? v) && (v <? 4294967296) then Ok (le_bytes 4 v) else Raise StructError.

Definition ascii_bytes (s : string) : bytes := list_byte_of_string s.

(** The 44-byte canonical header that the [wave] module writes for PCM. *)
Definition wave_header (nchannels sampwidth framerate datalength : Z) : res bytes :=
  let? riff_size := pack_L (36 + datalength) in
  let? fmt_size := pack_L 16 in
  let? fmt_tag := pack_H 1 in
  let? chans := pack_H nchannels in
  let? rate := pack_L framerate in
  let? byte_rate := pack_L (nchannels * framerate * sampwidth) in
  let? block_align := pack_H (nchannels * sampwidth) in
  let? bits := pack_H (sampwidth * 8) in
  let? data_size := pack_L datalength in
  Ok (ascii_bytes "RIFF" ++ riff_size ++ ascii_bytes "WAVE" ++ ascii_bytes "fmt "
        ++ fmt_size ++ fmt_tag ++ chans ++ rate ++ byte_rate ++ block_align ++ bits
        ++ ascii_bytes "data" ++ data_size).

(** [wave.open(buffer, "wb")] followed by [setnchannels], [setsampwidth],
    [setframerate], [writeframes(pcm)] and [close], read back with
    [buffer.getvalue()].  [setframerate] rejects a rate that is not
    positive; leaving the [with] block then closes the writer, which has
    no rate yet, and it is the error of [close] that reaches the caller. *)
Definition wave_write (nchannels sampwidth framerate : Z) (pcm : bytes) : res bytes :=
  if framerate <=? 0 then Raise (WaveError "sampling rate not specified")
  else
    let? header := wave_header nchannels sampwidth framerate (Z.of_nat (length pcm)) in
    Ok (header ++ pcm).

(** ** Strings *)

Definition code (c : ascii) : Z := Z.of_N (N_of_ascii c).

(** [str.isspace] on a code point below 256. *)
Definition is_space (c : ascii) : bool :=
  let n := code c in
  ((9 <=? n) && (n <=? 13)) || ((28 <=? n) && (n <=? 32)) || (n =? 133) || (n =? 160).

Fixpoint lstrip_list (l : list ascii) : list ascii :=
  match l with
  | [] => []
  | c :: r => if is_space c then lstrip_list r else l
  end.

Definition rstrip_list (l : list ascii) : list ascii := rev (lstrip_list (rev l)).

(** [s.strip()] *)
Definition py_strip (s : string) : string :=
  string_of_list_ascii (rstrip_list (lstrip_list (list_ascii_of_string s))).

Definition lower_char (c : ascii) : ascii :=
  let n := code c in
  if ((65 <=? n) && (n <=? 90)) || ((192 <=? n) && (n <=? 222) && negb (n =? 215))
  then ascii_of_N (Z.to_N (n + 32)) else c.

(** [s.lower()] on code points below 256. *)
Fixpoint py_lower (s : string) : string :=
  match s with
  | EmptyString => EmptyString
  | String c r => String (lower_char c) (py_lower r)
  end.

(** Truthiness of a string, and [a or b] on strings. *)
Definition str_truthy (s : string) : bool := negb (String.eqb s "").
Definition str_or (a b : string) : string := if str_truthy a then a else b.

(** Truthiness of an [Optional[str]], and [a or b] with [a] optional. *)
Definition opt_truthy (a : option string) : bool :=
  match a with
  | Some s => str_truthy s
  | None => false
  end.
Definition opt_or (a : option string) (b : string) : string :=
  match a with
  | Some s => str_or s b
  | None => b
  end.

(** ** Dynamically typed values

    The audio helpers receive whatever the model runtime returns.  A value
    is a number, a container, or a foreign object.  A foreign object (a
    tensor, an array, a [bytes] or [memoryview] instance) is described by
    the behaviour the runners probe on it. *)

(** Probing and calling an optional method: the attribute is absent (or
    not callable), or the call raises, or it returns. *)
Inductive attr (A : Type) : Type :=
| Absent
| Raising (e : exn)
| Returning (a : A).
Arguments Absent {A}.
Arguments Raising {A} e.
Arguments Returning {A} a.

Record pyobj (V : Type) : Type := MkObj {
  (** [obj.detach().cpu().numpy()] *)
  detach_numpy : attr V;
  (** [obj.tolist()] *)
  tolist : attr V;
  (** [float(obj)] *)
  as_float : res pyfloat;
  (** [int(obj)] *)
  as_int : res Z;
  (** the content, for an instance of [bytes], [bytearray] or [memoryview] *)
  buffer : option bytes }.
Arguments MkObj {V}.
Arguments detach_numpy {V}.
Arguments tolist {V}.
Arguments as_float {V}.
Arguments as_int {V}.
Arguments buffer {V}.

#[local] Set Warnings "-register-all".

Inductive pyval : Type :=
| PyNone
| PyBool (b : bool)
| PyInt (z : Z)
| PyFloat (f : pyfloat)
| PyList (items : list pyval)
| PyTuple (items : list pyval)
| PyDict (entries : list (string * pyval))
| PyObj (o : pyobj pyval).

(** A [bytes] object whose text is not a number. *)
Definition py_bytes (b : bytes) : pyval :=
  PyObj (MkObj Absent Absent (Raise (ValueError "could not convert string to float"))
           (Raise (ValueError "invalid literal for int()")) (Some b)).

(** A tensor whose [detach().cpu().numpy()] is an array with [tolist() = v]. *)
Definition py_array (v : pyval) : pyval :=
  PyObj (MkObj Absent (Returning v) (Raise TypeError) (Raise TypeError) None).
Definition py_tensor (v : pyval) : pyval :=
  PyObj (MkObj (Returning (py_array v)) (Returning v) (Raise TypeError) (Raise TypeError) None).

(** [float(v)] *)
Definition py_float (v : pyval) : res pyfloat :=
  match v with
  | PyBool b => Ok (if b then f_one else f_zero)
  | PyInt z => float_of_Z z
  | PyFloat f => Ok f
  | PyObj o => as_float o
  | PyNone | PyList _ | PyTuple _ | PyDict _ => Raise TypeError
  end.

(** [int(v)] *)
Definition py_int (v : pyval) : res Z :=
  match v with
  | PyBool b => Ok (if b then 1 else 0)
  | PyInt z => Ok z
  | PyFloat f => trunc_float f
  | PyObj o => as_int o
  | PyNone | PyList _ | PyTuple _ | PyDict _ => Raise TypeError
  end.

(** [isinstance(v, (list, tuple))] *)
Definition is_list_or_tuple (v : pyval) : bool :=
  match v with
  | PyList _ | PyTuple _ => true
  | _ => false
  end.

(** [isinstance(v, (int, float))]; [bool] is a subclass of [int]. *)
Definition is_int_or_float (v : pyval) : bool :=
  match v with
  | PyBool _ | PyInt _ | PyFloat _ => true
  | _ => false
  end.

(** [d.get(key, default)] on a dictionary with string keys. *)
Fixpoint dict_get (d : list (string * pyval)) (key : string) (default : pyval) : pyval :=
  match d with
  | [] => default
  | (k, v) :: r => if String.eqb k key then v else dict_get r key default
  end.

(** [b"\x00\x00" * n] *)
Definition zero_frames (n : Z) : bytes := concat (replicate (Z.to_nat n) [x00; x00]).

(** ** The model runtime seen from the runner *)

Definition kwargs : Type := list (string * string).

(** A loaded model: the generation methods the runner looks up by name.
    A method that is absent (or not callable) is [None]; a call takes its
    keyword arguments and returns a value or raises. *)
Record handle : Type := MkHandle {
  generate_voice_design : option (kwargs -> res pyval);
  generate_custom_voice : option (kwargs -> res pyval);
  generate_voice_clone : option (kwargs -> res pyval);
  generate_base : option (kwargs -> res pyval);
  (** [get_supported_speakers()], a falsy result being the empty list *)
  supported_speakers : option (res (list string)) }.

(** The [qwen_tts] module: its [Qwen3TTSModel] attribute, if any, with
    [from_pretrained(source, **kwargs)]. *)
Record qwen_module : Type := MkModule {
  Qwen3TTSModel : option (string -> kwargs -> res (option handle)) }.

(** The process environment the runner reads. *)
Record os_env : Type := MkEnv {
  getenv : string -> option string;
  isdir : string -> bool;
  (** [import qwen_tts]: the module, or [None] when the import raises *)
  import_qwen_tts : option qwen_module;
  (** whether [import torch] succeeds *)
  torch_importable : bool;
  (** the name [tempfile.NamedTemporaryFile] hands out, or its failure *)
  mktemp : res string }.

(** [os.getenv(name, default)] *)
Definition getenv_default (os : os_env) (name default : string) : string :=
  match getenv os name with
  | Some v => v
  | None => default
  end.

(** [os.path.basename] and [os.path.join] (POSIX). *)
Fixpoint basename_list (l acc : list ascii) : list ascii :=
  match l with
  | [] => acc
  | c :: r => if Ascii.eqb c "/"%char then basename_list r [] else basename_list r (acc ++ [c])
  end.
Definition basename (p : string) : string :=
  string_of_list_ascii (basename_list (list_ascii_of_string p) []).

Definition ends_with_slash (p : string) : bool :=
  match rev (list_ascii_of_string p) with
  | c :: _ => Ascii.eqb c "/"%char
  | [] => false
  end.
Definition starts_with_slash (p : string) : bool :=
  match p with
  | String c _ => Ascii.eqb c "/"%char
  | EmptyString => false
  end.
Definition path_join (a b : string) : string :=
  if starts_with_slash b then b
  else if String.eqb a "" || ends_with_slash a then String.append a b
  else String.append a (String.append "/" b).

(** What [_debug] is asked to print. *)
Inductive debug_msg : Type :=
| MsgAlreadyLoaded
| MsgLoading (source : string) (kw : kwargs)
| MsgLoadFailed (mode model : string)
| MsgLoaded (mode model : string).

(** Calls that leave the runner, in the order they happen.  [EvAttempt]
    records one iteration of the candidate loop of [load_model] together
    with what [_create_model] gave for it. *)
Inductive event : Type :=
| EvAttempt (mode model : string) (outcome : res (option handle))
| EvFromPretrained (source : string) (kw : kwargs)
| EvSpeakers
| EvGenerate (method : string) (kw : kwargs)
| EvTempWrite (path : string) (content : bytes)
| EvTempRemove (path : string).

(** * The multi-mode runner, [Sources/TTMService/Resources/qwen_tts_runner.py] *)

Module TTMService.

Definition DEFAULT_VOICE_DESIGN_MODEL : string := "Qwen/Qwen3-TTS-12Hz-1.7B-VoiceDesign".
Definition DEFAULT_CUSTOM_VOICE_MODEL : string := "Qwen/Qwen3-TTS-12Hz-0.6B-CustomVoice".
Definition DEFAULT_VOICE_CLONE_MODEL : string := "Qwen/Qwen3-TTS-12Hz-0.6B-Base".

(** A dictionary literal, iterated in insertion order. *)
Definition MODEL_REGISTRY : list (string * list string) :=
  [ ("voice_design", [DEFAULT_VOICE_DESIGN_MODEL]);
    ("custom_voice", [DEFAULT_CUSTOM_VOICE_MODEL; "Qwen/Qwen3-TTS-12Hz-1.7B-CustomVoice"]);
    ("voice_clone", [DEFAULT_VOICE_CLONE_MODEL; "Qwen/Qwen3-TTS-12Hz-1.7B-Base"]) ].

(** [MODEL_REGISTRY[mode]], if the key is there. *)
Fixpoint registry_lookup (reg : list (string * list string)) (mode : string)
  : option (list string) :=
  match reg with
  | [] => None
  | (k, ids) :: r => if String.eqb k mode then Some ids else registry_lookup r mode
  end.

(** The module constants read from the environment at import time. *)
Record config : Type := MkConfig {
  DEFAULT_MODE : string;
  DEFAULT_LANGUAGE : string;
  DEFAULT_SPEAKER : string;
  _ALLOW_FALLBACK : bool;
  _DEBUG : bool;
  _ALLOW_CROSS_MODE_FALLBACK : bool }.

(** The constants as the module computes them from [os.getenv]. *)
Definition config_of_env (os : os_env) : config :=
  {| DEFAULT_MODE := getenv_default os "TTM_QWEN_MODE" "voice_design";
     DEFAULT_LANGUAGE := getenv_default os "TTM_QWEN_LANGUAGE" "English";
     DEFAULT_SPEAKER := getenv_default os "TTM_QWEN_SPEAKER" "ryan";
     _ALLOW_FALLBACK := String.eqb (getenv_default os "TTM_QWEN_ALLOW_FALLBACK" "0") "1";
     _DEBUG := String.eqb (getenv_default os "TTM_QWEN_DEBUG" "0") "1";
     _ALLOW_CROSS_MODE_FALLBACK :=
       String.eqb (getenv_default os "TTM_QWEN_ALLOW_CROSS_MODE_FALLBACK" "1") "1" |}.

(** ** Audio helpers *)

Definition _silent_wav (sample_rate : Z) (seconds : pyfloat) : res bytes :=
  let? rate := float_of_Z sample_rate in
  let? frames := trunc_float (fmul rate seconds) in
  let frame_count := Z.max 1 frames in
  let pcm := zero_frames frame_count in
  wave_write 1 2 sample_rate pcm.

Fixpoint _flatten_numeric_samples (data : pyval) : res (list pyfloat) :=
  let data1 :=
    match data with
    | PyObj o => match detach_numpy o with Returning v => v | _ => data end
    | _ => data
    end in
  let data2 :=
    match data1 with
    | PyObj o => match tolist o with Returning v => v | _ => data1 end
    | _ => data1
    end in
  match data2 with
  | PyList items | PyTuple items =>
      (fix extend_all (l : list pyval) : res (list pyfloat) :=
         match l with
         | [] => Ok []
         | item :: r =>
             let? head := _flatten_numeric_samples item in
             let? tail := extend_all r in
             Ok (head ++ tail)
         end) items
  | _ => let? f := py_float data2 in Ok [f]
  end.

(** [max(-1.0, min(1.0, sample))] *)
Definition clip (sample : pyfloat) : pyfloat := py_max f_minus_one (py_min f_one sample).

(** [struct.pack("<h", int(sample * 32767.0))] *)
Definition pack_sample (sample : pyfloat) : res bytes :=
  let? v := trunc_float (fmul sample f_32767) in
  pack_h v.

Definition _to_wav_bytes (samples : pyval) (sample_rate : Z) : res bytes :=
  let? flat := _flatten_numeric_samples samples in
  let clipped := map clip flat in
  let? chunks := res_mapM pack_sample clipped in
  let pcm := concat chunks in
  wave_write 1 2 sample_rate pcm.

Definition _normalize_samples (data : pyval) : pyval :=
  let data1 :=
    match data with
    | PyObj o =>
        match detach_numpy o with
        | Returning (PyObj a) =>
            match tolist a with Returning v => v | _ => data end
        | Returning _ | Raising _ => data
        | Absent =>
            match tolist o with Returning v => v | _ => data end
        end
    | _ => data
    end in
  let data2 :=
    match data1 with
    | PyTuple items => PyList items
    | _ => data1
    end in
  match data2 with
  | PyList (first :: rest) =>
      if is_list_or_tuple first then
        match rest with
        | [] => first
        | _ =>
            PyList (fold_left
                      (fun flattened item =>
                         match item with
                         | PyList l | PyTuple l => flattened ++ l
                         | _ => flattened ++ [item]
                         end)
                      (first :: rest) [])
        end
      else data2
  | _ => data2
  end.

Definition _extract_audio_and_sample_rate (output : pyval) (default_sample_rate : Z)
  : res (pyval * Z) :=
  match output with
  | PyDict d =>
      let wav := dict_get d "wav" PyNone in
      let? sample_rate :=
        py_int (dict_get d "sampling_rate"
                  (dict_get d "sample_rate" (PyInt default_sample_rate))) in
      Ok (wav, sample_rate)
  | PyTuple [first; second] =>
      if is_int_or_float second then
        let? rate := py_int second in
        Ok (first, rate)
      else Ok (output, default_sample_rate)
  | _ => Ok (output, default_sample_rate)
  end.

(** ** Mode and model resolution *)

Definition _resolve_local_model_path (os : os_env) (model_id : string) : option string :=
  let explicit := getenv os "TTM_QWEN_LOCAL_MODEL_PATH" in
  if opt_truthy explicit then explicit
  else
    match getenv os "PYTHONHOME" with
    | Some python_home =>
        if str_truthy python_home then
          let local_candidate :=
            path_join (path_join python_home "models") (basename model_id) in
          if isdir os local_candidate then Some local_candidate else None
        else None
    | None => None
    end.

Section Runner.

(** The module constants and the process environment of one run. *)
Variable cfg : config.
Variable os : os_env.

Definition _resolve_mode (mode : option string) : string :=
  let requested := py_lower (py_strip (opt_or mode (DEFAULT_MODE cfg))) in
  match registry_lookup MODEL_REGISTRY requested with
  | Some _ => requested
  | None => DEFAULT_MODE cfg
  end.

Definition _resolve_default_model_for_mode (mode : string) : res string :=
  match registry_lookup MODEL_REGISTRY mode with
  | None => Raise (KeyError mode)
  | Some [] => Raise IndexError
  | Some (first :: _) => Ok first
  end.

Definition _resolve_model (mode : string) (model_id : option string) : res string :=
  let requested := py_strip (opt_or model_id "") in
  if str_truthy requested then Ok requested
  else _resolve_default_model_for_mode mode.

(** ** Candidate resolution *)

Definition candidate : Type := string * string.

(** One turn of the deduplication loop: [seen] is the set, [unique] the
    list. *)
Definition dedup_step (acc : gset candidate * list candidate) (entry : candidate)
  : gset candidate * list candidate :=
  let '(seen, unique) := acc in
  if decide (entry ∈ seen) then (seen, unique)
  else ({[ entry ]} ∪ seen, unique ++ [entry]).

Definition _candidates_for_mode (mode requested_model : string) (strict : bool)
  : list candidate :=
  let same_mode :=
    match registry_lookup MODEL_REGISTRY mode with
    | Some ids => ids
    | None => []
    end in
  let ordered0 : list candidate :=
    if str_truthy requested_model then [(mode, requested_model)] else [] in
  let ordered1 :=
    fold_left
      (fun ordered model_id =>
         if negb (String.eqb model_id requested_model)
         then ordered ++ [(mode, model_id)] else ordered)
      same_mode ordered0 in
  let ordered2 :=
    if negb strict && _ALLOW_CROSS_MODE_FALLBACK cfg then
      fold_left
        (fun ordered '(fallback_mode, model_ids) =>
           if String.eqb fallback_mode mode then ordered
           else
             fold_left
               (fun ordered model_id =>
                  if String.eqb model_id requested_model then ordered
                  else ordered ++ [(fallback_mode, model_id)])
               model_ids ordered)
        MODEL_REGISTRY ordered1
    else ordered1 in
  snd (fold_left dedup_step ordered2 (∅, [])).

(** ** The module globals and the runner monad *)

Record world : Type := MkWorld {
  _MODEL_LOADED : bool;
  _QWEN_MODEL : option handle;
  _QWEN_MODULE : option qwen_module;
  _ACTIVE_MODE : option string;
  _ACTIVE_MODEL_ID : option string;
  (** what [_debug] printed, oldest first *)
  stdout : list debug_msg;
  (** the calls that left the runner, oldest first *)
  trace : list event }.

(** The globals as the module body initialises them. *)
Definition initial_world : world :=
  {| _MODEL_LOADED := false; _QWEN_MODEL := None; _QWEN_MODULE := None;
     _ACTIVE_MODE := None; _ACTIVE_MODEL_ID := None; stdout := []; trace := [] |}.

(** A function of the module: it reads and writes the globals and returns
    or raises.  The globals written before an exception stay written. *)
Definition M (A : Type) : Type := world -> res A * world.

Definition ret {A : Type} (a : A) : M A := fun w => (Ok a, w).
Definition raise {A : Type} (e : exn) : M A := fun w => (Raise e, w).
Definition lift {A : Type} (r : res A) : M A := fun w => (r, w).
Definition bind {A B : Type} (c : M A) (k : A -> M B) : M B :=
  fun w =>
    match c w with
    | (Ok a, w') => k a w'
    | (Raise e, w') => (Raise e, w')
    end.
Definition get : M world := fun w => (Ok w, w).

Notation "x <- c ;; k" := (bind c (fun x => k))
  (at level 100, c at next level, right associativity).
Notation "c ;;; k" := (bind c (fun _ => k))
  (at level 100, right associativity).

Definition emit (e : event) : M unit :=
  fun w =>
    (Ok tt,
     {| _MODEL_LOADED := _MODEL_LOADED w; _QWEN_MODEL := _QWEN_MODEL w;
        _QWEN_MODULE := _QWEN_MODULE w; _ACTIVE_MODE := _ACTIVE_MODE w;
        _ACTIVE_MODEL_ID := _ACTIVE_MODEL_ID w; stdout := stdout w;
        trace := trace w ++ [e] |}).

Definition _debug (message : debug_msg) : M unit :=
  fun w =>
    if _DEBUG cfg then
      (Ok tt,
       {| _MODEL_LOADED := _MODEL_LOADED w; _QWEN_MODEL := _QWEN_MODEL w;
          _QWEN_MODULE := _QWEN_MODULE w; _ACTIVE_MODE := _ACTIVE_MODE w;
          _ACTIVE_MODEL_ID := _ACTIVE_MODEL_ID w; stdout := stdout w ++ [message];
          trace := trace w |})
    else (Ok tt, w).

(** Assignment to the four lifecycle globals at once. *)
Definition set_lifecycle (model : option handle) (loaded : bool)
    (mode model_id : option string) : M unit :=
  fun w =>
    (Ok tt,
     {| _MODEL_LOADED := loaded; _QWEN_MODEL := model;
        _QWEN_MODULE := _QWEN_MODULE w; _ACTIVE_MODE := mode;
        _ACTIVE_MODEL_ID := model_id; stdout := stdout w; trace := trace w |}).

Definition set_module (m : qwen_module) : M unit :=
  fun w =>
    (Ok tt,
     {| _MODEL_LOADED := _MODEL_LOADED w; _QWEN_MODEL := _QWEN_MODEL w;
        _QWEN_MODULE := Some m; _ACTIVE_MODE := _ACTIVE_MODE w;
        _ACTIVE_MODEL_ID := _ACTIVE_MODEL_ID w; stdout := stdout w;
        trace := trace w |}).

(** ** Model creation *)

Definition _target_dtype : option string :=
  if torch_importable os then
    let requested := py_lower (getenv_default os "TTM_QWEN_TORCH_DTYPE" "float32") in
    if String.eqb requested "float16" then Some "float16"
    else if String.eqb requested "bfloat16" then Some "bfloat16"
    else Some "float32"
  else None.

Definition _load_qwen_module : M (option qwen_module) :=
  w <- get ;;
  match _QWEN_MODULE w with
  | Some m => ret (Some m)
  | None =>
      match import_qwen_tts os with
      | None => ret None
      | Some qwen_tts => set_module qwen_tts ;;; ret (Some qwen_tts)
      end
  end.

Definition _create_model (model_id : string) : M (option handle) :=
  qwen_module <- _load_qwen_module ;;
  match qwen_module with
  | None => ret None
  | Some qm =>
      match Qwen3TTSModel qm with
      | None => ret None
      | Some from_pretrained =>
          let source :=
            match _resolve_local_model_path os model_id with
            | Some path => str_or path model_id
            | None => model_id
            end in
          let kw0 : kwargs := [("device_map", getenv_default os "TTM_QWEN_DEVICE_MAP" "cpu")] in
          let kw1 :=
            match _target_dtype with
            | Some dtype => kw0 ++ [("dtype", dtype)]
            | None => kw0
            end in
          let kw2 :=
            match getenv os "TTM_QWEN_ATTN_IMPLEMENTATION" with
            | Some attn_impl =>
                if str_truthy attn_impl then kw1 ++ [("attn_implementation", attn_impl)]
                else kw1
            | None => kw1
            end in
          _debug (MsgLoading source kw2) ;;;
          emit (EvFromPretrained source kw2) ;;;
          lift (from_pretrained source kw2)
      end
  end.

(** ** Lifecycle *)

Definition opt_is (o : option string) (s : string) : bool :=
  match o with
  | Some x => String.eqb x s
  | None => false
  end.

(** [_QWEN_MODEL is not None] *)
Definition has_model (w : world) : bool :=
  match _QWEN_MODEL w with
  | Some _ => true
  | None => false
  end.

(** The test that guards the reuse of the active model, in [load_model]
    and in [_ensure_loaded]. *)
Definition already_active (w : world) (mode model_id : string) : bool :=
  _MODEL_LOADED w && has_model w
  && opt_is (_ACTIVE_MODE w) mode && opt_is (_ACTIVE_MODEL_ID w) model_id.

(** The [for] loop of [load_model] and the four assignments after it. *)
Fixpoint load_candidates (candidates : list candidate) : M bool :=
  match candidates with
  | [] =>
      set_lifecycle None false None None ;;;
      ret (_ALLOW_FALLBACK cfg)
  | (candidate_mode, candidate_model) :: rest =>
      fun w =>
        match _create_model candidate_model w with
        | (Raise e, w') =>
            (emit (EvAttempt candidate_mode candidate_model (Raise e)) ;;; raise e) w'
        | (Ok None, w') =>
            (emit (EvAttempt candidate_mode candidate_model (Ok None)) ;;;
             _debug (MsgLoadFailed candidate_mode candidate_model) ;;;
             load_candidates rest) w'
        | (Ok (Some model), w') =>
            (emit (EvAttempt candidate_mode candidate_model (Ok (Some model))) ;;;
             set_lifecycle (Some model) true (Some candidate_mode) (Some candidate_model) ;;;
             _debug (MsgLoaded candidate_mode candidate_model) ;;;
             ret true) w'
        end
  end.

Definition load_model (mode model_id strict : option string) : M bool :=
  let strict_load :=
    match strict with
    | Some s => String.eqb s "1"
    | None => false
    end in
  let resolved_mode := _resolve_mode mode in
  resolved_model <- lift (_resolve_model resolved_mode model_id) ;;
  w <- get ;;
  if already_active w resolved_mode resolved_model then
    _debug MsgAlreadyLoaded ;;; ret true
  else
    load_candidates (_candidates_for_mode resolved_mode resolved_model strict_load).

Definition unload_model : M bool :=
  set_lifecycle None false None None ;;; ret true.

Definition is_model_loaded : M bool :=
  w <- get ;; ret (_MODEL_LOADED w).

Definition _ensure_loaded (mode model_id : string) : M bool :=
  w <- get ;;
  if already_active w mode model_id then ret true
  else load_model (Some mode) (Some model_id) (Some "0").

(** ** Generation *)

(** The lines that end each generator: split the output, pass raw bytes
    through, encode samples, and give [None] for an absent payload. *)
Definition encode_output (output : pyval) : res (option bytes) :=
  let? (wav_payload, sr) := _extract_audio_and_sample_rate output 24000 in
  match wav_payload with
  | PyNone => Ok None
  | PyObj o =>
      match buffer o with
      | Some raw => Ok (Some raw)
      | None =>
          let? wav := _to_wav_bytes (_normalize_samples wav_payload) sr in
          Ok (Some wav)
      end
  | _ =>
      let? wav := _to_wav_bytes (_normalize_samples wav_payload) sr in
      Ok (Some wav)
  end.

(** A call [model.name(...)] with keyword arguments, for a method that is
    looked up without a default. *)
Definition call_method (method : option (kwargs -> res pyval)) (name : string)
    (kw : kwargs) : M pyval :=
  match method with
  | None => raise (AttributeError name)
  | Some f => emit (EvGenerate name kw) ;;; lift (f kw)
  end.

Definition _generate_voice_design (text instruct language : string) : M (option bytes) :=
  w <- get ;;
  match _QWEN_MODEL w with
  | None => ret None
  | Some model =>
      output <- call_method (generate_voice_design model) "generate_voice_design"
                  [("text", text); ("language", language); ("instruct", instruct)] ;;
      lift (encode_output output)
  end.

Definition _generate_custom_voice (text speaker instruct language : string)
  : M (option bytes) :=
  w <- get ;;
  match _QWEN_MODEL w with
  | None => ret None
  | Some model =>
      let requested := py_lower (str_or speaker (DEFAULT_SPEAKER cfg)) in
      requested_speaker <-
        match supported_speakers model with
        | None => ret requested
        | Some answer =>
            emit EvSpeakers ;;;
            supported <- lift answer ;;
            match supported with
            | first :: _ =>
                if bool_decide (requested ∈ supported) then ret requested else ret first
            | [] => ret requested
            end
        end ;;
      let base : kwargs :=
        [("text", text); ("language", language); ("speaker", requested_speaker)] in
      let kw := if str_truthy instruct then base ++ [("instruct", instruct)] else base in
      output <-
        (fun w1 =>
           match call_method (generate_custom_voice model) "generate_custom_voice" kw w1 with
           | (Raise TypeError, w2) =>
               call_method (generate_custom_voice model) "generate_custom_voice" base w2
           | other => other
           end) ;;
      lift (encode_output output)
  end.

(** [getattr(model, name, None)] for the two method names of the
    voice-clone candidates. *)
Definition clone_method (model : handle) (name : string)
  : option (kwargs -> res pyval) :=
  if String.eqb name "generate_voice_clone" then generate_voice_clone model
  else if String.eqb name "generate_base" then generate_base model
  else None.

(** The [for candidate in candidates] loop of [_generate_voice_clone]. *)
Fixpoint clone_candidates (model : handle) (candidates : list (string * kwargs))
  : M (option bytes) :=
  match candidates with
  | [] => ret None
  | (method_name, kw) :: rest =>
      match clone_method model method_name with
      | None => clone_candidates model rest
      | Some method =>
          emit (EvGenerate method_name kw) ;;;
          match (let? output := method kw in encode_output output) with
          | Raise TypeError => clone_candidates model rest
          | Raise e => raise e
          | Ok (Some wav) => ret (Some wav)
          | Ok None => clone_candidates model rest
          end
      end
  end.

Definition _generate_voice_clone (text : string) (reference_audio : bytes)
    (language : string) : M (option bytes) :=
  w <- get ;;
  match _QWEN_MODEL w with
  | None => ret None
  | Some model =>
      match mktemp os with
      | Raise e => raise e
      | Ok reference_path =>
          emit (EvTempWrite reference_path reference_audio) ;;;
          fun w1 =>
            let '(result, w2) :=
              clone_candidates model
                [ ("generate_voice_clone",
                   [("text", text); ("language", language);
                    ("reference_audio", reference_path)]);
                  ("generate_voice_clone",
                   [("text", text); ("language", language);
                    ("prompt_audio", reference_path)]);
                  ("generate_base",
                   [("text", text); ("language", language);
                    ("prompt_audio", reference_path)]) ] w1 in
            if str_truthy reference_path
            then (emit (EvTempRemove reference_path) ;;; lift result) w2
            else (result, w2)
      end
  end.

Definition get_supported_speakers (mode model_id : option string) : M (list string) :=
  let resolved_mode := _resolve_mode mode in
  if negb (String.eqb resolved_mode "custom_voice") then ret []
  else
    resolved_model <- lift (_resolve_model resolved_mode model_id) ;;
    loaded <- load_model (Some resolved_mode) (Some resolved_model) (Some "1") ;;
    if negb loaded then ret []
    else
      w <- get ;;
      match _QWEN_MODEL w with
      | None => ret []
      | Some model =>
          match supported_speakers model with
          | None => ret []
          | Some answer =>
              emit EvSpeakers ;;;
              match answer with
              | Raise _ => ret []
              | Ok speakers => ret (filter (fun speaker => str_truthy speaker = true) speakers)
              end
          end
      end.

(** [",".join(...)] *)
Fixpoint join_comma (l : list string) : string :=
  match l with
  | [] => ""
  | [x] => x
  | x :: r => String.append x (String.append "," (join_comma r))
  end.

Definition get_supported_speakers_csv (mode model_id : option string) : M string :=
  speakers <- get_supported_speakers mode model_id ;;
  ret (join_comma speakers).

(** ** Synthesis entry points *)

Definition text_is_blank (text : string) : bool := negb (str_truthy (py_strip text)).

Definition synthesize_voice_design (text instruct language : string) (sample_rate : Z)
    (model_id : string) : M bytes :=
  if text_is_blank text then raise (ValueError "text must not be empty")
  else
    let resolved_mode := "voice_design" in
    resolved_model <- lift (_resolve_model resolved_mode (Some model_id)) ;;
    let resolved_language := str_or language (DEFAULT_LANGUAGE cfg) in
    loaded <- _ensure_loaded resolved_mode resolved_model ;;
    if negb loaded
    then raise (RuntimeError "Qwen3-TTS runtime unavailable: failed to load model")
    else
      audio <- _generate_voice_design text (str_or instruct "") resolved_language ;;
      match audio with
      | Some wav => ret wav
      | None =>
          if _ALLOW_FALLBACK cfg then lift (_silent_wav sample_rate f_0_35)
          else raise (RuntimeError "Qwen3-TTS VoiceDesign synthesis failed")
      end.

Definition synthesize_custom_voice (text speaker instruct language : string)
    (sample_rate : Z) (model_id : string) : M bytes :=
  if text_is_blank text then raise (ValueError "text must not be empty")
  else
    let resolved_mode := "custom_voice" in
    resolved_model <- lift (_resolve_model resolved_mode (Some model_id)) ;;
    let resolved_language := str_or language (DEFAULT_LANGUAGE cfg) in
    loaded <- _ensure_loaded resolved_mode resolved_model ;;
    if negb loaded
    then raise (RuntimeError "Qwen3-TTS runtime unavailable: failed to load model")
    else
      audio <- _generate_custom_voice text (str_or speaker (DEFAULT_SPEAKER cfg))
                 instruct resolved_language ;;
      match audio with
      | Some wav => ret wav
      | None =>
          if _ALLOW_FALLBACK cfg then lift (_silent_wav sample_rate f_0_35)
          else raise (RuntimeError "Qwen3-TTS CustomVoice synthesis failed")
      end.

Definition synthesize_voice_clone (text : string) (reference_audio : bytes)
    (language : string) (sample_rate : Z) (model_id : string) : M bytes :=
  if text_is_blank text then raise (ValueError "text must not be empty")
  else
    match reference_audio with
    | [] => raise (ValueError "reference_audio must not be empty")
    | _ :: _ =>
        let resolved_mode := "voice_clone" in
        resolved_model <- lift (_resolve_model resolved_mode (Some model_id)) ;;
        let resolved_language := str_or language (DEFAULT_LANGUAGE cfg) in
        loaded <- _ensure_loaded resolved_mode resolved_model ;;
        if negb loaded
        then raise (RuntimeError "Qwen3-TTS runtime unavailable: failed to load model")
        else
          audio <- _generate_voice_clone text reference_audio resolved_language ;;
          match audio with
          | Some wav => ret wav
          | None =>
              if _ALLOW_FALLBACK cfg then lift (_silent_wav sample_rate f_0_35)
              else raise (RuntimeError "Qwen3-TTS VoiceClone synthesis failed")
          end
    end.

End Runner.
End TTMService.

(** * The single-mode runner, [Sources/TTMPythonBridge/Resources/qwen_tts_runner.py]

    Its audio helpers are embedded from the text of that file,
    independently of the ones above; its lifecycle and its single
    synthesis entry point follow. *)

Module TTMPythonBridge.

Definition _silent_wav (sample_rate : Z) (seconds : pyfloat) : res bytes :=
  let? rate := float_of_Z sample_rate in
  let? frames := trunc_float (fmul rate seconds) in
  let frame_count := Z.max 1 frames in
  let pcm := zero_frames frame_count in
  wave_write 1 2 sample_rate pcm.

Fixpoint _flatten_numeric_samples (data : pyval) : res (list pyfloat) :=
  let data1 :=
    match data with
    | PyObj o => match detach_numpy o with Returning v => v | _ => data end
    | _ => data
    end in
  let data2 :=
    match data1 with
    | PyObj o => match tolist o with Returning v => v | _ => data1 end
    | _ => data1
    end in
  match data2 with
  | PyList items | PyTuple items =>
      (fix extend_all (l : list pyval) : res (list pyfloat) :=
         match l with
         | [] => Ok []
         | item :: r =>
             let? head := _flatten_numeric_samples item in
             let? tail := extend_all r in
             Ok (head ++ tail)
         end) items
  | _ => let? f := py_float data2 in Ok [f]
  end.

Definition _to_wav_bytes (samples : pyval) (sample_rate : Z) : res bytes :=
  let? flat := _flatten_numeric_samples samples in
  let clipped := map (fun sample => py_max f_minus_one (py_min f_one sample)) flat in
  let? chunks :=
    res_mapM (fun sample => let? v := trunc_float (fmul sample f_32767) in pack_h v)
      clipped in
  let pcm := concat chunks in
  wave_write 1 2 sample_rate pcm.

Definition _normalize_samples (data : pyval) : pyval :=
  let data1 :=
    match data with
    | PyObj o =>
        match detach_numpy o with
        | Returning (PyObj a) =>
            match tolist a with Returning v => v | _ => data end
        | Returning _ | Raising _ => data
        | Absent =>
            match tolist o with Returning v => v | _ => data end
        end
    | _ => data
    end in
  let data2 :=
    match data1 with
    | PyTuple items => PyList items
    | _ => data1
    end in
  match data2 with
  | PyList (first :: rest) =>
      if is_list_or_tuple first then
        match rest with
        | [] => first
        | _ =>
            PyList (fold_left
                      (fun flattened item =>
                         match item with
                         | PyList l | PyTuple l => flattened ++ l
                         | _ => flattened ++ [item]
                         end)
                      (first :: rest) [])
        end
      else data2
  | _ => data2
  end.

Definition _extract_audio_and_sample_rate (output : pyval) (default_sample_rate : Z)
  : res (pyval * Z) :=
  match output with
  | PyDict d =>
      let wav := dict_get d "wav" PyNone in
      let? sample_rate :=
        py_int (dict_get d "sampling_rate"
                  (dict_get d "sample_rate" (PyInt default_sample_rate))) in
      Ok (wav, sample_rate)
  | PyTuple [first; second] =>
      if is_int_or_float second then
        let? rate := py_int second in
        Ok (first, rate)
      else Ok (output, default_sample_rate)
  | _ => Ok (output, default_sample_rate)
  end.

(** The module constants read from the environment at import time. *)
Record config : Type := MkConfig {
  _MODEL_ID : string;
  _MODEL_MODE : string;
  _LANGUAGE : string;
  _DEFAULT_SPEAKER : string;
  _ALLOW_FALLBACK : bool;
  _DEBUG : bool }.

Definition config_of_env (os : os_env) : config :=
  {| _MODEL_ID := getenv_default os "TTM_QWEN_MODEL_ID" "Qwen/Qwen3-TTS-12Hz-0.6B-CustomVoice";
     _MODEL_MODE := getenv_default os "TTM_QWEN_MODEL_MODE" "custom_voice";
     _LANGUAGE := getenv_default os "TTM_QWEN_LANGUAGE" "auto";
     _DEFAULT_SPEAKER := getenv_default os "TTM_QWEN_SPEAKER" "serena";
     _ALLOW_FALLBACK := String.eqb (getenv_default os "TTM_QWEN_ALLOW_FALLBACK" "0") "1";
     _DEBUG := String.eqb (getenv_default os "TTM_QWEN_DEBUG" "0") "1" |}.

(** What [_debug] is asked to print. *)
Inductive debug_line : Type :=
| LineAlreadyLoaded
| LineLoading (source : string) (kw : kwargs)
| LineLoadFailed (fallback_allowed : bool)
| LineLoaded.

(** The three globals, with what was printed and the calls that left
    the runner. *)
Record world : Type := MkWorld {
  _MODEL_LOADED : bool;
  _QWEN_MODEL : option handle;
  _QWEN_MODULE : option qwen_module;
  stdout : list debug_line;
  trace : list event }.

Definition initial_world : world :=
  {| _MODEL_LOADED := false; _QWEN_MODEL := None; _QWEN_MODULE := None;
     stdout := []; trace := [] |}.

Section Runner.

Variable cfg : config.
Variable os : os_env.

Definition M (A : Type) : Type := world -> res A * world.

Definition ret {A : Type} (a : A) : M A := fun w => (Ok a, w).
Definition raise {A : Type} (e : exn) : M A := fun w => (Raise e, w).
Definition lift {A : Type} (r : res A) : M A := fun w => (r, w).
Definition bind {A B : Type} (c : M A) (k : A -> M B) : M B :=
  fun w =>
    match c w with
    | (Ok a, w') => k a w'
    | (Raise e, w') => (Raise e, w')
    end.
Definition get : M world := fun w => (Ok w, w).

Notation "x <- c ;; k" := (bind c (fun x => k))
  (at level 100, c at next level, right associativity).
Notation "c ;;; k" := (bind c (fun _ => k))
  (at level 100, right associativity).

Definition emit (e : event) : M unit :=
  fun w =>
    (Ok tt,
     {| _MODEL_LOADED := _MODEL_LOADED w; _QWEN_MODEL := _QWEN_MODEL w;
        _QWEN_MODULE := _QWEN_MODULE w; stdout := stdout w; trace := trace w ++ [e] |}).

Definition _debug (message : debug_line) : M unit :=
  fun w =>
    if _DEBUG cfg then
      (Ok tt,
       {| _MODEL_LOADED := _MODEL_LOADED w; _QWEN_MODEL := _QWEN_MODEL w;
          _QWEN_MODULE := _QWEN_MODULE w; stdout := stdout w ++ [message];
          trace := trace w |})
    else (Ok tt, w).

(** Assignment to [_QWEN_MODEL] and [_MODEL_LOADED]. *)
Definition set_model (model : option handle) (loaded : bool) : M unit :=
  fun w =>
    (Ok tt,
     {| _MODEL_LOADED := loaded; _QWEN_MODEL := model;
        _QWEN_MODULE := _QWEN_MODULE w; stdout := stdout w; trace := trace w |}).

Definition set_module (m : qwen_module) : M unit :=
  fun w =>
    (Ok tt,
     {| _MODEL_LOADED := _MODEL_LOADED w; _QWEN_MODEL := _QWEN_MODEL w;
        _QWEN_MODULE := Some m; stdout := stdout w; trace := trace w |}).

Definition _resolve_local_model_path : option string :=
  let value := getenv os "TTM_QWEN_LOCAL_MODEL_PATH" in
  if opt_truthy value then value
  else
    match getenv os "PYTHONHOME" with
    | Some python_home =>
        if str_truthy python_home then
          let local_candidate :=
            path_join (path_join python_home "models") (basename (_MODEL_ID cfg)) in
          if isdir os local_candidate then Some local_candidate else None
        else None
    | None => None
    end.

Definition _target_dtype : option string :=
  if torch_importable os then
    let requested := py_lower (getenv_default os "TTM_QWEN_TORCH_DTYPE" "float32") in
    if String.eqb requested "float16" then Some "float16"
    else if String.eqb requested "bfloat16" then Some "bfloat16"
    else Some "float32"
  else None.

Definition _load_qwen_module : M (option qwen_module) :=
  w <- get ;;
  match _QWEN_MODULE w with
  | Some m => ret (Some m)
  | None =>
      match import_qwen_tts os with
      | None => ret None
      | Some qwen_tts => set_module qwen_tts ;;; ret (Some qwen_tts)
      end
  end.

Definition _create_model : M (option handle) :=
  qwen_module <- _load_qwen_module ;;
  match qwen_module with
  | None => ret None
  | Some qm =>
      match Qwen3TTSModel qm with
      | None => ret None
      | Some from_pretrained =>
          let source :=
            match _resolve_local_model_path with
            | Some path => str_or path (_MODEL_ID cfg)
            | None => _MODEL_ID cfg
            end in
          let kw0 : kwargs := [("device_map", getenv_default os "TTM_QWEN_DEVICE_MAP" "cpu")] in
          let kw1 :=
            match _target_dtype with
            | Some dtype => kw0 ++ [("dtype", dtype)]
            | None => kw0
            end in
          let kw2 :=
            match getenv os "TTM_QWEN_ATTN_IMPLEMENTATION" with
            | Some attn_impl =>
                if str_truthy attn_impl then kw1 ++ [("attn_implementation", attn_impl)]
                else kw1
            | None => kw1
            end in
          _debug (LineLoading source kw2) ;;;
          emit (EvFromPretrained source kw2) ;;;
          lift (from_pretrained source kw2)
      end
  end.

Definition load_model : M bool :=
  w <- get ;;
  if _MODEL_LOADED w && match _QWEN_MODEL w with Some _ => true | None => false end then
    _debug LineAlreadyLoaded ;;; ret true
  else
    model <- _create_model ;;
    match model with
    | None =>
        set_model None false ;;;
        _debug (LineLoadFailed (_ALLOW_FALLBACK cfg)) ;;;
        ret (_ALLOW_FALLBACK cfg)
    | Some m =>
        set_model (Some m) true ;;;
        _debug LineLoaded ;;;
        ret true
    end.

Definition unload_model : M bool :=
  set_model None false ;;; ret true.

Definition is_model_loaded : M bool :=
  w <- get ;; ret (_MODEL_LOADED w).

(** A call [model.name(...)] with keyword arguments. *)
Definition call_method (method : option (kwargs -> res pyval)) (name : string)
    (kw : kwargs) : M pyval :=
  match method with
  | None => raise (AttributeError name)
  | Some f => emit (EvGenerate name kw) ;;; lift (f kw)
  end.

Definition _generate_with_qwen (text voice : string) : M (option bytes) :=
  w <- get ;;
  match _QWEN_MODEL w with
  | None => ret None
  | Some model =>
      let language := _LANGUAGE cfg in
      output <-
        (if String.eqb (_MODEL_MODE cfg) "voice_design" then
           call_method (generate_voice_design model) "generate_voice_design"
             [("text", text); ("language", language); ("instruct", str_or voice "")]
         else
           let requested := py_lower (str_or voice (_DEFAULT_SPEAKER cfg)) in
           requested_speaker <-
             match supported_speakers model with
             | None => ret requested
             | Some answer =>
                 emit EvSpeakers ;;;
                 supported <- lift answer ;;
                 match supported with
                 | first :: _ =>
                     if bool_decide (requested ∈ supported) then ret requested else ret first
                 | [] => ret requested
                 end
             end ;;
           call_method (generate_custom_voice model) "generate_custom_voice"
             [("text", text); ("language", language); ("speaker", requested_speaker)]) ;;
      wav_payload_sr <- lift (_extract_audio_and_sample_rate output 24000) ;;
      match wav_payload_sr.1 with
      | PyNone => ret None
      | PyObj o =>
          match buffer o with
          | Some raw => ret (Some raw)
          | None =>
              wav <- lift (_to_wav_bytes (_normalize_samples wav_payload_sr.1)
                             wav_payload_sr.2) ;;
              ret (Some wav)
          end
      | _ =>
          wav <- lift (_to_wav_bytes (_normalize_samples wav_payload_sr.1)
                         wav_payload_sr.2) ;;
          ret (Some wav)
      end
  end.

Definition synthesize (text voice : string) (sample_rate : Z) : M bytes :=
  if negb (str_truthy (py_strip text)) then raise (ValueError "text must not be empty")
  else
    loaded <- is_model_loaded ;;
    usable <- (if loaded then ret true else load_model) ;;
    if negb usable
    then raise (RuntimeError "Qwen3-TTS runtime unavailable: failed to load model")
    else
      audio <- _generate_with_qwen text voice ;;
      match audio with
      | Some wav => ret wav
      | None =>
          if _ALLOW_FALLBACK cfg then lift (_silent_wav sample_rate f_0_35)
          else raise (RuntimeError "Qwen3-TTS synthesis failed")
      end.

End Runner.

End TTMPythonBridge.

(** * Properties *)

Import TTMService.

(** ** Vocabulary

    The notions the statements below are written in, and the sample
    environments, models and states at which they are instantiated. *)

Section CandidateVocabulary.

Context {A B : Type}.

(** A loop body that only ever appends to its accumulator. *)
Definition appends_only (step : list A -> B -> list A) : Prop :=
  forall acc b, acc `prefix_of` step acc b.

End CandidateVocabulary.

(** The four globals that [load_model] and [unload_model] assign. *)
Definition lifecycle (w : world) : bool * option handle * option string * option string :=
  (_MODEL_LOADED w, _QWEN_MODEL w, _ACTIVE_MODE w, _ACTIVE_MODEL_ID w).

Definition unloaded : bool * option handle * option string * option string :=
  (false, None, None, None).

(** The iterations of the candidate loop recorded in a trace. *)
Definition attempts (t : list event) : list (candidate * res (option handle)) :=
  omap (fun ev =>
          match ev with
          | EvAttempt mode model outcome => Some ((mode, model), outcome)
          | _ => None
          end) t.

(** The module that [_load_qwen_module] ends up with. *)
Definition effective_module (os : os_env) (w : world) : option qwen_module :=
  match _QWEN_MODULE w with
  | Some m => Some m
  | None => import_qwen_tts os
  end.

(** What [_create_model] returns or raises for a model id. *)
Definition creation (cfg : config) (os : os_env) (w : world) (model_id : string)
  : res (option handle) :=
  (_create_model cfg os model_id w).1.

(** The iterations that the candidate loop goes through, given what
    creation yields for each model id: it moves on after a candidate that
    yields no handle and stops at the first one that yields a handle or
    raises. *)
Fixpoint expected_attempts (out : string -> res (option handle)) (cands : list candidate)
  : list (candidate * res (option handle)) :=
  match cands with
  | [] => []
  | c :: rest =>
      match out c.2 with
      | Ok None => (c, Ok None) :: expected_attempts out rest
      | o => [(c, o)]
      end
  end.

(** What the loop returns and leaves in the lifecycle globals, read off
    its iterations. *)
Fixpoint load_outcome (fallback : bool)
    (before : bool * option handle * option string * option string)
    (atts : list (candidate * res (option handle)))
  : res bool * (bool * option handle * option string * option string) :=
  match atts with
  | [] => (Ok fallback, unloaded)
  | (_, Ok None) :: rest => load_outcome fallback before rest
  | (c, Ok (Some model)) :: _ => (Ok true, (true, Some model, Some c.1, Some c.2))
  | (_, Raise e) :: _ => (Raise e, before)
  end.

(** A model is loaded and the active pair is [(mode, model_id)]. *)
Definition loaded_with (w : world) (mode model_id : string) : Prop :=
  _MODEL_LOADED w = true
  /\ is_Some (_QWEN_MODEL w)
  /\ _ACTIVE_MODE w = Some mode
  /\ _ACTIVE_MODEL_ID w = Some model_id.

(** [strict == "1" if strict is not None else False] *)
Definition strict_flag (strict : option string) : bool :=
  match strict with
  | Some s => String.eqb s "1"
  | None => false
  end.

(** A process with no variable set and no [qwen_tts] package. *)
Definition env_bare : os_env :=
  {| getenv := fun _ => None;
     isdir := fun _ => false;
     import_qwen_tts := None;
     torch_importable := false;
     mktemp := Ok "/tmp/reference.wav" |}.

(** The same process started with [TTM_QWEN_ALLOW_FALLBACK=1]. *)
Definition env_fallback : os_env :=
  {| getenv := fun name =>
       if String.eqb name "TTM_QWEN_ALLOW_FALLBACK" then Some "1" else None;
     isdir := fun _ => false;
     import_qwen_tts := None;
     torch_importable := false;
     mktemp := Ok "/tmp/reference.wav" |}.

(** A model that offers no method at all. *)
Definition mute_model : handle :=
  {| generate_voice_design := None; generate_custom_voice := None;
     generate_voice_clone := None; generate_base := None;
     supported_speakers := None |}.

(** A custom-voice model with two speakers, returning one second of
    silence as a dictionary. *)
Definition ryan_serena_model : handle :=
  {| generate_voice_design := None;
     generate_custom_voice :=
       Some (fun _ => Ok (PyDict [("wav", PyList [PyFloat f_zero]);
                                  ("sampling_rate", PyInt 24000)]));
     generate_voice_clone := None; generate_base := None;
     supported_speakers := Some (Ok ["ryan"; "serena"]) |}.

(** A [qwen_tts] package whose constructor raises for the 0.6B
    custom-voice checkpoint and works for every other source. *)
Definition env_broken_checkpoint : os_env :=
  {| getenv := fun _ => None;
     isdir := fun _ => false;
     import_qwen_tts :=
       Some {| Qwen3TTSModel :=
                 Some (fun source _ =>
                         if String.eqb source DEFAULT_CUSTOM_VOICE_MODEL
                         then Raise (ExternalError "checkpoint not found")
                         else Ok (Some ryan_serena_model)) |};
     torch_importable := false;
     mktemp := Ok "/tmp/reference.wav" |}.

(** A [qwen_tts] package whose constructor works for every source. *)
Definition env_working : os_env :=
  {| getenv := fun _ => None;
     isdir := fun _ => false;
     import_qwen_tts := Some {| Qwen3TTSModel := Some (fun _ _ => Ok (Some ryan_serena_model)) |};
     torch_importable := false;
     mktemp := Ok "/tmp/reference.wav" |}.

(** The globals after a voice-design model has been loaded. *)
Definition world_voice_design : world :=
  {| _MODEL_LOADED := true; _QWEN_MODEL := Some mute_model; _QWEN_MODULE := None;
     _ACTIVE_MODE := Some "voice_design";
     _ACTIVE_MODEL_ID := Some DEFAULT_VOICE_DESIGN_MODEL;
     stdout := [];
     trace := [EvAttempt "voice_design" DEFAULT_VOICE_DESIGN_MODEL (Ok (Some mute_model))] |}.

(** A package without the [Qwen3TTSModel] class, imported once. *)
Definition env_no_model_class : os_env :=
  {| getenv := fun _ => None;
     isdir := fun _ => false;
     import_qwen_tts := Some {| Qwen3TTSModel := None |};
     torch_importable := true;
     mktemp := Ok "/tmp/reference.wav" |}.

(** Fallback allowed, and a [qwen_tts] package whose constructor raises
    for every source. *)
Definition env_fallback_broken : os_env :=
  {| getenv := fun name =>
       if String.eqb name "TTM_QWEN_ALLOW_FALLBACK" then Some "1" else None;
     isdir := fun _ => false;
     import_qwen_tts :=
       Some {| Qwen3TTSModel :=
                 Some (fun _ _ => Raise (ExternalError "checkpoint not found")) |};
     torch_importable := false;
     mktemp := Ok "/tmp/reference.wav" |}.

(** A voice-design model whose generator raises. *)
Definition crashing_model : handle :=
  {| generate_voice_design := Some (fun _ => Raise (RuntimeError "CUDA out of memory"));
     generate_custom_voice := None; generate_voice_clone := None; generate_base := None;
     supported_speakers := None |}.

Definition world_crashing : world :=
  {| _MODEL_LOADED := true; _QWEN_MODEL := Some crashing_model; _QWEN_MODULE := None;
     _ACTIVE_MODE := Some "voice_design";
     _ACTIVE_MODEL_ID := Some DEFAULT_VOICE_DESIGN_MODEL;
     stdout := []; trace := [] |}.

(** The lifecycle operations a caller can issue. *)
Inductive op : Type :=
| OpLoad (mode model_id strict : option string)
| OpUnload
| OpEnsure (mode model_id : string).

(** The globals after one operation; an exception leaves them as they
    are at the point where it is raised. *)
Definition step (cfg : config) (os : os_env) (o : op) (w : world) : world :=
  match o with
  | OpLoad mode model_id strict => (load_model cfg os mode model_id strict w).2
  | OpUnload => (unload_model w).2
  | OpEnsure mode model_id => (_ensure_loaded cfg os mode model_id w).2
  end.

(** A run: the module constants are fixed, the environment may differ
    from one call to the next. *)
Definition run (cfg : config) (ops : list (os_env * op)) (w : world) : world :=
  fold_left (fun w '(os, o) => step cfg os o w) ops w.

(** The last candidate for which creation gave a handle, with the handle. *)
Definition last_loaded (atts : list (candidate * res (option handle)))
  : option (candidate * handle) :=
  last (omap (fun a =>
                match a with
                | (c, Ok (Some model)) => Some (c, model)
                | _ => None
                end) atts).

(** The loaded flag is true exactly when a handle is present; with a
    handle, the active pair is the candidate it was instantiated for;
    without one, no active mode or model id is recorded. *)
Definition lifecycle_ok (lc : bool * option handle * option string * option string)
    (atts : list (candidate * res (option handle))) : Prop :=
  match lc with
  | (loaded, Some model, mode, model_id) =>
      loaded = true
      /\ exists m id, mode = Some m /\ model_id = Some id
                      /\ last_loaded atts = Some ((m, id), model)
  | (loaded, None, mode, model_id) =>
      loaded = false /\ mode = None /\ model_id = None
  end.

Definition lifecycle_inv (w : world) : Prop :=
  lifecycle_ok (lifecycle w) (attempts (trace w)).

(** The text is empty or made of whitespace only. *)
Definition whitespace_only (s : string) : bool :=
  forallb is_space (list_ascii_of_string s).

(** Shifting right drops the low bits, and remembers whether any was set. *)
Definition inexact (mrs : shr_record) : bool := shr_r mrs || shr_s mrs.

(** A value that really is a binary64. *)
Definition valid64 (f : pyfloat) : bool := SpecFloat.valid_binary prec emax f.

(** The header of a mono 16-bit PCM file. *)
Definition riff_header (framerate datalength : Z) : bytes :=
  ascii_bytes "RIFF" ++ le_bytes 4 (36 + datalength) ++ ascii_bytes "WAVE"
    ++ ascii_bytes "fmt " ++ le_bytes 4 16 ++ le_bytes 2 1 ++ le_bytes 2 1
    ++ le_bytes 4 framerate ++ le_bytes 4 (2 * framerate) ++ le_bytes 2 2 ++ le_bytes 2 16
    ++ ascii_bytes "data" ++ le_bytes 4 datalength.

(** The samples as the specification words it: clip, scale with
    [round(sample * 32767)], pack little-endian, wrap. *)
Definition spec_toWav (samples : list pyfloat) (sample_rate : Z) : res bytes :=
  let? chunks :=
    res_mapM (fun sample =>
                let? v := round_float (fmul (clip sample) f_32767) in
                pack_h v) samples in
  wave_write 1 2 sample_rate (concat chunks).

(** The mode is a key of [MODEL_REGISTRY]. *)
Definition registered (mode : string) : Prop :=
  mode = "voice_design" \/ mode = "custom_voice" \/ mode = "voice_clone".

(** [MODEL_REGISTRY[mode][0]] for a registered mode. *)
Definition default_model (mode : string) : string :=
  if String.eqb mode "voice_design" then DEFAULT_VOICE_DESIGN_MODEL
  else if String.eqb mode "custom_voice" then DEFAULT_CUSTOM_VOICE_MODEL
  else DEFAULT_VOICE_CLONE_MODEL.

(** [model_id] is [None], empty or whitespace only. *)
Definition blank_id (model_id : option string) : bool :=
  match model_id with
  | Some s => whitespace_only s
  | None => true
  end.

(** A process started with [TTM_QWEN_MODE=Custom_Voice]: the default
    mode is not a key of the registry. *)
Definition env_bad_default_mode : os_env :=
  {| getenv := fun name => if String.eqb name "TTM_QWEN_MODE" then Some "Custom_Voice" else None;
     isdir := fun _ => false;
     import_qwen_tts := None;
     torch_importable := false;
     mktemp := Ok "/tmp/reference.wav" |}.

(** The models registered for a mode, [MODEL_REGISTRY.get(mode, [])]. *)
Definition models_of (mode : string) : list string :=
  match registry_lookup MODEL_REGISTRY mode with
  | Some ids => ids
  | None => []
  end.

(** The candidates of the other modes, in registry order. *)
Definition cross_mode_candidates (mode requested_model : string) : list candidate :=
  flat_map (fun entry : string * list string =>
              if String.eqb entry.1 mode then []
              else map (pair entry.1) (filter (fun id => id <> requested_model) entry.2))
    MODEL_REGISTRY.

(** What [_candidates_for_mode] is meant to return: the requested pair,
    the other models of the mode, then the models of the other modes. *)
Definition candidates_in_order (cfg : config) (mode requested_model : string) (strict : bool)
  : list candidate :=
  (if str_truthy requested_model then [(mode, requested_model)] else [])
    ++ map (pair mode) (filter (fun id => id <> requested_model) (models_of mode))
    ++ (if negb strict && _ALLOW_CROSS_MODE_FALLBACK cfg
        then cross_mode_candidates mode requested_model else []).

(** A [qwen_tts] package whose constructor returns no handle for the
    0.6B custom-voice checkpoint and a handle for every other source. *)
Definition env_small_checkpoint_missing : os_env :=
  {| getenv := fun _ => None;
     isdir := fun _ => false;
     import_qwen_tts :=
       Some {| Qwen3TTSModel :=
                 Some (fun source _ =>
                         if String.eqb source DEFAULT_CUSTOM_VOICE_MODEL
                         then Ok None
                         else Ok (Some ryan_serena_model)) |};
     torch_importable := false;
     mktemp := Ok "/tmp/reference.wav" |}.

(** The checkpoints that [from_pretrained] was asked for, oldest first. *)
Definition sources (t : list event) : list string :=
  omap (fun ev =>
          match ev with
          | EvFromPretrained source _ => Some source
          | _ => None
          end) t.

(** A process started with [TTM_QWEN_LOCAL_MODEL_PATH=/opt/models/tts]. *)
Definition env_local_path : os_env :=
  {| getenv := fun name =>
       if String.eqb name "TTM_QWEN_LOCAL_MODEL_PATH" then Some "/opt/models/tts" else None;
     isdir := fun _ => false;
     import_qwen_tts := Some {| Qwen3TTSModel := Some (fun _ _ => Ok (Some ryan_serena_model)) |};
     torch_importable := false;
     mktemp := Ok "/tmp/reference.wav" |}.

(** The globals after [qwen_tts] has been imported and nothing loaded. *)
Definition world_imported : world :=
  {| _MODEL_LOADED := false; _QWEN_MODEL := None;
     _QWEN_MODULE := Some {| Qwen3TTSModel := None |};
     _ACTIVE_MODE := None; _ACTIVE_MODEL_ID := None; stdout := []; trace := [] |}.

(** A custom-voice model whose speaker list has an empty entry. *)
Definition model_with_blank_speaker : handle :=
  {| generate_voice_design := None; generate_custom_voice := None;
     generate_voice_clone := None; generate_base := None;
     supported_speakers := Some (Ok ["ryan"; ""; "serena"]) |}.

Definition world_blank_speaker : world :=
  {| _MODEL_LOADED := true; _QWEN_MODEL := Some model_with_blank_speaker;
     _QWEN_MODULE := None;
     _ACTIVE_MODE := Some "custom_voice";
     _ACTIVE_MODEL_ID := Some DEFAULT_CUSTOM_VOICE_MODEL;
     stdout := []; trace := [] |}.

(** [kwargs.get(key)] *)
Fixpoint kw_get (kw : kwargs) (key : string) : option string :=
  match kw with
  | [] => None
  | (k, v) :: r => if String.eqb k key then Some v else kw_get r key
  end.

(** The globals after the default custom-voice model has been loaded. *)
Definition world_custom_voice : world :=
  {| _MODEL_LOADED := true; _QWEN_MODEL := Some ryan_serena_model; _QWEN_MODULE := None;
     _ACTIVE_MODE := Some "custom_voice";
     _ACTIVE_MODEL_ID := Some DEFAULT_CUSTOM_VOICE_MODEL;
     stdout := []; trace := [] |}.

(** The speaker that [_generate_custom_voice] settles on for a model:
    the lower-cased request, replaced by the first listed speaker when the
    model lists speakers and the request is not among them.  The query of
    the model may raise. *)
Definition custom_voice_speaker (cfg : config) (model : handle) (speaker : string)
  : res string :=
  let requested := py_lower (str_or speaker (DEFAULT_SPEAKER cfg)) in
  match supported_speakers model with
  | None => Ok requested
  | Some answer =>
      let? supported := answer in
      Ok match supported with
         | first :: _ => if bool_decide (requested ∈ supported) then requested else first
         | [] => requested
         end
  end.

(** The query of the model's speakers, made when the model has the
    method. *)
Definition speakers_query (model : handle) : list event :=
  match supported_speakers model with
  | Some _ => [EvSpeakers]
  | None => []
  end.

(** An older custom-voice model: its [generate_custom_voice] does not
    know the [instruct] keyword. *)
Definition legacy_model : handle :=
  {| generate_voice_design := None;
     generate_custom_voice :=
       Some (fun kw =>
               match kw_get kw "instruct" with
               | Some _ => Raise TypeError
               | None => Ok (py_bytes [x52; x49])
               end);
     generate_voice_clone := None; generate_base := None;
     supported_speakers := Some (Ok ["ryan"; "serena"]) |}.

Definition world_legacy : world :=
  {| _MODEL_LOADED := true; _QWEN_MODEL := Some legacy_model; _QWEN_MODULE := None;
     _ACTIVE_MODE := Some "custom_voice";
     _ACTIVE_MODEL_ID := Some DEFAULT_CUSTOM_VOICE_MODEL;
     stdout := []; trace := [] |}.

(** A voice-clone model with [generate_base] only, which raises. *)
Definition failing_clone_model : handle :=
  {| generate_voice_design := None; generate_custom_voice := None;
     generate_voice_clone := None;
     generate_base := Some (fun _ => Raise (ExternalError "out of memory"));
     supported_speakers := None |}.

Definition world_failing_clone : world :=
  {| _MODEL_LOADED := true; _QWEN_MODEL := Some failing_clone_model; _QWEN_MODULE := None;
     _ACTIVE_MODE := Some "voice_clone";
     _ACTIVE_MODEL_ID := Some DEFAULT_VOICE_CLONE_MODEL;
     stdout := []; trace := [] |}.

(** The loop [for item in data: flattened.extend(...)] of
    [_flatten_numeric_samples]. *)
Definition flatten_items (items : list pyval) : res (list pyfloat) :=
  (fix extend_all (l : list pyval) : res (list pyfloat) :=
     match l with
     | [] => Ok []
     | item :: r =>
         let? head := _flatten_numeric_samples item in
         let? tail := extend_all r in
         Ok (head ++ tail)
     end) items.

(** The value is a number or a built-in container, not a foreign object. *)
Definition plain (v : pyval) : bool :=
  match v with
  | PyObj _ => false
  | _ => true
  end.

(** When [_normalize_samples] converts a foreign object with [tolist],
    the conversion yields a number or a built-in container. *)
Definition converts_to_plain (data : pyval) : Prop :=
  match data with
  | PyObj o =>
      match detach_numpy o with
      | Returning (PyObj a) =>
          match tolist a with Returning v => plain v = true | _ => True end
      | Absent =>
          match tolist o with Returning v => plain v = true | _ => True end
      | _ => True
      end
  | _ => True
  end.

(** The second half of [_normalize_samples]: a tuple becomes a list and a
    batch is unwrapped or flattened by one level. *)
Definition unbatch (data : pyval) : pyval :=
  let data2 :=
    match data with
    | PyTuple items => PyList items
    | _ => data
    end in
  match data2 with
  | PyList (first :: rest) =>
      if is_list_or_tuple first then
        match rest with
        | [] => first
        | _ =>
            PyList (fold_left
                      (fun flattened item =>
                         match item with
                         | PyList l | PyTuple l => flattened ++ l
                         | _ => flattened ++ [item]
                         end)
                      (first :: rest) [])
        end
      else data2
  | _ => data2
  end.

(** A voice-design model whose generator returns [None]. *)
Definition speechless_model : handle :=
  {| generate_voice_design := Some (fun _ => Ok PyNone); generate_custom_voice := None;
     generate_voice_clone := None; generate_base := None;
     supported_speakers := None |}.

Definition world_speechless : world :=
  {| _MODEL_LOADED := true; _QWEN_MODEL := Some speechless_model; _QWEN_MODULE := None;
     _ACTIVE_MODE := Some "voice_design";
     _ACTIVE_MODEL_ID := Some DEFAULT_VOICE_DESIGN_MODEL;
     stdout := []; trace := [] |}.

(** What a synthesis entry point does once the text is accepted and the
    model id resolved: ensure, generate, then return, fall back or raise. *)
Definition after_generation (cfg : config) (sample_rate : Z) (failure : string)
    (audio : option bytes) : M bytes :=
  match audio with
  | Some wav => ret wav
  | None =>
      if _ALLOW_FALLBACK cfg then lift (_silent_wav sample_rate f_0_35)
      else raise (RuntimeError failure)
  end.

(** The two lifecycle globals of the single-mode runner. *)
Definition bridge_state (w : TTMPythonBridge.world) : bool * option handle :=
  (TTMPythonBridge._MODEL_LOADED w, TTMPythonBridge._QWEN_MODEL w).

(** What a caller of the single-mode runner can do. *)
Inductive bridge_op : Type :=
| BridgeLoad
| BridgeUnload
| BridgeSynthesize (text voice : string) (sample_rate : Z).

Definition bridge_step (cfg : TTMPythonBridge.config) (os : os_env) (o : bridge_op)
    (w : TTMPythonBridge.world) : TTMPythonBridge.world :=
  match o with
  | BridgeLoad => (TTMPythonBridge.load_model cfg os w).2
  | BridgeUnload => (TTMPythonBridge.unload_model w).2
  | BridgeSynthesize text voice sample_rate =>
      (TTMPythonBridge.synthesize cfg os text voice sample_rate w).2
  end.

Definition bridge_run (cfg : TTMPythonBridge.config) (ops : list (os_env * bridge_op))
    (w : TTMPythonBridge.world) : TTMPythonBridge.world :=
  fold_left (fun w '(os, o) => bridge_step cfg os o w) ops w.

(** The loaded flag says whether a handle is present. *)
Definition bridge_inv (w : TTMPythonBridge.world) : Prop :=
  TTMPythonBridge._MODEL_LOADED w
  = match TTMPythonBridge._QWEN_MODEL w with Some _ => true | None => false end.

(** The tail of [_generate_with_qwen]: split the output, pass raw bytes
    through, encode samples, give [None] for an absent payload. *)
Definition bridge_encode (output : pyval) : TTMPythonBridge.M (option bytes) :=
  TTMPythonBridge.bind
    (TTMPythonBridge.lift (TTMPythonBridge._extract_audio_and_sample_rate output 24000))
    (fun wav_payload_sr =>
       match wav_payload_sr.1 with
       | PyNone => TTMPythonBridge.ret None
       | PyObj o =>
           match buffer o with
           | Some raw => TTMPythonBridge.ret (Some raw)
           | None =>
               TTMPythonBridge.bind
                 (TTMPythonBridge.lift
                    (TTMPythonBridge._to_wav_bytes
                       (TTMPythonBridge._normalize_samples wav_payload_sr.1)
                       wav_payload_sr.2))
                 (fun wav => TTMPythonBridge.ret (Some wav))
           end
       | _ =>
           TTMPythonBridge.bind
             (TTMPythonBridge.lift
                (TTMPythonBridge._to_wav_bytes
                   (TTMPythonBridge._normalize_samples wav_payload_sr.1)
                   wav_payload_sr.2))
             (fun wav => TTMPythonBridge.ret (Some wav))
       end).

(** The events of one call of a method of the model with keyword
    arguments: none when the model has no such method. *)
Definition method_call (method : option (kwargs -> res pyval)) (name : string) (kw : kwargs)
  : list event :=
  match method with
  | Some _ => [EvGenerate name kw]
  | None => []
  end.

(** The calls that [_generate_with_qwen] makes for a model, in the order
    it makes them. *)
Definition bridge_calls (cfg : TTMPythonBridge.config) (model : handle) (text voice : string)
  : list event :=
  if String.eqb (TTMPythonBridge._MODEL_MODE cfg) "voice_design" then
    method_call (generate_voice_design model) "generate_voice_design"
      [("text", text); ("language", TTMPythonBridge._LANGUAGE cfg);
       ("instruct", str_or voice "")]
  else
    let requested := py_lower (str_or voice (TTMPythonBridge._DEFAULT_SPEAKER cfg)) in
    match supported_speakers model with
    | None =>
        method_call (generate_custom_voice model) "generate_custom_voice"
          [("text", text); ("language", TTMPythonBridge._LANGUAGE cfg);
           ("speaker", requested)]
    | Some answer =>
        EvSpeakers ::
        match answer with
        | Raise _ => []
        | Ok supported =>
            method_call (generate_custom_voice model) "generate_custom_voice"
              [("text", text); ("language", TTMPythonBridge._LANGUAGE cfg);
               ("speaker",
                match supported with
                | first :: _ => if bool_decide (requested ∈ supported) then requested else first
                | [] => requested
                end)]
        end
    end.

(** The single-mode runner configured for [voice_clone], with the
    two-speaker custom-voice model loaded. *)
Definition env_bridge_voice_clone : os_env :=
  {| getenv := fun name =>
       if String.eqb name "TTM_QWEN_MODEL_MODE" then Some "voice_clone" else None;
     isdir := fun _ => false;
     import_qwen_tts := None;
     torch_importable := false;
     mktemp := Ok "/tmp/reference.wav" |}.

Definition bridge_world_loaded : TTMPythonBridge.world :=
  {| TTMPythonBridge._MODEL_LOADED := true;
     TTMPythonBridge._QWEN_MODEL := Some ryan_serena_model;
     TTMPythonBridge._QWEN_MODULE := None;
     TTMPythonBridge.stdout := [];
     TTMPythonBridge.trace := [] |}.


(** ** Strings *)

Lemma list_ascii_roundtrip (l : list ascii) :
  list_ascii_of_string (string_of_list_ascii l) = l.
Proof. apply list_ascii_of_string_of_list_ascii. Qed.

Lemma String_eqb_false_iff (a b : string) : String.eqb a b = false <-> a <> b.
Proof.
  split; intros H.
  - intros ->. rewrite String.eqb_refl in H. discriminate.
  - destruct (String.eqb a b) eqn:E; [apply String.eqb_eq in E; contradiction | reflexivity].
Qed.

Lemma str_truthy_true (s : string) : str_truthy s = true <-> s <> "".
Proof.
  unfold str_truthy. rewrite negb_true_iff. apply String_eqb_false_iff.
Qed.

Lemma str_truthy_false (s : string) : str_truthy s = false <-> s = "".
Proof.
  unfold str_truthy. rewrite negb_false_iff. apply String.eqb_eq.
Qed.

(** ** Candidate resolution *)

Section CandidateFacts.

Context {A B : Type}.

Lemma fold_left_appends_only (step : list A -> B -> list A) (l : list B) (acc : list A) :
  appends_only step -> acc `prefix_of` fold_left step l acc.
Proof.
  intros Hstep. revert acc.
  induction l as [| b l IH]; intros acc; simpl.
  - reflexivity.
  - etrans; [apply Hstep | apply IH].
Qed.

Lemma head_prefix (x : A) (l1 l2 : list A) :
  (x :: l1) `prefix_of` l2 -> head l2 = Some x.
Proof. intros [k ->]. reflexivity. Qed.

Lemma head_cons_inv (x : A) (l : list A) :
  head l = Some x -> exists rest, l = x :: rest.
Proof. destruct l as [| y rest]; simpl; [discriminate |]. intros [= ->]. by exists rest. Qed.

End CandidateFacts.

Lemma dedup_step_inv (seen : gset candidate) (unique : list candidate) (entry : candidate) :
  NoDup unique ->
  (forall x, x ∈ seen <-> x ∈ unique) ->
  let acc := dedup_step (seen, unique) entry in
  NoDup acc.2
  /\ (forall x, x ∈ acc.1 <-> x ∈ acc.2)
  /\ unique `prefix_of` acc.2
  /\ (forall x, x ∈ acc.2 <-> x ∈ unique \/ x = entry).
Proof.
  intros Hnd Hseen. unfold dedup_step. simpl.
  destruct (decide (entry ∈ seen)) as [Hin | Hnin]; simpl.
  - split; [assumption |]. split; [assumption |]. split; [reflexivity |].
    intros x. split; [by left |]. intros [H | ->]; [assumption | by apply Hseen].
  - split; [| split; [| split]].
    + apply NoDup_app. split; [assumption |]. split; [| apply NoDup_singleton].
      intros x Hx Hx'. apply list_elem_of_singleton in Hx' as ->.
      by apply Hnin, Hseen.
    + intros x. rewrite elem_of_union, elem_of_singleton, elem_of_app,
        list_elem_of_singleton, Hseen. tauto.
    + by apply prefix_app_r.
    + intros x. rewrite elem_of_app, list_elem_of_singleton. tauto.
Qed.

Lemma dedup_fold_inv (l : list candidate) (seen : gset candidate) (unique : list candidate) :
  NoDup unique ->
  (forall x, x ∈ seen <-> x ∈ unique) ->
  let acc := fold_left dedup_step l (seen, unique) in
  NoDup acc.2
  /\ unique `prefix_of` acc.2
  /\ (forall x, x ∈ acc.2 <-> x ∈ unique \/ x ∈ l).
Proof.
  revert seen unique.
  induction l as [| entry l IH]; intros seen unique Hnd Hseen; cbv zeta; cbn [fold_left].
  - split; [assumption |]. split; [reflexivity |].
    intros x. rewrite elem_of_nil. tauto.
  - destruct (dedup_step_inv seen unique entry Hnd Hseen) as (Hnd' & Hseen' & Hpre & Hmem).
    destruct (dedup_step (seen, unique) entry) as [seen' unique'] eqn:Hstep.
    simpl in Hnd', Hseen', Hpre, Hmem.
    destruct (IH seen' unique' Hnd' Hseen') as (Hnd'' & Hpre' & Hmem').
    split; [assumption |]. split; [by etrans |].
    intros x. rewrite Hmem', Hmem, elem_of_cons. tauto.
Qed.

Lemma empty_seen_unique (x : candidate) : x ∈ (∅ : gset candidate) <-> x ∈ ([] : list candidate).
Proof. rewrite elem_of_nil. split; [apply not_elem_of_empty | tauto]. Qed.

(** The deduplication loop keeps the first occurrence of every entry, in
    order; in particular it keeps the head. *)
Lemma dedup_nodup (l : list candidate) :
  NoDup (fold_left dedup_step l (∅, [])).2.
Proof.
  destruct (dedup_fold_inv l ∅ []) as (H & _ & _); auto using empty_seen_unique.
  apply NoDup_nil_2.
Qed.

Lemma dedup_elem_of (l : list candidate) (x : candidate) :
  x ∈ (fold_left dedup_step l (∅, [])).2 <-> x ∈ l.
Proof.
  destruct (dedup_fold_inv l ∅ []) as (_ & _ & H); auto using empty_seen_unique.
  - apply NoDup_nil_2.
  - rewrite H, elem_of_nil. tauto.
Qed.

Lemma dedup_head (x : candidate) (l : list candidate) :
  head (fold_left dedup_step (x :: l) (∅, [])).2 = Some x.
Proof.
  cbn [fold_left]. unfold dedup_step at 2.
  destruct (decide (x ∈ (∅ : gset candidate))) as [Hin | _].
  - by apply not_elem_of_empty in Hin.
  - destruct (dedup_fold_inv l ({[x]} ∪ ∅) ([] ++ [x])) as (_ & Hpre & _).
    + apply NoDup_singleton.
    + intros y. rewrite elem_of_union, elem_of_singleton. simpl.
      rewrite list_elem_of_singleton. split; [intros [-> | H] |]; auto.
      by apply not_elem_of_empty in H.
    + simpl in Hpre. by apply head_prefix in Hpre.
Qed.

(** [_candidates_for_mode] deduplicates a list that starts with the
    requested pair, when there is one. *)
Lemma candidates_shape (cfg : config) (mode requested_model : string) (strict : bool) :
  exists ordered : list candidate,
    _candidates_for_mode cfg mode requested_model strict
    = (fold_left dedup_step ordered (∅, [])).2
    /\ (if str_truthy requested_model then [(mode, requested_model)] else [])
         `prefix_of` ordered.
Proof.
  unfold _candidates_for_mode. eexists. split; [reflexivity |].
  set (ordered0 := if str_truthy requested_model then [(mode, requested_model)] else []).
  assert (H1 : forall ids (acc : list candidate),
             acc `prefix_of`
               fold_left (fun ordered model_id =>
                            if negb (String.eqb model_id requested_model)
                            then ordered ++ [(mode, model_id)] else ordered) ids acc).
  { intros ids acc. apply fold_left_appends_only. intros a b.
    destruct (negb (String.eqb b requested_model)); [by apply prefix_app_r | reflexivity]. }
  destruct (negb strict && _ALLOW_CROSS_MODE_FALLBACK cfg); [| apply H1].
  etrans; [apply H1 |].
  apply fold_left_appends_only. intros acc [fallback_mode model_ids].
  destruct (String.eqb fallback_mode mode); [reflexivity |].
  apply fold_left_appends_only. intros a b.
  destruct (String.eqb b requested_model); [reflexivity | by apply prefix_app_r].
Qed.

Lemma candidates_nodup (cfg : config) (mode requested_model : string) (strict : bool) :
  NoDup (_candidates_for_mode cfg mode requested_model strict).
Proof.
  destruct (candidates_shape cfg mode requested_model strict) as (ordered & -> & _).
  apply dedup_nodup.
Qed.

Lemma candidates_head (cfg : config) (mode requested_model : string) (strict : bool) :
  requested_model <> "" ->
  exists rest,
    _candidates_for_mode cfg mode requested_model strict = (mode, requested_model) :: rest.
Proof.
  intros Hreq.
  destruct (candidates_shape cfg mode requested_model strict) as (ordered & -> & Hpre).
  apply str_truthy_true in Hreq. rewrite Hreq in Hpre.
  destruct Hpre as [k ->]. simpl app.
  apply head_cons_inv, dedup_head.
Qed.

(** C4.  Whatever the mode, the requested model id and the strict flag,
    the list returned by [_candidates_for_mode] holds no (mode, model id)
    pair twice; and when a model id is requested (a string that is not
    empty) the pair (mode, requested id) is its first element. *)
Theorem candidates_no_duplicates_requested_first
    (cfg : config) (mode requested_model : string) (strict : bool) :
  NoDup (_candidates_for_mode cfg mode requested_model strict)
  /\ (requested_model = ""
      \/ head (_candidates_for_mode cfg mode requested_model strict)
         = Some (mode, requested_model)).
Proof.
  split; [apply candidates_nodup |].
  destruct (String.eqb requested_model "") eqn:E.
  - left. by apply String.eqb_eq.
  - right. apply String_eqb_false_iff in E.
    destruct (candidates_head cfg mode requested_model strict E) as [rest ->].
    reflexivity.
Qed.

(** ** The lifecycle globals *)

Lemma attempts_app (t1 t2 : list event) : attempts (t1 ++ t2) = attempts t1 ++ attempts t2.
Proof. unfold attempts. apply omap_app. Qed.

Section Lifecycle.

Variable cfg : config.
Variable os : os_env.

Lemma debug_frame (message : debug_msg) (w : world) :
  (_debug cfg message w).1 = Ok tt
  /\ lifecycle (_debug cfg message w).2 = lifecycle w
  /\ trace (_debug cfg message w).2 = trace w
  /\ _QWEN_MODULE (_debug cfg message w).2 = _QWEN_MODULE w.
Proof. unfold _debug. destruct (_DEBUG cfg); auto. Qed.

Lemma create_model_frame (model_id : string) (w : world) :
  lifecycle (_create_model cfg os model_id w).2 = lifecycle w
  /\ attempts (trace (_create_model cfg os model_id w).2) = attempts (trace w)
  /\ effective_module os (_create_model cfg os model_id w).2 = effective_module os w.
Proof.
  unfold _create_model, _load_qwen_module, effective_module, bind, get, ret, lift,
    set_module, emit, _debug.
  destruct (_QWEN_MODULE w) as [qm |] eqn:Hqm; simpl.
  - destruct (Qwen3TTSModel qm); simpl; rewrite ?Hqm; auto.
    destruct (_DEBUG cfg); simpl; rewrite ?attempts_app, ?Hqm; simpl;
      rewrite ?app_nil_r; auto.
  - destruct (import_qwen_tts os) as [qm |]; simpl; rewrite ?Hqm; auto.
    destruct (Qwen3TTSModel qm); simpl; auto.
    destruct (_DEBUG cfg); simpl; rewrite ?attempts_app; simpl;
      rewrite ?app_nil_r; auto.
Qed.

Lemma creation_effective_module (model_id : string) (w1 w2 : world) :
  effective_module os w1 = effective_module os w2 ->
  creation cfg os w1 model_id = creation cfg os w2 model_id.
Proof.
  unfold creation, _create_model, _load_qwen_module, effective_module, bind, get, ret,
    lift, set_module, emit, _debug.
  intros H.
  destruct (_QWEN_MODULE w1) as [q1 |], (_QWEN_MODULE w2) as [q2 |]; simpl in *.
  - injection H as ->. destruct (Qwen3TTSModel q2); simpl; auto.
    destruct (_DEBUG cfg); reflexivity.
  - rewrite <- H. simpl. destruct (Qwen3TTSModel q1); simpl; auto.
    destruct (_DEBUG cfg); reflexivity.
  - rewrite H. simpl. destruct (Qwen3TTSModel q2); simpl; auto.
    destruct (_DEBUG cfg); reflexivity.
  - destruct (import_qwen_tts os) as [q |]; simpl; auto.
    destruct (Qwen3TTSModel q); simpl; auto.
    destruct (_DEBUG cfg); reflexivity.
Qed.

End Lifecycle.

Lemma expected_attempts_ext (out1 out2 : string -> res (option handle))
    (cands : list candidate) :
  (forall id, out1 id = out2 id) ->
  expected_attempts out1 cands = expected_attempts out2 cands.
Proof.
  intros H. induction cands as [| c rest IH]; simpl; [reflexivity |].
  rewrite H, IH. reflexivity.
Qed.

Section LoadLoop.

Variable cfg : config.
Variable os : os_env.

Lemma load_candidates_spec (cands : list candidate) (w : world) :
  let r := load_candidates cfg os cands w in
  let atts := expected_attempts (creation cfg os w) cands in
  attempts (trace r.2) = attempts (trace w) ++ atts
  /\ (r.1, lifecycle r.2) = load_outcome (_ALLOW_FALLBACK cfg) (lifecycle w) atts
  /\ effective_module os r.2 = effective_module os w.
Proof.
  cbv zeta. revert w.
  induction cands as [| [cm cid] rest IH]; intros w.
  - simpl. rewrite app_nil_r. auto.
  - cbn [load_candidates expected_attempts snd].
    pose proof (create_model_frame cfg os cid w) as (Hlife & Hatt & Hmod).
    replace (creation cfg os w cid) with (_create_model cfg os cid w).1 by reflexivity.
    destruct (_create_model cfg os cid w) as [[[model |] | e] w1] eqn:Hcreate;
      cbn [fst snd] in *.
    + (* a handle: the loop stops *)
      unfold bind, emit, set_lifecycle, ret, _debug.
      destruct (_DEBUG cfg); cbn; rewrite attempts_app, Hatt; cbn;
        (split; [reflexivity | split; [reflexivity | exact Hmod]]).
    + (* no handle: the loop moves on *)
      set (w2 := (emit (EvAttempt cm cid (Ok None)) w1).2).
      pose proof (debug_frame cfg (MsgLoadFailed cm cid) w2) as (Hd1 & Hd2 & Hd3 & Hd4).
      destruct (_debug cfg (MsgLoadFailed cm cid) w2) as [rd w3] eqn:Hdebug.
      cbn [fst snd] in *. subst rd.
      assert (Hrun : bind (emit (EvAttempt cm cid (Ok None)))
                       (fun _ => bind (_debug cfg (MsgLoadFailed cm cid))
                                   (fun _ => load_candidates cfg os rest)) w1
                     = load_candidates cfg os rest w3).
      { unfold bind at 1. unfold emit at 1. unfold bind at 1.
        change (_debug cfg (MsgLoadFailed cm cid) _) with
          (_debug cfg (MsgLoadFailed cm cid) w2).
        by rewrite Hdebug. }
      rewrite Hrun.
      destruct (IH w3) as (IHatt & IHout & IHmod).
      assert (Hm3 : effective_module os w3 = effective_module os w).
      { unfold effective_module in *. rewrite Hd4. exact Hmod. }
      assert (Hext : expected_attempts (creation cfg os w3) rest
                     = expected_attempts (creation cfg os w) rest).
      { apply expected_attempts_ext. intros id.
        by apply creation_effective_module. }
      rewrite Hext in IHatt, IHout.
      split; [| split].
      * rewrite IHatt, Hd3. subst w2. cbn [trace emit snd].
        rewrite attempts_app, Hatt. cbn. by rewrite <- app_assoc.
      * cbn [load_outcome]. rewrite IHout. f_equal.
        rewrite Hd2. subst w2. rewrite <- Hlife. reflexivity.
      * by rewrite IHmod.
    + (* an exception: it leaves the loop *)
      unfold bind, emit, raise. cbn. rewrite attempts_app, Hatt. cbn.
      split; [reflexivity | split; [by rewrite <- Hlife | exact Hmod]].
Qed.

End LoadLoop.

Lemma opt_is_true (o : option string) (s : string) : opt_is o s = true <-> o = Some s.
Proof.
  destruct o as [x |]; simpl.
  - rewrite String.eqb_eq. split; [by intros -> | by intros [= ->]].
  - split; discriminate.
Qed.

Lemma already_active_loaded_with (w : world) (mode model_id : string) :
  already_active w mode model_id = true <-> loaded_with w mode model_id.
Proof.
  unfold already_active, loaded_with, has_model.
  rewrite !andb_true_iff, !opt_is_true.
  destruct (_QWEN_MODEL w); split.
  - intros [[[? _] ?] ?]. eauto.
  - intros (? & _ & ? & ?). auto.
  - intros [[[? ?] ?] ?]. discriminate.
  - intros (? & [? ?] & ? & ?). discriminate.
Qed.

Section LoadModel.

Variable cfg : config.
Variable os : os_env.

Lemma load_model_unfold (mode model_id strict : option string) (w : world)
    (resolved_model : string) :
  _resolve_model (_resolve_mode cfg mode) model_id = Ok resolved_model ->
  load_model cfg os mode model_id strict w
  = if already_active w (_resolve_mode cfg mode) resolved_model
    then (Ok true, (_debug cfg MsgAlreadyLoaded w).2)
    else load_candidates cfg os
           (_candidates_for_mode cfg (_resolve_mode cfg mode) resolved_model
              (strict_flag strict)) w.
Proof.
  intros Hres. unfold load_model. rewrite Hres.
  unfold bind at 1. unfold lift at 1. unfold bind at 1. unfold get at 1.
  destruct (already_active w (_resolve_mode cfg mode) resolved_model); [| reflexivity].
  unfold bind, ret. pose proof (debug_frame cfg MsgAlreadyLoaded w) as [H _].
  destruct (_debug cfg MsgAlreadyLoaded w) as [r w']. simpl in *. by subst r.
Qed.

Lemma load_model_unresolved (mode model_id strict : option string) (w : world) (e : exn) :
  _resolve_model (_resolve_mode cfg mode) model_id = Raise e ->
  load_model cfg os mode model_id strict w = (Raise e, w).
Proof. intros Hres. unfold load_model. rewrite Hres. reflexivity. Qed.

End LoadModel.

(** C2.  When a model is loaded and the active pair is exactly the pair
    that the arguments resolve to, [load_model] returns [True], leaves the
    four lifecycle globals and the cached module as they are, and makes no
    call outside the runner: no candidate is attempted, nothing is
    instantiated. *)
Theorem load_model_reuses_active_model
    (cfg : config) (os : os_env) (w : world) (mode model_id strict : option string)
    (resolved_model : string) :
  _resolve_model (_resolve_mode cfg mode) model_id = Ok resolved_model ->
  loaded_with w (_resolve_mode cfg mode) resolved_model ->
  (load_model cfg os mode model_id strict w).1 = Ok true
  /\ lifecycle (load_model cfg os mode model_id strict w).2 = lifecycle w
  /\ _QWEN_MODULE (load_model cfg os mode model_id strict w).2 = _QWEN_MODULE w
  /\ trace (load_model cfg os mode model_id strict w).2 = trace w.
Proof.
  intros Hres Hloaded.
  rewrite (load_model_unfold cfg os mode model_id strict w resolved_model Hres).
  apply already_active_loaded_with in Hloaded. rewrite Hloaded. simpl.
  pose proof (debug_frame cfg MsgAlreadyLoaded w) as (_ & H2 & H3 & H4). auto.
Qed.

Lemma expected_attempts_all_missing (out : string -> res (option handle))
    (cands : list candidate) :
  Forall (fun c => out c.2 = Ok None) cands ->
  expected_attempts out cands = map (fun c => (c, Ok None)) cands.
Proof.
  induction 1 as [| c rest Hc _ IH]; simpl; [reflexivity |].
  by rewrite Hc, IH.
Qed.

Lemma load_outcome_all_missing (fallback : bool)
    (before : bool * option handle * option string * option string)
    (cands : list candidate) :
  load_outcome fallback before (map (fun c => (c, Ok None)) cands)
  = (Ok fallback, unloaded).
Proof. induction cands as [| c rest IH]; simpl; auto. Qed.


(** ** Loading in sample environments *)


Lemma load_model_reuses_active_model_witness :
  (load_model (config_of_env env_working) env_working (Some " Voice_Design ") None None
     world_voice_design).1 = Ok true
  /\ lifecycle (load_model (config_of_env env_working) env_working (Some " Voice_Design ")
                  None None world_voice_design).2 = lifecycle world_voice_design
  /\ _QWEN_MODULE (load_model (config_of_env env_working) env_working
                     (Some " Voice_Design ") None None world_voice_design).2
     = _QWEN_MODULE world_voice_design
  /\ trace (load_model (config_of_env env_working) env_working (Some " Voice_Design ")
              None None world_voice_design).2 = trace world_voice_design.
Proof.
  apply (load_model_reuses_active_model (config_of_env env_working) env_working
           world_voice_design (Some " Voice_Design ") None None DEFAULT_VOICE_DESIGN_MODEL).
  - reflexivity.
  - repeat split; eauto.
Defined.

(** With a constructor that raises for the first candidate, [load_model]
    raises that very exception: the error of one candidate reaches the
    caller, and the next candidate, which would load, is never tried. *)
Lemma load_model_propagates_constructor_error :
  creation (config_of_env env_broken_checkpoint) env_broken_checkpoint initial_world
    "Qwen/Qwen3-TTS-12Hz-1.7B-CustomVoice" = Ok (Some ryan_serena_model)
  /\ (load_model (config_of_env env_broken_checkpoint) env_broken_checkpoint
        (Some "custom_voice") None None initial_world).1
     = Raise (ExternalError "checkpoint not found")
  /\ attempts (trace (load_model (config_of_env env_broken_checkpoint) env_broken_checkpoint
                        (Some "custom_voice") None None initial_world).2)
     = [(("custom_voice", DEFAULT_CUSTOM_VOICE_MODEL),
         Raise (ExternalError "checkpoint not found"))].
Proof. vm_compute. repeat split. Qed.

Lemma load_outcome_returns (fallback : bool)
    (before : bool * option handle * option string * option string)
    (out : string -> res (option handle)) (cands : list candidate) :
  Forall (fun c => forall e, out c.2 <> Raise e) cands ->
  exists b, (load_outcome fallback before (expected_attempts out cands)).1 = Ok b.
Proof.
  induction 1 as [| c rest Hc _ IH]; simpl; [by eexists |].
  destruct (out c.2) as [[model |] | e] eqn:Hout; simpl.
  - by eexists.
  - exact IH.
  - by destruct (Hc e).
Qed.

(** C3, amended.  A candidate whose creation yields no handle is absorbed
    (at most logged through [_debug]) and the loop goes on to the next
    candidate: the iterations of [load_model] are those of
    [expected_attempts].  As long as no creation raises, [load_model]
    returns.  (An exception raised by the constructor is not caught.) *)
Theorem load_model_absorbs_missing_handles
    (cfg : config) (os : os_env) (w : world) (mode model_id strict : option string)
    (resolved_model : string) :
  _resolve_model (_resolve_mode cfg mode) model_id = Ok resolved_model ->
  Forall (fun c => forall e, creation cfg os w c.2 <> Raise e)
    (_candidates_for_mode cfg (_resolve_mode cfg mode) resolved_model (strict_flag strict)) ->
  (exists b, (load_model cfg os mode model_id strict w).1 = Ok b)
  /\ (loaded_with w (_resolve_mode cfg mode) resolved_model
      \/ attempts (trace (load_model cfg os mode model_id strict w).2)
         = attempts (trace w)
           ++ expected_attempts (creation cfg os w)
                (_candidates_for_mode cfg (_resolve_mode cfg mode) resolved_model
                   (strict_flag strict))).
Proof.
  intros Hres Hall.
  rewrite (load_model_unfold cfg os mode model_id strict w resolved_model Hres).
  destruct (already_active w (_resolve_mode cfg mode) resolved_model) eqn:Hact.
  - split; [by exists true |]. left. by apply already_active_loaded_with.
  - destruct (load_candidates_spec cfg os
                (_candidates_for_mode cfg (_resolve_mode cfg mode) resolved_model
                   (strict_flag strict)) w) as (Hatt & Hout & _).
    split; [| by right].
    destruct (load_outcome_returns (_ALLOW_FALLBACK cfg) (lifecycle w)
                (creation cfg os w) _ Hall) as [b Hb].
    exists b. rewrite <- Hb, <- Hout. reflexivity.
Qed.

Lemma load_model_absorbs_missing_handles_witness :
  (exists b, (load_model (config_of_env env_no_model_class) env_no_model_class
                (Some "voice_clone") None (Some "1") initial_world).1 = Ok b)
  /\ (loaded_with initial_world
        (_resolve_mode (config_of_env env_no_model_class) (Some "voice_clone"))
        DEFAULT_VOICE_CLONE_MODEL
      \/ attempts (trace (load_model (config_of_env env_no_model_class) env_no_model_class
                            (Some "voice_clone") None (Some "1") initial_world).2)
         = attempts (trace initial_world)
           ++ expected_attempts
                (creation (config_of_env env_no_model_class) env_no_model_class initial_world)
                (_candidates_for_mode (config_of_env env_no_model_class)
                   (_resolve_mode (config_of_env env_no_model_class) (Some "voice_clone"))
                   DEFAULT_VOICE_CLONE_MODEL (strict_flag (Some "1")))).
Proof.
  apply (load_model_absorbs_missing_handles (config_of_env env_no_model_class)
           env_no_model_class initial_world (Some "voice_clone") None (Some "1")
           DEFAULT_VOICE_CLONE_MODEL).
  - reflexivity.
  - apply Forall_forall. intros c _ e. discriminate.
Defined.

(** ** Reachable states *)

Lemma last_loaded_snoc_missing (atts : list (candidate * res (option handle))) (c : candidate) :
  last_loaded (atts ++ [(c, Ok None)]) = last_loaded atts.
Proof. unfold last_loaded. rewrite omap_app. simpl. by rewrite app_nil_r. Qed.

Lemma last_loaded_snoc_raise (atts : list (candidate * res (option handle)))
    (c : candidate) (e : exn) :
  last_loaded (atts ++ [(c, Raise e)]) = last_loaded atts.
Proof. unfold last_loaded. rewrite omap_app. simpl. by rewrite app_nil_r. Qed.

Lemma last_loaded_snoc_model (atts : list (candidate * res (option handle)))
    (c : candidate) (model : handle) :
  last_loaded (atts ++ [(c, Ok (Some model))]) = Some (c, model).
Proof. unfold last_loaded. rewrite omap_app. simpl. apply last_snoc. Qed.

Lemma lifecycle_ok_snoc_missing lc atts c :
  lifecycle_ok lc atts -> lifecycle_ok lc (atts ++ [(c, Ok None)]).
Proof.
  destruct lc as [[[loaded [model |]] mode] model_id]; simpl; auto.
  by rewrite last_loaded_snoc_missing.
Qed.

Lemma lifecycle_ok_snoc_raise lc atts c e :
  lifecycle_ok lc atts -> lifecycle_ok lc (atts ++ [(c, Raise e)]).
Proof.
  destruct lc as [[[loaded [model |]] mode] model_id]; simpl; auto.
  by rewrite last_loaded_snoc_raise.
Qed.

Lemma load_outcome_ok (fallback : bool) (out : string -> res (option handle))
    (cands : list candidate) lc atts :
  lifecycle_ok lc atts ->
  lifecycle_ok (load_outcome fallback lc (expected_attempts out cands)).2
    (atts ++ expected_attempts out cands).
Proof.
  revert atts. induction cands as [| c rest IH]; intros atts Hok; simpl.
  - done.
  - destruct (out c.2) as [[model |] | e]; simpl.
    + split; [reflexivity |]. exists c.1, c.2. split; [reflexivity |].
      split; [reflexivity |]. rewrite last_loaded_snoc_model. by destruct c.
    + rewrite (cons_middle _ atts), app_assoc. apply IH.
      by apply lifecycle_ok_snoc_missing.
    + by apply lifecycle_ok_snoc_raise.
Qed.

Section Invariant.

Variable cfg : config.

Lemma load_model_inv (os : os_env) (mode model_id strict : option string) (w : world) :
  lifecycle_inv w -> lifecycle_inv (load_model cfg os mode model_id strict w).2.
Proof.
  intros Hinv.
  destruct (_resolve_model (_resolve_mode cfg mode) model_id) as [rm | e] eqn:Hres.
  - rewrite (load_model_unfold cfg os mode model_id strict w rm Hres).
    destruct (already_active w (_resolve_mode cfg mode) rm).
    + pose proof (debug_frame cfg MsgAlreadyLoaded w) as (_ & H2 & H3 & _).
      unfold lifecycle_inv. cbn [snd]. by rewrite H2, H3.
    + destruct (load_candidates_spec cfg os
                  (_candidates_for_mode cfg (_resolve_mode cfg mode) rm (strict_flag strict)) w)
        as (Hatt & Hout & _).
      unfold lifecycle_inv. rewrite Hatt.
      apply (f_equal snd) in Hout. cbn [snd] in Hout. rewrite Hout.
      by apply load_outcome_ok.
  - by rewrite (load_model_unresolved cfg os mode model_id strict w e Hres).
Qed.

Lemma unload_model_inv (w : world) : lifecycle_inv (unload_model w).2.
Proof. unfold lifecycle_inv. simpl. auto. Qed.

Lemma ensure_loaded_inv (os : os_env) (mode model_id : string) (w : world) :
  lifecycle_inv w -> lifecycle_inv (_ensure_loaded cfg os mode model_id w).2.
Proof.
  intros Hinv. unfold _ensure_loaded, bind at 1, get at 1.
  destruct (already_active w mode model_id); [exact Hinv |].
  by apply load_model_inv.
Qed.

Lemma step_inv (os : os_env) (o : op) (w : world) :
  lifecycle_inv w -> lifecycle_inv (step cfg os o w).
Proof.
  intros Hinv. destruct o; cbn [step].
  - by apply load_model_inv.
  - apply unload_model_inv.
  - by apply ensure_loaded_inv.
Qed.

Lemma run_inv (ops : list (os_env * op)) (w : world) :
  lifecycle_inv w -> lifecycle_inv (run cfg ops w).
Proof.
  revert w. induction ops as [| [os o] ops IH]; intros w Hinv; simpl; [done |].
  apply IH. by apply step_inv.
Qed.

End Invariant.

(** C5.  In every state reached from the initial globals by a sequence
    of [load_model], [unload_model] and [_ensure_loaded] calls, the loaded
    flag is true exactly when a handle is present; when a handle is
    present, the recorded active mode and model id are those of the
    candidate for which that handle was instantiated (the last successful
    iteration of the candidate loop); when no handle is present, no active
    mode or model id is recorded. *)
Theorem lifecycle_invariant (cfg : config) (ops : list (os_env * op)) :
  let w := run cfg ops initial_world in
  (_MODEL_LOADED w = true <-> is_Some (_QWEN_MODEL w))
  /\ (forall model, _QWEN_MODEL w = Some model ->
        exists mode model_id,
          _ACTIVE_MODE w = Some mode /\ _ACTIVE_MODEL_ID w = Some model_id
          /\ last_loaded (attempts (trace w)) = Some ((mode, model_id), model))
  /\ (_QWEN_MODEL w = None -> _ACTIVE_MODE w = None /\ _ACTIVE_MODEL_ID w = None).
Proof.
  intros w.
  assert (Hinv : lifecycle_inv w).
  { apply run_inv. unfold lifecycle_inv. simpl. auto. }
  unfold lifecycle_inv, lifecycle in Hinv.
  destruct (_QWEN_MODEL w) as [model |]; simpl in Hinv.
  - destruct Hinv as (Hloaded & m & id & Hm & Hid & Hlast).
    split; [split; eauto |]. split; [| discriminate].
    intros model' [= <-]. eauto.
  - destruct Hinv as (Hloaded & Hm & Hid).
    split; [split; [congruence | by intros [? ?]] |]. split; [discriminate | auto].
Qed.

(** ** Blank text *)

Lemma lstrip_nil (l : list ascii) : lstrip_list l = [] <-> forallb is_space l = true.
Proof.
  induction l as [| c r IH]; simpl; [tauto |].
  destruct (is_space c); simpl; [exact IH |]. split; discriminate.
Qed.

Lemma lstrip_keeps_nonspace (l : list ascii) :
  forallb is_space l = false -> lstrip_list l <> [].
Proof.
  intros H Hnil. apply lstrip_nil in Hnil. congruence.
Qed.

Lemma lstrip_suffix (l : list ascii) : exists spaces, l = spaces ++ lstrip_list l
  /\ forallb is_space spaces = true.
Proof.
  induction l as [| c r (spaces & Hr & Hs)]; simpl.
  - by exists [].
  - destruct (is_space c) eqn:Hc.
    + exists (c :: spaces). simpl. rewrite Hc, Hs. split; [by f_equal | reflexivity].
    + by exists [].
Qed.

Lemma forallb_rev (l : list ascii) : forallb is_space (rev l) = forallb is_space l.
Proof.
  induction l as [| c r IH]; simpl; [reflexivity |].
  rewrite forallb_app, IH. simpl. rewrite andb_true_r. apply andb_comm.
Qed.

Lemma py_strip_blank (s : string) : py_strip s = "" <-> whitespace_only s = true.
Proof.
  unfold py_strip, whitespace_only, rstrip_list.
  set (l := list_ascii_of_string s).
  split.
  - intros H.
    assert (Hrev : rev (lstrip_list (rev (lstrip_list l))) = []).
    { apply (f_equal list_ascii_of_string) in H.
      by rewrite list_ascii_roundtrip in H. }
    apply (f_equal (@rev ascii)) in Hrev. rewrite rev_involutive in Hrev. simpl in Hrev.
    apply lstrip_nil in Hrev. rewrite forallb_rev in Hrev.
    destruct (lstrip_suffix l) as (spaces & Hl & Hs).
    rewrite Hl, forallb_app, Hs, Hrev. reflexivity.
  - intros H. apply lstrip_nil in H. rewrite H. reflexivity.
Qed.

Lemma text_is_blank_whitespace_only (s : string) : text_is_blank s = whitespace_only s.
Proof.
  unfold text_is_blank.
  destruct (whitespace_only s) eqn:Hw.
  - apply py_strip_blank in Hw. rewrite Hw. reflexivity.
  - destruct (str_truthy (py_strip s)) eqn:Ht; [reflexivity |].
    apply str_truthy_false, py_strip_blank in Ht. congruence.
Qed.

(** C7.  Whatever the fallback configuration and the state of the
    globals, each of the three synthesis entry points called with a text
    that is empty or whitespace-only raises [ValueError] at once: the
    globals are untouched, so no model is loaded and nothing is generated.
    [synthesize_voice_clone] raises [ValueError] as well when its
    reference audio is empty. *)
Theorem synthesis_rejects_blank_text (cfg : config) (os : os_env) (w : world) (text : string) :
  whitespace_only text = true ->
  (forall instruct language sample_rate model_id,
      synthesize_voice_design cfg os text instruct language sample_rate model_id w
      = (Raise (ValueError "text must not be empty"), w))
  /\ (forall speaker instruct language sample_rate model_id,
         synthesize_custom_voice cfg os text speaker instruct language sample_rate model_id w
         = (Raise (ValueError "text must not be empty"), w))
  /\ (forall reference_audio language sample_rate model_id,
         synthesize_voice_clone cfg os text reference_audio language sample_rate model_id w
         = (Raise (ValueError "text must not be empty"), w))
  /\ (forall any_text language sample_rate model_id,
         exists msg,
           synthesize_voice_clone cfg os any_text [] language sample_rate model_id w
           = (Raise (ValueError msg), w)).
Proof.
  intros Hblank. rewrite <- text_is_blank_whitespace_only in Hblank.
  split; [| split; [| split]]; intros.
  - unfold synthesize_voice_design. by rewrite Hblank.
  - unfold synthesize_custom_voice. by rewrite Hblank.
  - unfold synthesize_voice_clone. by rewrite Hblank.
  - unfold synthesize_voice_clone.
    destruct (text_is_blank any_text); by eexists.
Qed.

Lemma synthesis_rejects_blank_text_witness :
  synthesize_voice_design (config_of_env env_fallback) env_fallback
    (String " " (String "009" (String "010" ""))) "calm" "English" 24000 "" initial_world
  = (Raise (ValueError "text must not be empty"), initial_world).
Proof.
  apply (synthesis_rejects_blank_text (config_of_env env_fallback) env_fallback initial_world
           (String " " (String "009" (String "010" "")))).
  reflexivity.
Defined.

(** ** Stripping twice *)

Lemma lstrip_idempotent (l : list ascii) : lstrip_list (lstrip_list l) = lstrip_list l.
Proof.
  induction l as [| c r IH]; simpl; [reflexivity |].
  destruct (is_space c) eqn:Hc; [exact IH |]. simpl. by rewrite Hc.
Qed.

Lemma lstrip_snoc_nonspace (l : list ascii) (c : ascii) :
  is_space c = false -> lstrip_list (l ++ [c]) = lstrip_list l ++ [c].
Proof.
  intros Hc. induction l as [| x r IH]; simpl.
  - by rewrite Hc.
  - destruct (is_space x); [exact IH | reflexivity].
Qed.

Lemma rstrip_idempotent (l : list ascii) : rstrip_list (rstrip_list l) = rstrip_list l.
Proof. unfold rstrip_list. by rewrite rev_involutive, lstrip_idempotent. Qed.

Lemma lstrip_rstrip_fixed (l : list ascii) :
  lstrip_list l = l -> lstrip_list (rstrip_list l) = rstrip_list l.
Proof.
  destruct l as [| c r]; [reflexivity |].
  simpl. destruct (is_space c) eqn:Hc.
  - intros H. exfalso.
    destruct (lstrip_suffix r) as (spaces & Hr & _).
    apply (f_equal (@length ascii)) in H.
    apply (f_equal (@length ascii)) in Hr.
    rewrite length_app in Hr. simpl in H. lia.
  - intros _. unfold rstrip_list. simpl.
    rewrite (lstrip_snoc_nonspace (rev r) c Hc), rev_app_distr. simpl. by rewrite Hc.
Qed.

Lemma py_strip_idempotent (s : string) : py_strip (py_strip s) = py_strip s.
Proof.
  unfold py_strip. rewrite list_ascii_roundtrip. f_equal.
  rewrite lstrip_rstrip_fixed by apply lstrip_idempotent.
  apply rstrip_idempotent.
Qed.

Lemma resolve_model_custom_voice_again (model_id : option string) (rm : string) :
  _resolve_model "custom_voice" model_id = Ok rm ->
  _resolve_model "custom_voice" (Some rm) = Ok rm /\ rm <> "".
Proof.
  unfold _resolve_model.
  destruct (str_truthy (py_strip (opt_or model_id ""))) eqn:Ht.
  - intros [= <-]. simpl opt_or. unfold str_or. rewrite Ht.
    rewrite py_strip_idempotent, Ht. split; [reflexivity |].
    by apply str_truthy_true.
  - intros [= <-]. split; [reflexivity | discriminate].
Qed.

(** ** Speaker enumeration *)

Lemma fold_left_same_mode (mode requested_model : string) (ids : list string)
    (acc : list candidate) :
  Forall (fun c => c.1 = mode) acc ->
  Forall (fun c => c.1 = mode)
    (fold_left (fun ordered model_id =>
                  if negb (String.eqb model_id requested_model)
                  then ordered ++ [(mode, model_id)] else ordered) ids acc).
Proof.
  revert acc. induction ids as [| id ids IH]; intros acc Hacc; simpl; [done |].
  apply IH. destruct (negb (String.eqb id requested_model)); [| done].
  apply Forall_app. split; [done |]. by constructor.
Qed.

(** A strict resolution never leaves the requested mode. *)
Lemma candidates_strict_same_mode (cfg : config) (mode requested_model : string) :
  Forall (fun c => c.1 = mode) (_candidates_for_mode cfg mode requested_model true).
Proof.
  apply Forall_forall. intros c Hc.
  unfold _candidates_for_mode in Hc. simpl negb in Hc. simpl andb in Hc. cbv iota in Hc.
  apply (proj1 (dedup_elem_of _ _)) in Hc.
  revert c Hc. apply Forall_forall, fold_left_same_mode.
  destruct (str_truthy requested_model); by repeat constructor.
Qed.

Lemma expected_attempts_models (out : string -> res (option handle))
    (cands : list candidate) (P : candidate -> Prop) :
  Forall P cands ->
  Forall (fun a => P a.1 /\ out a.1.2 = a.2) (expected_attempts out cands).
Proof.
  induction 1 as [| c rest Hc _ IH]; simpl; [constructor |].
  destruct (out c.2) as [[model |] | e] eqn:Hout; repeat constructor; auto.
Qed.

Lemma load_outcome_cases (fallback : bool)
    (before : bool * option handle * option string * option string)
    (atts : list (candidate * res (option handle))) :
  (load_outcome fallback before atts).2 = unloaded
  \/ (load_outcome fallback before atts).2 = before
     /\ (exists e, (load_outcome fallback before atts).1 = Raise e)
  \/ exists c model,
       (c, Ok (Some model)) ∈ atts
       /\ (load_outcome fallback before atts).2 = (true, Some model, Some c.1, Some c.2).
Proof.
  induction atts as [| [c [[model |] | e]] rest IH]; simpl.
  - by left.
  - right. right. exists c, model. split; [by left | reflexivity].
  - destruct IH as [H | [H | (c' & model & Hin & H)]]; [by left | by right; left |].
    right. right. exists c', model. split; [by right | exact H].
  - right. left. split; [reflexivity | by exists e].
Qed.

Section Speakers.

Variable cfg : config.
Variable os : os_env.

Lemma get_supported_speakers_unfold (mode model_id : option string) (w : world) (rm : string) :
  _resolve_mode cfg mode = "custom_voice" ->
  _resolve_model "custom_voice" model_id = Ok rm ->
  get_supported_speakers cfg os mode model_id w
  = let '(loaded, w1) := load_model cfg os (Some "custom_voice") (Some rm) (Some "1") w in
    match loaded with
    | Raise e => (Raise e, w1)
    | Ok false => (Ok [], w1)
    | Ok true =>
        match _QWEN_MODEL w1 with
        | None => (Ok [], w1)
        | Some model =>
            match supported_speakers model with
            | None => (Ok [], w1)
            | Some answer =>
                (Ok match answer with
                    | Ok speakers => filter (fun speaker => str_truthy speaker = true) speakers
                    | Raise _ => []
                    end,
                 (emit EvSpeakers w1).2)
            end
        end
    end.
Proof.
  intros Hmode Hmodel.
  unfold get_supported_speakers. cbv zeta. rewrite Hmode.
  change (negb ("custom_voice" =? "custom_voice")%string) with false. cbv iota.
  rewrite Hmodel. unfold bind at 1. unfold lift at 1. unfold bind at 1.
  destruct (load_model cfg os (Some "custom_voice") (Some rm) (Some "1") w)
    as [[[|] | e] w1]; simpl; try reflexivity.
  unfold bind, get, ret, emit.
  destruct (_QWEN_MODEL w1) as [model |] eqn:Hm; simpl; try reflexivity.
  destruct (supported_speakers model) as [[speakers | e] |]; simpl; rewrite ?Hm;
    reflexivity.
Qed.

Lemma get_supported_speakers_frame (mode model_id : option string) (w : world) (rm : string) :
  _resolve_mode cfg mode = "custom_voice" ->
  _resolve_model "custom_voice" model_id = Ok rm ->
  let after_load := (load_model cfg os (Some "custom_voice") (Some rm) (Some "1") w).2 in
  let after := (get_supported_speakers cfg os mode model_id w).2 in
  lifecycle after = lifecycle after_load
  /\ attempts (trace after) = attempts (trace after_load).
Proof.
  intros Hmode Hmodel. cbv zeta.
  rewrite (get_supported_speakers_unfold mode model_id w rm Hmode Hmodel).
  destruct (load_model cfg os (Some "custom_voice") (Some rm) (Some "1") w)
    as [[[|] | e] w1]; simpl; auto.
  destruct (_QWEN_MODEL w1) as [model |] eqn:Hmodel1; simpl; auto.
  destruct (supported_speakers model) as [answer |]; simpl; auto.
  rewrite attempts_app. simpl. rewrite app_nil_r.
  unfold lifecycle. simpl. by rewrite Hmodel1.
Qed.

End Speakers.

Lemma resolve_mode_custom_voice (cfg : config) :
  _resolve_mode cfg (Some "custom_voice") = "custom_voice".
Proof. reflexivity. Qed.

Lemma expected_attempts_head (out : string -> res (option handle)) (c : candidate)
    (rest : list candidate) :
  exists tail, expected_attempts out (c :: rest) = (c, out c.2) :: tail.
Proof.
  simpl. destruct (out c.2) as [[model |] | e]; by eexists.
Qed.

(** A caller asks for the speakers while a voice-design model is active
    and the constructor raises for the custom-voice checkpoint: the call
    raises, and the voice-design model is neither replaced nor cleared. *)
Lemma get_supported_speakers_raises_and_keeps_model :
  _resolve_mode (config_of_env env_broken_checkpoint) (Some "custom_voice") = "custom_voice"
  /\ ~ loaded_with world_voice_design "custom_voice" DEFAULT_CUSTOM_VOICE_MODEL
  /\ (get_supported_speakers (config_of_env env_broken_checkpoint) env_broken_checkpoint
        (Some "custom_voice") None world_voice_design).1
     = Raise (ExternalError "checkpoint not found")
  /\ lifecycle (get_supported_speakers (config_of_env env_broken_checkpoint)
                  env_broken_checkpoint (Some "custom_voice") None world_voice_design).2
     = (true, Some mute_model, Some "voice_design", Some DEFAULT_VOICE_DESIGN_MODEL).
Proof.
  split; [reflexivity |]. split; [intros (_ & _ & H & _); discriminate |].
  vm_compute. split; reflexivity.
Qed.

Lemma attempts_without_raise (out : string -> res (option handle)) (cands : list candidate)
    (c : candidate) (e : exn) :
  Forall (fun p => forall e', out p.2 <> Raise e') cands ->
  (c, Raise e) ∉ expected_attempts out cands.
Proof.
  intros Hall Hin.
  pose proof (expected_attempts_models out cands _ Hall) as Hatts.
  rewrite Forall_forall in Hatts. destruct (Hatts _ Hin) as [Hc Hout].
  cbn [fst snd] in Hc, Hout. by apply (Hc e).
Qed.

(** C9, amended.  [get_supported_speakers] is not a pure query.  When
    the mode resolves to [custom_voice] and the resolved pair is not the
    active one, it runs a strict [load_model]: the requested pair is
    attempted, and afterwards the lifecycle globals are those a strict
    [load_model] leaves.  As long as no constructor raises, that is:
    cleared when every candidate fails, or replaced by a custom-voice
    model instantiated during the call.  When a constructor raises, the
    exception reaches the caller and the globals are left untouched. *)
Theorem get_supported_speakers_reloads
    (cfg : config) (os : os_env) (w : world) (mode model_id : option string) (rm : string) :
  _resolve_mode cfg mode = "custom_voice" ->
  _resolve_model "custom_voice" model_id = Ok rm ->
  ~ loaded_with w "custom_voice" rm ->
  let after := (get_supported_speakers cfg os mode model_id w).2 in
  let atts :=
    expected_attempts (creation cfg os w) (_candidates_for_mode cfg "custom_voice" rm true) in
  lifecycle after
  = lifecycle (load_model cfg os (Some "custom_voice") (Some rm) (Some "1") w).2
  /\ attempts (trace after) = attempts (trace w) ++ atts
  /\ (exists tail, atts = (("custom_voice", rm), creation cfg os w rm) :: tail)
  /\ (lifecycle after = unloaded
      \/ (exists id model,
            (("custom_voice", id), Ok (Some model)) ∈ atts
            /\ lifecycle after = (true, Some model, Some "custom_voice", Some id))
      \/ (lifecycle after = lifecycle w
          /\ exists c e,
               (c, Raise e) ∈ atts
               /\ (get_supported_speakers cfg os mode model_id w).1 = Raise e))
  /\ (Forall (fun c => forall e, creation cfg os w c.2 <> Raise e)
        (_candidates_for_mode cfg "custom_voice" rm true) ->
      (exists speakers, (get_supported_speakers cfg os mode model_id w).1 = Ok speakers)
      /\ (lifecycle after = unloaded
          \/ exists id model,
               (("custom_voice", id), Ok (Some model)) ∈ atts
               /\ lifecycle after = (true, Some model, Some "custom_voice", Some id))).
Proof.
  intros Hmode Hmodel Hnot. cbv zeta.
  destruct (get_supported_speakers_frame cfg os mode model_id w rm Hmode Hmodel)
    as [Hlife Hatt].
  rewrite Hlife, Hatt.
  destruct (resolve_model_custom_voice_again model_id rm Hmodel) as [Hagain Hne].
  assert (Hload : load_model cfg os (Some "custom_voice") (Some rm) (Some "1") w
                  = load_candidates cfg os (_candidates_for_mode cfg "custom_voice" rm true) w).
  { rewrite (load_model_unfold cfg os (Some "custom_voice") (Some rm) (Some "1") w rm);
      rewrite resolve_mode_custom_voice; [| exact Hagain].
    destruct (already_active w "custom_voice" rm) eqn:Hact; [| reflexivity].
    exfalso. by apply Hnot, already_active_loaded_with. }
  pose proof (get_supported_speakers_unfold cfg os mode model_id w rm Hmode Hmodel) as Hrun.
  rewrite Hload in Hrun |- *.
  destruct (load_candidates_spec cfg os (_candidates_for_mode cfg "custom_voice" rm true) w)
    as (Hatts & Hout & _).
  set (atts := expected_attempts (creation cfg os w)
                 (_candidates_for_mode cfg "custom_voice" rm true)) in *.
  assert (Hraise : forall e,
            (load_outcome (_ALLOW_FALLBACK cfg) (lifecycle w) atts).1 = Raise e ->
            (get_supported_speakers cfg os mode model_id w).1 = Raise e).
  { intros e He. rewrite Hrun.
    destruct (load_candidates cfg os (_candidates_for_mode cfg "custom_voice" rm true) w)
      as [r w1].
    cbn [fst snd] in Hout. apply (f_equal fst) in Hout. cbn [fst] in Hout.
    rewrite He in Hout. by subst r. }
  assert (Hreturn : forall b,
            (load_outcome (_ALLOW_FALLBACK cfg) (lifecycle w) atts).1 = Ok b ->
            exists speakers, (get_supported_speakers cfg os mode model_id w).1 = Ok speakers).
  { intros b Hb. rewrite Hrun.
    destruct (load_candidates cfg os (_candidates_for_mode cfg "custom_voice" rm true) w)
      as [r w1].
    cbn [fst snd] in Hout. apply (f_equal fst) in Hout. cbn [fst] in Hout.
    rewrite Hb in Hout. subst r.
    destruct b; [| by eexists].
    destruct (_QWEN_MODEL w1) as [model |]; [| by eexists].
    destruct (supported_speakers model) as [answer |]; by eexists. }
  assert (Hcases : lifecycle
                     (load_candidates cfg os
                        (_candidates_for_mode cfg "custom_voice" rm true) w).2 = unloaded
                   \/ (exists id model,
                         (("custom_voice", id), Ok (Some model)) ∈ atts
                         /\ lifecycle
                              (load_candidates cfg os
                                 (_candidates_for_mode cfg "custom_voice" rm true) w).2
                            = (true, Some model, Some "custom_voice", Some id))
                   \/ (lifecycle
                         (load_candidates cfg os
                            (_candidates_for_mode cfg "custom_voice" rm true) w).2
                       = lifecycle w
                       /\ exists c e,
                            (c, Raise e) ∈ atts
                            /\ (get_supported_speakers cfg os mode model_id w).1 = Raise e)).
  { pose proof Hout as Hout2.
    apply (f_equal snd) in Hout2. cbn [snd] in Hout2. rewrite Hout2.
    pose proof (expected_attempts_models (creation cfg os w) _ _
                  (candidates_strict_same_mode cfg "custom_voice" rm)) as Hmodes.
    fold atts in Hmodes.
    destruct (load_outcome_cases (_ALLOW_FALLBACK cfg) (lifecycle w) atts)
      as [H | [[H [e He]] | (c & model & Hin & H)]].
    + by left.
    + right. right. split; [exact H |].
      assert (Hex : exists c, (c, Raise e) ∈ atts).
      { clear -He. induction atts as [| [c [[model |] | e']] rest IH]; simpl in He.
        - discriminate.
        - discriminate.
        - destruct (IH He) as [c' Hc']. exists c'. by right.
        - injection He as ->. exists c. by left. }
      destruct Hex as [c Hc]. exists c, e. split; [exact Hc | by apply Hraise].
    + right. left.
      rewrite Forall_forall in Hmodes. destruct (Hmodes _ Hin) as [Hc _].
      destruct c as [m id]. simpl in Hc. subst m.
      exists id, model. by split. }
  split; [reflexivity |]. split; [exact Hatts |]. split; [| split; [exact Hcases |]].
  - subst atts.
    destruct (candidates_head cfg "custom_voice" rm true Hne) as [rest ->].
    apply (expected_attempts_head (creation cfg os w) ("custom_voice", rm) rest).
  - intros Hall. split.
    + destruct (load_outcome_returns (_ALLOW_FALLBACK cfg) (lifecycle w)
                  (creation cfg os w) _ Hall) as [b Hb].
      by apply (Hreturn b).
    + destruct Hcases as [H | [H | (_ & c & e & Hin & _)]]; [by left | by right |].
      exfalso. by apply (attempts_without_raise _ _ c e Hall).
Qed.

Lemma get_supported_speakers_reloads_witness :
  lifecycle (get_supported_speakers (config_of_env env_bare) env_bare
               (Some "custom_voice") None world_voice_design).2
  = lifecycle (load_model (config_of_env env_bare) env_bare (Some "custom_voice")
                 (Some DEFAULT_CUSTOM_VOICE_MODEL) (Some "1") world_voice_design).2.
Proof.
  apply (get_supported_speakers_reloads (config_of_env env_bare) env_bare world_voice_design
           (Some "custom_voice") None DEFAULT_CUSTOM_VOICE_MODEL).
  - reflexivity.
  - reflexivity.
  - intros (_ & _ & H & _). discriminate.
Defined.

(** Asking for the speakers while a voice-design model is active, in a
    process without the runtime: the answer is the empty list, and the
    voice-design model is gone. *)
Example get_supported_speakers_drops_active_model :
  lifecycle world_voice_design
  = (true, Some mute_model, Some "voice_design", Some DEFAULT_VOICE_DESIGN_MODEL)
  /\ (get_supported_speakers (config_of_env env_bare) env_bare (Some "custom_voice") None
        world_voice_design).1 = Ok []
  /\ lifecycle (get_supported_speakers (config_of_env env_bare) env_bare
                  (Some "custom_voice") None world_voice_design).2 = unloaded.
Proof. vm_compute. repeat split. Qed.

(** ** Binary64 arithmetic *)

Lemma digits2_pos_bounds (p : positive) :
  2 ^ (Zpos (digits2_pos p) - 1) <= Zpos p < 2 ^ Zpos (digits2_pos p).
Proof.
  induction p as [p IH | p IH |]; simpl digits2_pos.
  - rewrite Pos2Z.inj_succ.
    replace (Z.succ (Zpos (digits2_pos p)) - 1) with (Z.succ (Zpos (digits2_pos p) - 1)) by lia.
    rewrite !Z.pow_succ_r by lia. lia.
  - rewrite Pos2Z.inj_succ.
    replace (Z.succ (Zpos (digits2_pos p)) - 1) with (Z.succ (Zpos (digits2_pos p) - 1)) by lia.
    rewrite !Z.pow_succ_r by lia. lia.
  - simpl. lia.
Qed.

Lemma Zdigits2_bounds (m : Z) :
  0 < m -> 2 ^ (Zdigits2 m - 1) <= m < 2 ^ Zdigits2 m.
Proof.
  destruct m as [| p | p]; try lia. intros _. apply digits2_pos_bounds.
Qed.

Lemma Zdigits2_nonneg (m : Z) : 0 <= m -> 0 <= Zdigits2 m.
Proof. destruct m; simpl; lia. Qed.

Lemma Zdigits2_le (m d : Z) : 0 <= d -> 0 <= m < 2 ^ d -> Zdigits2 m <= d.
Proof.
  intros Hd [H0 Hm].
  destruct (Z.eq_dec m 0) as [-> | Hne]; [simpl; lia |].
  destruct (Zdigits2_bounds m) as [Hlo _]; [lia |].
  destruct (Z_lt_le_dec d (Zdigits2 m)) as [Hlt | Hle]; [| exact Hle].
  exfalso.
  assert (2 ^ d <= 2 ^ (Zdigits2 m - 1)) by (apply Z.pow_le_mono_r; lia).
  lia.
Qed.

Lemma Zdigits2_eq (m d : Z) : 2 ^ (d - 1) <= m < 2 ^ d -> 0 < d -> Zdigits2 m = d.
Proof.
  intros [Hlo Hhi] Hd.
  assert (0 < m) by (pose proof (Z.pow_pos_nonneg 2 (d - 1)); lia).
  destruct (Zdigits2_bounds m) as [Hlo' Hhi']; [lia |].
  pose proof (Zdigits2_nonneg m ltac:(lia)).
  destruct (Z_lt_le_dec (Zdigits2 m) d) as [Hlt | Hle].
  - assert (2 ^ Zdigits2 m <= 2 ^ (d - 1)) by (apply Z.pow_le_mono_r; lia). lia.
  - destruct (Z_lt_le_dec d (Zdigits2 m)) as [Hlt | Hle']; [| lia].
    assert (2 ^ d <= 2 ^ (Zdigits2 m - 1)) by (apply Z.pow_le_mono_r; lia). lia.
Qed.

Lemma shr_1_spec (mrs : shr_record) :
  0 <= shr_m mrs ->
  shr_m (shr_1 mrs) = shr_m mrs / 2
  /\ (inexact (shr_1 mrs) = true -> inexact mrs = true \/ shr_m mrs mod 2 <> 0).
Proof.
  destruct mrs as [m r s]. unfold inexact. simpl. intros Hm.
  destruct m as [| [p | p |] | p]; simpl; try lia.
  - split; [reflexivity |]. intros H. left. exact H.
  - split; [rewrite Pos2Z.inj_xI; apply Z.div_unique with 1; lia |].
    intros _. right. rewrite Pos2Z.inj_xI.
    rewrite Z.add_comm, Z.mul_comm, Z.mod_add by lia. discriminate.
  - split; [rewrite Pos2Z.inj_xO; apply Z.div_unique with 0; lia |].
    intros H. left. exact H.
  - split; [reflexivity |]. intros _. right. discriminate.
Qed.

Lemma mod_mul_split (a b c : Z) :
  0 < b -> 0 < c -> a mod (b * c) = 0 -> a mod b = 0 /\ (a / b) mod c = 0.
Proof.
  intros Hb Hc H.
  apply Z.mod_divide in H; [| lia]. destruct H as [q Hq]. subst a.
  split.
  - replace (q * (b * c)) with (q * c * b) by ring. apply Z.mod_mul. lia.
  - replace (q * (b * c)) with (q * c * b) by ring. rewrite Z.div_mul by lia.
    apply Z.mod_mul. lia.
Qed.

Lemma iter_shr_1_spec (p : positive) : forall mrs : shr_record,
  0 <= shr_m mrs ->
  shr_m (SpecFloat.iter_pos shr_1 p mrs) = shr_m mrs / 2 ^ Zpos p
  /\ (inexact (SpecFloat.iter_pos shr_1 p mrs) = true ->
      inexact mrs = true \/ shr_m mrs mod 2 ^ Zpos p <> 0).
Proof.
  induction p as [p IH | p IH |]; intros mrs Hm.
  - (* 2p + 1 *)
    simpl SpecFloat.iter_pos.
    destruct (shr_1_spec mrs Hm) as [H1 E1].
    assert (Hm1 : 0 <= shr_m (shr_1 mrs)) by (rewrite H1; apply Z.div_pos; lia).
    destruct (IH _ Hm1) as [H2 E2].
    assert (Hm2 : 0 <= shr_m (SpecFloat.iter_pos shr_1 p (shr_1 mrs)))
      by (rewrite H2; apply Z.div_pos; [lia | apply Z.pow_pos_nonneg; lia]).
    destruct (IH _ Hm2) as [H3 E3].
    assert (Hpow : 2 ^ Zpos p~1 = 2 * (2 ^ Zpos p * 2 ^ Zpos p)).
    { rewrite Pos2Z.inj_xI, Z.pow_add_r, Z.pow_1_r, <- Z.pow_twice_r by lia. ring. }
    assert (Hp : 0 < 2 ^ Zpos p) by (apply Z.pow_pos_nonneg; lia).
    split.
    + rewrite H3, H2, H1, Hpow, !Z.div_div by lia. reflexivity.
    + intros Hin. destruct (E3 Hin) as [Hin2 | Hne].
      * destruct (E2 Hin2) as [Hin1 | Hne].
        -- destruct (E1 Hin1) as [? | Hne]; [by left |].
           right. intros H0. apply Hne. rewrite Hpow in H0.
           by apply mod_mul_split in H0 as [? _]; try lia.
        -- right. intros H0. apply Hne. rewrite Hpow in H0.
           apply mod_mul_split in H0 as [_ H0]; try lia.
           apply mod_mul_split in H0 as [H0 _]; try lia. by rewrite H1.
      * right. intros H0. apply Hne. rewrite Hpow in H0.
        apply mod_mul_split in H0 as [_ H0]; try lia.
        apply mod_mul_split in H0 as [_ H0]; try lia. by rewrite H2, H1.
  - (* 2p *)
    simpl SpecFloat.iter_pos.
    destruct (IH _ Hm) as [H2 E2].
    assert (Hp : 0 < 2 ^ Zpos p) by (apply Z.pow_pos_nonneg; lia).
    assert (Hm2 : 0 <= shr_m (SpecFloat.iter_pos shr_1 p mrs))
      by (rewrite H2; apply Z.div_pos; lia).
    destruct (IH _ Hm2) as [H3 E3].
    assert (Hpow : 2 ^ Zpos p~0 = 2 ^ Zpos p * 2 ^ Zpos p).
    { rewrite Pos2Z.inj_xO, <- Z.pow_twice_r. reflexivity. }
    split.
    + rewrite H3, H2, Hpow, Z.div_div by lia. reflexivity.
    + intros Hin. destruct (E3 Hin) as [Hin2 | Hne].
      * destruct (E2 Hin2) as [? | Hne]; [by left |].
        right. intros H0. apply Hne. rewrite Hpow in H0.
        by apply mod_mul_split in H0 as [? _]; try lia.
      * right. intros H0. apply Hne. rewrite Hpow in H0.
        apply mod_mul_split in H0 as [_ H0]; try lia. by rewrite H2.
  - simpl SpecFloat.iter_pos. rewrite Z.pow_1_r. by apply shr_1_spec.
Qed.

Lemma shr_spec (m e n : Z) :
  0 <= m ->
  let res := shr {| shr_m := m; shr_r := false; shr_s := false |} e n in
  shr_m res.1 = m / 2 ^ Z.max 0 n
  /\ res.2 = e + Z.max 0 n
  /\ (inexact res.1 = true -> m mod 2 ^ Z.max 0 n <> 0).
Proof.
  intros Hm. destruct n as [| p | p]; simpl.
  - rewrite Z.div_1_r. split; [reflexivity |]. split; [lia | discriminate].
  - destruct (iter_shr_1_spec p {| shr_m := m; shr_r := false; shr_s := false |} Hm)
      as [H1 H2].
    split; [exact H1 |]. split; [reflexivity |].
    intros Hin. destruct (H2 Hin) as [H | H]; [discriminate | exact H].
  - rewrite Z.div_1_r. split; [reflexivity |]. split; [lia | discriminate].
Qed.

Lemma round_nearest_even_spec (mrs : shr_record) :
  let m1 := round_nearest_even (shr_m mrs) (loc_of_shr_record mrs) in
  shr_m mrs <= m1 <= shr_m mrs + 1 /\ (inexact mrs = false -> m1 = shr_m mrs).
Proof.
  destruct mrs as [m [|] [|]]; unfold inexact; simpl;
    try destruct (Z.even m); split; try lia; try discriminate; reflexivity.
Qed.

(** The two stages of [binary_round_aux] on an exact product or integer:
    shift to the target exponent, round to nearest even, shift once more
    if the rounding carried. *)
Lemma binary_round_aux_spec (sx : bool) (P E : Z) :
  0 < P ->
  let k1 := Z.max 0 (fexp prec emax (Zdigits2 P + E) - E) in
  exists m1 : Z,
    P / 2 ^ k1 <= m1 <= P / 2 ^ k1 + 1
    /\ (P mod 2 ^ k1 = 0 -> m1 = P / 2 ^ k1)
    /\ let e1 := E + k1 in
       let k2 := Z.max 0 (fexp prec emax (Zdigits2 m1 + e1) - e1) in
       binary_round_aux prec emax sx P E loc_Exact
       = match m1 / 2 ^ k2 with
         | Z0 => S754_zero sx
         | Zpos m =>
             if e1 + k2 <=? emax - prec then S754_finite sx m (e1 + k2)
             else S754_infinity sx
         | Zneg _ => S754_nan
         end.
Proof.
  intros HP. cbv zeta.
  unfold binary_round_aux, shr_fexp. simpl shr_record_of_loc.
  destruct (shr_spec P E (fexp prec emax (Zdigits2 P + E) - E) ltac:(lia))
    as (Hm & He & Hin).
  destruct (shr {| shr_m := P; shr_r := false; shr_s := false |} E
              (fexp prec emax (Zdigits2 P + E) - E)) as [mrs1 e1] eqn:Hshr1.
  cbn [fst snd] in Hm, He, Hin. subst e1.
  destruct (round_nearest_even_spec mrs1) as [Hround Hexact]. cbv zeta in Hround, Hexact.
  set (m1 := round_nearest_even (shr_m mrs1) (loc_of_shr_record mrs1)) in *.
  exists m1. rewrite <- Hm. split; [exact Hround |]. split.
  - intros Hmod. apply Hexact.
    destruct (inexact mrs1) eqn:Hi; [| reflexivity].
    exfalso. by apply Hin.
  - assert (Hm1 : 0 <= m1).
    { assert (0 <= shr_m mrs1); [| lia].
      rewrite Hm. apply Z.div_pos; [lia | apply Z.pow_pos_nonneg; lia]. }
    set (e1 := E + Z.max 0 (fexp prec emax (Zdigits2 P + E) - E)).
    destruct (shr_spec m1 e1 (fexp prec emax (Zdigits2 m1 + e1) - e1) Hm1)
      as (Hm2 & He2 & _).
    destruct (shr {| shr_m := m1; shr_r := false; shr_s := false |} e1
                (fexp prec emax (Zdigits2 m1 + e1) - e1)) as [mrs2 e2].
    cbn [fst snd] in Hm2, He2. subst e2. rewrite Hm2. reflexivity.
Qed.

Lemma fexp_unfold (x : Z) : fexp prec emax x = Z.max (x - 53) (-1074).
Proof. reflexivity. Qed.

(** With room below the overflow threshold, the result is zero or
    finite; its mantissa is the exact one divided by [2 ^ K], rounded up
    by less than one unit. *)
Lemma binary_round_aux_finite (sx : bool) (P E : Z) :
  0 < P ->
  Z.max E (Z.max (Zdigits2 P + E - 53) (-1074)) + 1 <= 971 ->
  exists K m2 : Z,
    0 <= K
    /\ P / 2 ^ K <= m2
    /\ m2 * 2 ^ K < P + 2 ^ K
    /\ E + K <= Z.max E (Z.max (Zdigits2 P + E - 53) (-1074)) + 1
    /\ binary_round_aux prec emax sx P E loc_Exact
       = match m2 with
         | Z0 => S754_zero sx
         | Zpos m => S754_finite sx m (E + K)
         | Zneg _ => S754_nan
         end.
Proof.
  intros HP Hroom.
  destruct (binary_round_aux_spec sx P E HP) as (m1 & Hm1 & Hexact & Heq).
  cbv zeta in Heq.
  rewrite !fexp_unfold in *.
  set (d := Zdigits2 P) in *.
  set (k1 := Z.max 0 (Z.max (d + E - 53) (-1074) - E)) in *.
  set (k2 := Z.max 0 (Z.max (Zdigits2 m1 + (E + k1) - 53) (-1074) - (E + k1))) in *.
  assert (Hk1 : 0 <= k1) by lia.
  assert (Hk2 : 0 <= k2) by lia.
  assert (Hp1 : 0 < 2 ^ k1) by (apply Z.pow_pos_nonneg; lia).
  assert (Hp2 : 0 < 2 ^ k2) by (apply Z.pow_pos_nonneg; lia).
  assert (Hd : 0 <= d) by (apply Zdigits2_nonneg; lia).
  destruct (Zdigits2_bounds P HP) as [_ HPd]. fold d in HPd.
  (* the rounded mantissa has at most 54 digits *)
  assert (Hq : P / 2 ^ k1 < 2 ^ 53).
  { apply Z.div_lt_upper_bound; [lia |].
    rewrite <- Z.pow_add_r by lia.
    assert (2 ^ d <= 2 ^ (k1 + 53)) by (apply Z.pow_le_mono_r; lia). lia. }
  assert (Hq0 : 0 <= P / 2 ^ k1) by (apply Z.div_pos; lia).
  assert (Hd1 : Zdigits2 m1 <= 54).
  { apply Zdigits2_le; [lia |].
    change (2 ^ 54) with (2 * 2 ^ 53). lia. }
  assert (Hk2' : k2 <= 1) by lia.
  exists (k1 + k2), (m1 / 2 ^ k2).
  assert (Hpow : 2 ^ (k1 + k2) = 2 ^ k1 * 2 ^ k2) by (apply Z.pow_add_r; lia).
  split; [lia |]. split; [| split; [| split]].
  - rewrite Hpow, <- Z.div_div by lia. apply Z.div_le_mono; lia.
  - (* upper bound *)
    assert (Hfloor : m1 / 2 ^ k2 * 2 ^ k2 <= m1).
    { rewrite Z.mul_comm. apply Z.mul_div_le. lia. }
    assert (Hm1up : m1 * 2 ^ k1 < P + 2 ^ k1).
    { pose proof (Z.div_mod P (2 ^ k1) ltac:(lia)) as Hdm.
      pose proof (Z.mod_pos_bound P (2 ^ k1) Hp1) as Hmod.
      destruct (Z.eq_dec (P mod 2 ^ k1) 0) as [H0 | Hne].
      - rewrite (Hexact H0). nia.
      - nia. }
    rewrite Hpow.
    assert (2 ^ k1 <= 2 ^ k1 * 2 ^ k2) by nia.
    nia.
  - lia.
  - rewrite Heq. replace (E + (k1 + k2)) with (E + k1 + k2) by lia.
    destruct (m1 / 2 ^ k2) as [| m |]; try reflexivity.
    assert (Hle : E + k1 + k2 <= 971) by lia.
    apply Z.leb_le in Hle. change (emax - prec) with 971. by rewrite Hle.
Qed.

Lemma trunc_finite (s : bool) (m : positive) (e : Z) :
  e <= 0 ->
  trunc_float (S754_finite s m e)
  = Ok (if s then - (Zpos m / 2 ^ (- e)) else Zpos m / 2 ^ (- e)).
Proof.
  intros He. unfold trunc_float. by rewrite Z.shiftl_div_pow2.
Qed.

Lemma flt_finite_same_sign (s : bool) (m1 m2 : positive) (e1 e2 : Z) :
  flt (S754_finite s m1 e1) (S754_finite s m2 e2) = true ->
  if s then e2 < e1 \/ (e1 = e2 /\ Zpos m2 < Zpos m1)
  else e1 < e2 \/ (e1 = e2 /\ Zpos m1 < Zpos m2).
Proof.
  unfold flt, SFltb, SFcompare.
  change (Pos.compare_cont Eq m1 m2) with (m1 ?= m2)%positive.
  destruct s.
  - destruct (Z.compare_spec e1 e2) as [Heq | Hlt | Hgt]; try discriminate.
    + destruct (Pos.compare_spec m1 m2) as [Hm | Hm | Hm]; try discriminate.
      intros _. right. split; [exact Heq |]. by apply Pos2Z.pos_lt_pos.
    + intros _. by left.
  - destruct (Z.compare_spec e1 e2) as [Heq | Hlt | Hgt]; try discriminate.
    + destruct (Pos.compare_spec m1 m2) as [Hm | Hm | Hm]; try discriminate.
      intros _. right. split; [exact Heq |]. by apply Pos2Z.pos_lt_pos.
    + intros _. by left.
Qed.

Lemma canonical_digits (m : positive) (e : Z) :
  valid64 (S754_finite false m e) = true ->
  Zpos m < 2 ^ 53 /\ (-1074 < e -> 2 ^ 52 <= Zpos m).
Proof.
  unfold valid64, SpecFloat.valid_binary, bounded, canonical_mantissa.
  rewrite andb_true_iff, Z.eqb_eq, fexp_unfold. intros [Hcan _].
  destruct (digits2_pos_bounds m) as [Hlo Hhi].
  set (d := Zpos (digits2_pos m)) in *.
  assert (Hd : 0 < d) by (subst d; lia).
  split.
  - assert (2 ^ d <= 2 ^ 53) by (apply Z.pow_le_mono_r; lia). lia.
  - intros He. assert (Hd53 : d - 1 = 52) by lia. by rewrite Hd53 in Hlo.
Qed.

Lemma valid64_sign (s : bool) (m : positive) (e : Z) :
  valid64 (S754_finite s m e) = valid64 (S754_finite false m e).
Proof. reflexivity. Qed.

(** Strictly between -1.0 and 1.0: the exponent is at most -53. *)
Lemma small_float (s : bool) (m : positive) (e : Z) :
  valid64 (S754_finite s m e) = true ->
  flt (S754_finite s m e) f_one = true ->
  flt f_minus_one (S754_finite s m e) = true ->
  e <= -53 /\ Zpos m < 2 ^ 53.
Proof.
  rewrite valid64_sign. intros Hvalid H1 H2.
  destruct (canonical_digits m e Hvalid) as [Hm Hnormal].
  split; [| exact Hm].
  assert (Hcmp : e < -52 \/ (e = -52 /\ Zpos m < 2 ^ 52)).
  { destruct s.
    - apply (flt_finite_same_sign true) in H2. destruct H2 as [H | [H H']]; [by left |].
      right. by split.
    - apply (flt_finite_same_sign false) in H1. destruct H1 as [H | [H H']]; [by left |].
      right. by split. }
  destruct Hcmp as [H | [H H']]; [lia |].
  assert (2 ^ 52 <= Zpos m) by (apply Hnormal; lia). lia.
Qed.

Lemma f_32767_eq : f_32767 = S754_finite false 9006924376834048 (-38).
Proof. reflexivity. Qed.

Lemma scale_small (s : bool) (m : positive) (e : Z) :
  e <= -53 -> Zpos m < 2 ^ 53 ->
  exists v, trunc_float (fmul (S754_finite s m e) f_32767) = Ok v /\ -32767 <= v <= 32767.
Proof.
  intros He Hm.
  rewrite f_32767_eq.
  unfold fmul.
  unfold SFmul.
  rewrite xorb_false_r. rewrite Pos2Z.inj_mul.
  set (P := Zpos m * 9006924376834048).
  set (E := e + -38).
  assert (HP : 0 < P) by (subst P; lia).
  assert (HPd : Zdigits2 P <= 106).
  { apply Zdigits2_le; [lia |]. subst P.
    change (2 ^ 106) with (2 ^ 53 * 2 ^ 53). change (2 ^ 53) with 9007199254740992 in *. nia. }
  destruct (binary_round_aux_finite s P E HP ltac:(lia)) as (K & m2 & HK & Hlo & Hup & HE & ->).
  assert (Hm2 : 0 <= m2).
  { assert (0 <= P / 2 ^ K); [| lia]. apply Z.div_pos; [lia | apply Z.pow_pos_nonneg; lia]. }
  destruct m2 as [| p2 |]; [| | lia].
  - exists 0. simpl. split; [reflexivity | lia].
  - rewrite trunc_finite by lia.
    set (J := - (E + K)).
    assert (HJ : 0 <= J) by lia.
    assert (HpJ : 0 < 2 ^ J) by (apply Z.pow_pos_nonneg; lia).
    assert (HpK : 0 < 2 ^ K) by (apply Z.pow_pos_nonneg; lia).
    (* the exact product is at most 32767 *)
    assert (Hexact : P <= 32767 * (2 ^ J * 2 ^ K)).
    { rewrite <- Z.pow_add_r by lia. replace (J + K) with (38 + - e) by lia.
      rewrite Z.pow_add_r by lia. subst P.
      assert (2 ^ 53 <= 2 ^ (- e)) by (apply Z.pow_le_mono_r; lia).
      change (2 ^ 38) with 274877906944. nia. }
    assert (Hq : Zpos p2 / 2 ^ J <= 32767).
    { apply Z.div_le_upper_bound; [lia |].
      assert (Zpos p2 < 32767 * 2 ^ J + 1); [| lia].
      apply (Z.mul_lt_mono_pos_r (2 ^ K)); [lia |]. nia. }
    assert (Hq0 : 0 <= Zpos p2 / 2 ^ J) by (apply Z.div_pos; lia).
    eexists. split; [reflexivity |]. destruct s; lia.
Qed.

Lemma clip_cases (s : pyfloat) :
  clip s = f_one \/ clip s = f_minus_one
  \/ (clip s = s /\ flt s f_one = true /\ flt f_minus_one s = true).
Proof.
  unfold clip, py_max, py_min.
  destruct (flt s f_one) eqn:H1.
  - destruct (flt f_minus_one s) eqn:H2; auto.
  - left. reflexivity.
Qed.

(** After clipping, scaling and truncating gives a signed 16-bit value. *)
Lemma scale_clipped (s : pyfloat) :
  valid64 s = true ->
  exists v, trunc_float (fmul (clip s) f_32767) = Ok v /\ -32767 <= v <= 32767.
Proof.
  intros Hvalid.
  destruct (clip_cases s) as [-> | [-> | (-> & H1 & H2)]].
  - exists 32767. split; [reflexivity | lia].
  - exists (-32767). split; [reflexivity | lia].
  - destruct s as [sz | si | | sg m e].
    + exists 0. split; [reflexivity | lia].
    + destruct si; discriminate.
    + discriminate.
    + destruct (small_float sg m e Hvalid H1 H2) as [He Hm].
      by apply scale_small.
Qed.

Lemma shl_align_spec (p : positive) (ex ex' : Z) :
  ex' <= ex ->
  (shl_align p ex ex').2 = ex'
  /\ Zpos (shl_align p ex ex').1 = Zpos p * 2 ^ (ex - ex').
Proof.
  intros Hle. unfold shl_align.
  destruct (ex' - ex) as [| d | d] eqn:Hd; try lia; cbn [fst snd].
  - replace (ex - ex') with 0 by lia. split; lia.
  - split; [reflexivity |].
    replace (ex - ex') with (Zpos d) by lia.
    change (Pos.iter xO p d) with (shift_pos d p).
    rewrite shift_pos_correct. change (Z.pow_pos 2 d) with (2 ^ Zpos d). ring.
Qed.

(** An integer below [2 ^ 53] converts without rounding. *)
Lemma float_of_Z_exact (z : Z) :
  0 < z < 2 ^ 53 ->
  exists m e,
    float_of_Z z = Ok (S754_finite false m e)
    /\ -52 <= e <= 0
    /\ Zpos m = z * 2 ^ (- e)
    /\ 2 ^ 52 <= Zpos m < 2 ^ 53.
Proof.
  intros [Hz0 Hz].
  destruct z as [| p | p]; try lia.
  unfold float_of_Z, binary_normalize, binary_round.
  destruct (digits2_pos_bounds p) as [Hlo Hhi].
  set (d := Zpos (digits2_pos p)) in *.
  assert (Hd0 : 0 < d) by (subst d; lia).
  assert (Hd : d <= 53).
  { pose proof (Zdigits2_le (Zpos p) 53 ltac:(lia) ltac:(lia)) as H. exact H. }
  rewrite fexp_unfold.
  replace (Z.max (d + 0 - 53) (-1074)) with (d - 53) by lia.
  destruct (shl_align_spec p 0 (d - 53) ltac:(lia)) as [Hez Hmz].
  destruct (shl_align p 0 (d - 53)) as [mz ez]. cbn [fst snd] in Hez, Hmz. subst ez.
  replace (0 - (d - 53)) with (53 - d) in Hmz by lia.
  assert (Hrange : 2 ^ 52 <= Zpos mz < 2 ^ 53).
  { rewrite Hmz.
    assert (H52 : 2 ^ 52 = 2 ^ (d - 1) * 2 ^ (53 - d))
      by (rewrite <- Z.pow_add_r by lia; f_equal; lia).
    assert (H53 : 2 ^ 53 = 2 ^ d * 2 ^ (53 - d))
      by (rewrite <- Z.pow_add_r by lia; f_equal; lia).
    assert (0 < 2 ^ (53 - d)) by (apply Z.pow_pos_nonneg; lia).
    rewrite H52, H53.
    split; [apply Z.mul_le_mono_nonneg_r; lia | apply Z.mul_lt_mono_pos_r; lia]. }
  assert (Hdig : Zdigits2 (Zpos mz) = 53) by (apply Zdigits2_eq; [exact Hrange | lia]).
  destruct (binary_round_aux_spec false (Zpos mz) (d - 53) ltac:(lia))
    as (m1 & Hm1 & Hexact & Heq).
  cbv zeta in Heq. rewrite Hdig, !fexp_unfold in *.
  replace (Z.max 0 (Z.max (53 + (d - 53) - 53) (-1074) - (d - 53))) with 0 in * by lia.
  rewrite Z.pow_0_r, Z.div_1_r in *.
  rewrite (Hexact (Z.mod_1_r _)) in Heq. rewrite Hdig in Heq.
  replace (d - 53 + 0) with (d - 53) in Heq by lia.
  replace (Z.max 0 (Z.max (53 + (d - 53) - 53) (-1074) - (d - 53))) with 0 in Heq by lia.
  rewrite Z.pow_0_r, Z.div_1_r in Heq.
  rewrite Heq.
  assert (Hle : d - 53 + 0 <= 971) by lia. apply Z.leb_le in Hle.
  change (emax - prec) with 971. rewrite Hle.
  exists mz, (d - 53). replace (d - 53 + 0) with (d - 53) by lia.
  split; [reflexivity |]. split; [lia |]. split; [| exact Hrange].
  rewrite Hmz. f_equal. f_equal. lia.
Qed.

Lemma f_0_35_eq : f_0_35 = S754_finite false 6305039478318694 (-54).
Proof. reflexivity. Qed.

(** [int(sample_rate * 0.35)] for a sample rate below [2 ^ 31]: the
    exact product with the binary64 nearest to 0.35, rounded down, or one
    more. *)
Lemma silent_frames (sample_rate : Z) :
  0 < sample_rate < 2 ^ 31 ->
  exists n,
    (let? rate := float_of_Z sample_rate in trunc_float (fmul rate f_0_35)) = Ok n
    /\ sample_rate * 6305039478318694 / 2 ^ 54 <= n
       <= sample_rate * 6305039478318694 / 2 ^ 54 + 1.
Proof.
  intros Hsr.
  destruct (float_of_Z_exact sample_rate) as (m & e & -> & He & Hm & Hrange).
  { assert (2 ^ 31 < 2 ^ 53) by (apply Z.pow_lt_mono_r; lia). lia. }
  cbn [res_bind]. rewrite f_0_35_eq. unfold fmul, SFmul. cbn [xorb].
  rewrite Pos2Z.inj_mul.
  set (M := 6305039478318694).
  set (P := Zpos m * M). set (E := e + -54).
  assert (HP : 0 < P) by (subst P M; lia).
  assert (HPd : Zdigits2 P <= 106).
  { apply Zdigits2_le; [lia |]. subst P M.
    change (2 ^ 106) with (2 ^ 53 * 2 ^ 53).
    assert (6305039478318694 < 2 ^ 53) by reflexivity.
    assert (0 < 2 ^ 53) by reflexivity. nia. }
  destruct (binary_round_aux_finite false P E HP ltac:(lia))
    as (K & m2 & HK & Hlo & Hup & HE & ->).
  assert (HpK : 0 < 2 ^ K) by (apply Z.pow_pos_nonneg; lia).
  assert (Hm2 : 0 <= m2).
  { assert (0 <= P / 2 ^ K); [| lia]. apply Z.div_pos; lia. }
  set (J := - (E + K)).
  assert (HJ : 0 <= J) by lia.
  assert (HpJ : 0 < 2 ^ J) by (apply Z.pow_pos_nonneg; lia).
  assert (Hpe : 0 < 2 ^ (- e)) by (apply Z.pow_pos_nonneg; lia).
  (* the exact quotient, in terms of the sample rate *)
  assert (Hquot : P / (2 ^ K * 2 ^ J) = sample_rate * M / 2 ^ 54).
  { rewrite <- Z.pow_add_r by lia. replace (K + J) with (- e + 54) by lia.
    rewrite Z.pow_add_r by lia. subst P. rewrite Hm.
    replace (sample_rate * 2 ^ (- e) * M) with (sample_rate * M * 2 ^ (- e)) by ring.
    rewrite (Z.mul_comm (2 ^ (- e)) (2 ^ 54)).
    apply Z.div_mul_cancel_r; lia. }
  assert (Hn : sample_rate * M / 2 ^ 54 <= m2 / 2 ^ J <= sample_rate * M / 2 ^ 54 + 1).
  { rewrite <- Hquot. split.
    - rewrite <- Z.div_div by lia. apply Z.div_le_mono; lia.
    - assert (Hfl : m2 / 2 ^ J * 2 ^ J <= m2) by (rewrite Z.mul_comm; apply Z.mul_div_le; lia).
      assert (H2K : 2 ^ K <= 2 ^ K * 2 ^ J) by nia.
      assert (Hlt : (m2 / 2 ^ J - 1) * (2 ^ K * 2 ^ J) < P) by nia.
      assert (Hle : m2 / 2 ^ J - 1 <= P / (2 ^ K * 2 ^ J)).
      { apply Z.div_le_lower_bound; [nia |]. rewrite Z.mul_comm. lia. }
      lia. }
  destruct m2 as [| p2 |]; [| | lia].
  - exists 0. split; [reflexivity |]. rewrite Z.div_0_l in Hn by lia. exact Hn.
  - rewrite trunc_finite by lia. fold J. eexists. split; [reflexivity | exact Hn].
Qed.

(** ** The WAV container *)

Lemma pack_L_ok (v : Z) : 0 <= v < 4294967296 -> pack_L v = Ok (le_bytes 4 v).
Proof.
  intros [H0 H1]. unfold pack_L.
  apply Z.leb_le in H0. apply Z.ltb_lt in H1. by rewrite H0, H1.
Qed.

Lemma pack_H_ok (v : Z) : 0 <= v < 65536 -> pack_H v = Ok (le_bytes 2 v).
Proof.
  intros [H0 H1]. unfold pack_H.
  apply Z.leb_le in H0. apply Z.ltb_lt in H1. by rewrite H0, H1.
Qed.

Lemma pack_h_ok (v : Z) : -32768 <= v <= 32767 -> pack_h v = Ok (le_bytes 2 v).
Proof.
  intros [H0 H1]. unfold pack_h.
  apply Z.leb_le in H0. apply Z.leb_le in H1. by rewrite H0, H1.
Qed.

Lemma riff_header_length (framerate datalength : Z) :
  length (riff_header framerate datalength) = 44%nat.
Proof. reflexivity. Qed.

Lemma wave_write_mono16 (framerate : Z) (pcm : bytes) :
  0 < framerate < 2 ^ 31 ->
  36 + Z.of_nat (length pcm) < 2 ^ 32 ->
  wave_write 1 2 framerate pcm = Ok (riff_header framerate (Z.of_nat (length pcm)) ++ pcm).
Proof.
  intros Hrate Hlen. unfold wave_write, wave_header.
  change (2 ^ 31) with 2147483648 in Hrate. change (2 ^ 32) with 4294967296 in Hlen.
  assert (Hpos : (framerate <=? 0) = false) by (apply Z.leb_gt; lia).
  rewrite Hpos.
  rewrite (pack_L_ok (36 + Z.of_nat (length pcm))) by lia.
  rewrite (pack_L_ok 16) by lia.
  rewrite (pack_H_ok 1) by lia.
  rewrite (pack_L_ok framerate) by lia.
  rewrite (pack_L_ok (1 * framerate * 2)) by lia.
  rewrite (pack_H_ok (1 * 2)) by lia.
  rewrite (pack_H_ok (2 * 8)) by lia.
  rewrite (pack_L_ok (Z.of_nat (length pcm))) by lia.
  cbn [res_bind]. unfold riff_header.
  replace (1 * framerate * 2) with (2 * framerate) by lia.
  reflexivity.
Qed.

(** ** Encoding samples *)

(** The sample 0.5 scales to 16383.5: the runner stores 16383 (bytes
    [ff 3f]) where rounding gives 16384 (bytes [00 40]). *)
Lemma to_wav_bytes_does_not_round :
  round_float (fmul (clip (fl 0.5)) f_32767) = Ok 16384
  /\ trunc_float (fmul (clip (fl 0.5)) f_32767) = Ok 16383
  /\ _to_wav_bytes (PyList [PyFloat (fl 0.5)]) 24000
     = Ok (riff_header 24000 2 ++ [xff; x3f])
  /\ spec_toWav [fl 0.5] 24000 = Ok (riff_header 24000 2 ++ [x00; x40])
  /\ _to_wav_bytes (PyList [PyFloat (fl 0.5)]) 24000 <> spec_toWav [fl 0.5] 24000.
Proof. vm_compute. repeat split. discriminate. Qed.

Lemma pack_samples_clipped (flat : list pyfloat) :
  Forall (fun s => valid64 s = true) flat ->
  exists values,
    Forall2 (fun s v => trunc_float (fmul (clip s) f_32767) = Ok v /\ -32767 <= v <= 32767)
      flat values
    /\ res_mapM pack_sample (map clip flat) = Ok (map (le_bytes 2) values).
Proof.
  induction 1 as [| s rest Hs _ (values & Hall & Hmap)].
  - exists []. split; [constructor | reflexivity].
  - destruct (scale_clipped s Hs) as (v & Hv & Hrange).
    exists (v :: values). split; [by constructor |].
    cbn [map res_mapM]. unfold pack_sample at 1. rewrite Hv. cbn [res_bind].
    rewrite pack_h_ok by lia. cbn [res_bind]. rewrite Hmap. reflexivity.
Qed.

Lemma length_concat_le_bytes (values : list Z) :
  length (concat (map (le_bytes 2) values)) = (2 * length values)%nat.
Proof.
  induction values as [| v rest IH]; [reflexivity |].
  cbn [map concat]. rewrite length_app, IH. simpl. lia.
Qed.

(** C6, amended.  [_to_wav_bytes] flattens its argument, clips each
    sample to [-1.0, 1.0] (a sample that is not below 1.0 becomes 1.0, one
    that is not above -1.0 becomes -1.0), scales each clipped sample to the
    signed 16-bit range by truncation toward zero, [int(sample * 32767.0)],
    and packs the values little-endian behind the header of a mono 16-bit
    PCM WAV file at the given sample rate. *)
Theorem to_wav_bytes_clips_and_truncates
    (samples : pyval) (flat : list pyfloat) (sample_rate : Z) :
  _flatten_numeric_samples samples = Ok flat ->
  Forall (fun s => valid64 s = true) flat ->
  0 < sample_rate < 2 ^ 31 ->
  36 + 2 * Z.of_nat (length flat) < 2 ^ 32 ->
  exists values,
    Forall2 (fun s v => trunc_float (fmul (clip s) f_32767) = Ok v /\ -32767 <= v <= 32767)
      flat values
    /\ Forall (fun s => clip s = f_one \/ clip s = f_minus_one
                        \/ (clip s = s /\ flt s f_one = true /\ flt f_minus_one s = true))
         flat
    /\ _to_wav_bytes samples sample_rate
       = Ok (riff_header sample_rate (2 * Z.of_nat (length flat))
               ++ concat (map (le_bytes 2) values)).
Proof.
  intros Hflat Hvalid Hrate Hlen.
  destruct (pack_samples_clipped flat Hvalid) as (values & Hall & Hmap).
  exists values. split; [exact Hall |]. split.
  - apply Forall_forall. intros s _. apply clip_cases.
  - unfold _to_wav_bytes. rewrite Hflat. cbn [res_bind]. rewrite Hmap. cbn [res_bind].
    assert (Hl : Z.of_nat (length (concat (map (le_bytes 2) values)))
                 = 2 * Z.of_nat (length flat)).
    { rewrite length_concat_le_bytes, <- (Forall2_length _ _ _ Hall). lia. }
    rewrite wave_write_mono16; [by rewrite Hl | exact Hrate | by rewrite Hl].
Qed.

Lemma to_wav_bytes_clips_and_truncates_witness :
  exists values,
    Forall2 (fun s v => trunc_float (fmul (clip s) f_32767) = Ok v /\ -32767 <= v <= 32767)
      [fl 1.5; fl (-2); fl 0.5] values
    /\ Forall (fun s => clip s = f_one \/ clip s = f_minus_one
                        \/ (clip s = s /\ flt s f_one = true /\ flt f_minus_one s = true))
         [fl 1.5; fl (-2); fl 0.5]
    /\ _to_wav_bytes (PyTuple [PyList [PyFloat (fl 1.5); PyFloat (fl (-2))]; PyFloat (fl 0.5)])
         16000
       = Ok (riff_header 16000 (2 * Z.of_nat (length [fl 1.5; fl (-2); fl 0.5]))
               ++ concat (map (le_bytes 2) values)).
Proof.
  apply (to_wav_bytes_clips_and_truncates
           (PyTuple [PyList [PyFloat (fl 1.5); PyFloat (fl (-2))]; PyFloat (fl 0.5)])
           [fl 1.5; fl (-2); fl 0.5] 16000).
  - reflexivity.
  - repeat constructor.
  - split; reflexivity.
  - reflexivity.
Defined.

(** Clipping and scaling on the two samples of the specification. *)
Example to_wav_bytes_clips_out_of_range :
  clip (fl 1.5) = fl 1 /\ clip (fl (-2)) = fl (-1)
  /\ _to_wav_bytes (PyList [PyFloat (fl 1.5); PyFloat (fl (-2))]) 8000
     = Ok (riff_header 8000 4 ++ [xff; x7f; x01; x80]).
Proof. vm_compute. repeat split. Qed.

(** ** The two runners *)

(** C10.  The audio helpers of the single-mode runner return, on every
    input, what the helpers of the same name in the multi-mode runner
    return. *)
Theorem bridge_helpers_agree :
  (forall sample_rate seconds,
      TTMPythonBridge._silent_wav sample_rate seconds
      = TTMService._silent_wav sample_rate seconds)
  /\ (forall data,
         TTMPythonBridge._flatten_numeric_samples data
         = TTMService._flatten_numeric_samples data)
  /\ (forall samples sample_rate,
         TTMPythonBridge._to_wav_bytes samples sample_rate
         = TTMService._to_wav_bytes samples sample_rate)
  /\ (forall data,
         TTMPythonBridge._normalize_samples data = TTMService._normalize_samples data)
  /\ (forall output default_sample_rate,
         TTMPythonBridge._extract_audio_and_sample_rate output default_sample_rate
         = TTMService._extract_audio_and_sample_rate output default_sample_rate).
Proof.
  assert (Hflat : forall data,
             TTMPythonBridge._flatten_numeric_samples data
             = TTMService._flatten_numeric_samples data) by reflexivity.
  split; [reflexivity |]. split; [exact Hflat |]. split; [| split; reflexivity].
  intros samples sample_rate.
  unfold TTMPythonBridge._to_wav_bytes, TTMService._to_wav_bytes.
  rewrite Hflat. reflexivity.
Qed.

(** ** Silence *)

Lemma zero_frames_length (n : Z) : length (zero_frames n) = (2 * Z.to_nat n)%nat.
Proof.
  unfold zero_frames. induction (Z.to_nat n) as [| k IH]; simpl; [reflexivity |].
  simpl in IH. rewrite IH. lia.
Qed.

Lemma zero_frames_zero (n : Z) : Forall (fun b => b = x00) (zero_frames n).
Proof.
  unfold zero_frames. induction (Z.to_nat n) as [| k IH]; simpl; [constructor |].
  by repeat constructor.
Qed.

(** [_silent_wav] at a sample rate below [2 ^ 31]: the header of a mono
    16-bit file and [max(1, int(sample_rate * 0.35))] zero frames, a
    count within one frame of 0.35 seconds. *)
Lemma silent_wav_spec (sample_rate : Z) :
  0 < sample_rate < 2 ^ 31 ->
  exists frames,
    (let? rate := float_of_Z sample_rate in
     let? n := trunc_float (fmul rate f_0_35) in
     Ok (Z.max 1 n)) = Ok frames
    /\ 1 <= frames
    /\ 7 * sample_rate - 20 <= 20 * frames <= 7 * sample_rate + 20
    /\ _silent_wav sample_rate f_0_35
       = Ok (riff_header sample_rate (2 * frames) ++ zero_frames frames).
Proof.
  intros Hsr.
  destruct (silent_frames sample_rate Hsr) as (n & Hn & Hlo & Hhi).
  unfold _silent_wav.
  destruct (float_of_Z sample_rate) as [rate | e]; [| discriminate].
  cbn [res_bind] in *. rewrite Hn. cbn [res_bind].
  exists (Z.max 1 n).
  change (2 ^ 31) with 2147483648 in Hsr.
  change (2 ^ 54) with 18014398509481984 in Hlo, Hhi.
  set (q := sample_rate * 6305039478318694 / 18014398509481984) in *.
  assert (Hq : 18014398509481984 * q <= sample_rate * 6305039478318694
               < 18014398509481984 * (q + 1)).
  { pose proof (Z.div_mod (sample_rate * 6305039478318694) 18014398509481984 ltac:(lia)).
    pose proof (Z.mod_pos_bound (sample_rate * 6305039478318694) 18014398509481984
                  ltac:(lia)).
    subst q. lia. }
  split; [reflexivity |]. split; [lia |]. split; [lia |].
  rewrite wave_write_mono16.
  - rewrite zero_frames_length. f_equal. f_equal. f_equal. lia.
  - change (2 ^ 31) with 2147483648. lia.
  - rewrite zero_frames_length. change (2 ^ 32) with 4294967296. lia.
Qed.

Lemma load_outcome_value (fallback : bool)
    (before : bool * option handle * option string * option string)
    (atts : list (candidate * res (option handle))) (b : bool) :
  (load_outcome fallback before atts).1 = Ok b -> b = true \/ b = fallback.
Proof.
  induction atts as [| [c [[model |] | e]] rest IH]; simpl.
  - intros [= <-]. by right.
  - intros [= <-]. by left.
  - exact IH.
  - discriminate.
Qed.

Lemma resolve_model_again (mode : string) (model_id : option string) (rm : string) :
  mode = "voice_design" \/ mode = "custom_voice" \/ mode = "voice_clone" ->
  _resolve_model mode model_id = Ok rm ->
  _resolve_model mode (Some rm) = Ok rm /\ rm <> "".
Proof.
  intros Hmode. unfold _resolve_model.
  destruct (str_truthy (py_strip (opt_or model_id ""))) eqn:Ht.
  - intros [= <-]. simpl opt_or. unfold str_or. rewrite Ht.
    rewrite py_strip_idempotent, Ht. split; [reflexivity |].
    by apply str_truthy_true.
  - destruct Hmode as [-> | [-> | ->]]; intros [= <-]; split; first [reflexivity | discriminate].
Qed.

Section Fallback.

Variable cfg : config.
Variable os : os_env.

Lemma ensure_loaded_unfold (mode model_id : string) (w : world) :
  _ensure_loaded cfg os mode model_id w
  = if already_active w mode model_id then (Ok true, w)
    else load_model cfg os (Some mode) (Some model_id) (Some "0") w.
Proof.
  unfold _ensure_loaded, bind, get. by destruct (already_active w mode model_id).
Qed.

Lemma load_model_value (mode model_id strict : option string) (w : world) (b : bool) :
  (load_model cfg os mode model_id strict w).1 = Ok b ->
  b = true \/ b = _ALLOW_FALLBACK cfg.
Proof.
  destruct (_resolve_model (_resolve_mode cfg mode) model_id) as [rm | e] eqn:Hres.
  - rewrite (load_model_unfold cfg os mode model_id strict w rm Hres).
    destruct (already_active w (_resolve_mode cfg mode) rm).
    + intros [= <-]. by left.
    + destruct (load_candidates_spec cfg os
                  (_candidates_for_mode cfg (_resolve_mode cfg mode) rm (strict_flag strict)) w)
        as (_ & Hout & _).
      apply (f_equal fst) in Hout. cbn [fst] in Hout. rewrite Hout.
      apply load_outcome_value.
  - rewrite (load_model_unresolved cfg os mode model_id strict w e Hres). discriminate.
Qed.

Lemma ensure_loaded_value (mode model_id : string) (w : world) (b : bool) :
  (_ensure_loaded cfg os mode model_id w).1 = Ok b ->
  b = true \/ b = _ALLOW_FALLBACK cfg.
Proof.
  rewrite ensure_loaded_unfold. destruct (already_active w mode model_id).
  - intros [= <-]. by left.
  - apply load_model_value.
Qed.

Lemma ensure_loaded_unloadable (mode rm : string) (w : world) :
  _resolve_mode cfg (Some mode) = mode ->
  _resolve_model mode (Some rm) = Ok rm ->
  ~ loaded_with w mode rm ->
  Forall (fun c => creation cfg os w c.2 = Ok None) (_candidates_for_mode cfg mode rm false) ->
  (_ensure_loaded cfg os mode rm w).1 = Ok (_ALLOW_FALLBACK cfg)
  /\ _QWEN_MODEL (_ensure_loaded cfg os mode rm w).2 = None.
Proof.
  intros Hmode Hmodel Hnot Hall.
  rewrite ensure_loaded_unfold.
  destruct (already_active w mode rm) eqn:Hact.
  { exfalso. by apply Hnot, already_active_loaded_with. }
  rewrite (load_model_unfold cfg os (Some mode) (Some rm) (Some "0") w rm);
    rewrite Hmode; [| exact Hmodel].
  rewrite Hact. change (strict_flag (Some "0")) with false.
  destruct (load_candidates_spec cfg os (_candidates_for_mode cfg mode rm false) w)
    as (_ & Hout & _).
  rewrite (expected_attempts_all_missing _ _ Hall), load_outcome_all_missing in Hout.
  apply pair_equal_spec in Hout as [H1 H2].
  split; [exact H1 |]. unfold lifecycle, unloaded in H2. by injection H2.
Qed.

(** The three entry points after validation, when loading returns and
    the generator yields no audio. *)
Lemma synthesize_voice_design_no_audio (text instruct language : string) (sample_rate : Z)
    (model_id rm : string) (loaded : bool) (w w1 w2 : world) :
  _ALLOW_FALLBACK cfg = true ->
  whitespace_only text = false ->
  _resolve_model "voice_design" (Some model_id) = Ok rm ->
  _ensure_loaded cfg os "voice_design" rm w = (Ok loaded, w1) ->
  _generate_voice_design text (str_or instruct "") (str_or language (DEFAULT_LANGUAGE cfg)) w1
  = (Ok None, w2) ->
  synthesize_voice_design cfg os text instruct language sample_rate model_id w
  = (_silent_wav sample_rate f_0_35, w2).
Proof.
  intros Hfb Htext Hres Hload Hgen.
  unfold synthesize_voice_design.
  rewrite text_is_blank_whitespace_only, Htext. cbv zeta. rewrite Hres.
  unfold bind at 1. unfold lift at 1. unfold bind at 1. rewrite Hload.
  assert (Hb : loaded = true).
  { destruct (ensure_loaded_value "voice_design" rm w loaded) as [H | H];
      [by rewrite Hload | exact H | by rewrite H, Hfb]. }
  subst loaded. cbn [negb]. unfold bind at 1. rewrite Hgen, Hfb. reflexivity.
Qed.

Lemma synthesize_custom_voice_no_audio (text speaker instruct language : string)
    (sample_rate : Z) (model_id rm : string) (loaded : bool) (w w1 w2 : world) :
  _ALLOW_FALLBACK cfg = true ->
  whitespace_only text = false ->
  _resolve_model "custom_voice" (Some model_id) = Ok rm ->
  _ensure_loaded cfg os "custom_voice" rm w = (Ok loaded, w1) ->
  _generate_custom_voice cfg text (str_or speaker (DEFAULT_SPEAKER cfg)) instruct
    (str_or language (DEFAULT_LANGUAGE cfg)) w1 = (Ok None, w2) ->
  synthesize_custom_voice cfg os text speaker instruct language sample_rate model_id w
  = (_silent_wav sample_rate f_0_35, w2).
Proof.
  intros Hfb Htext Hres Hload Hgen.
  unfold synthesize_custom_voice.
  rewrite text_is_blank_whitespace_only, Htext. cbv zeta. rewrite Hres.
  unfold bind at 1. unfold lift at 1. unfold bind at 1. rewrite Hload.
  assert (Hb : loaded = true).
  { destruct (ensure_loaded_value "custom_voice" rm w loaded) as [H | H];
      [by rewrite Hload | exact H | by rewrite H, Hfb]. }
  subst loaded. cbn [negb]. unfold bind at 1. rewrite Hgen, Hfb. reflexivity.
Qed.

Lemma synthesize_voice_clone_no_audio (text : string) (reference_audio : bytes)
    (language : string) (sample_rate : Z) (model_id rm : string) (loaded : bool)
    (w w1 w2 : world) :
  _ALLOW_FALLBACK cfg = true ->
  whitespace_only text = false ->
  reference_audio <> [] ->
  _resolve_model "voice_clone" (Some model_id) = Ok rm ->
  _ensure_loaded cfg os "voice_clone" rm w = (Ok loaded, w1) ->
  _generate_voice_clone os text reference_audio (str_or language (DEFAULT_LANGUAGE cfg)) w1
  = (Ok None, w2) ->
  synthesize_voice_clone cfg os text reference_audio language sample_rate model_id w
  = (_silent_wav sample_rate f_0_35, w2).
Proof.
  intros Hfb Htext Href Hres Hload Hgen.
  unfold synthesize_voice_clone.
  rewrite text_is_blank_whitespace_only, Htext.
  destruct reference_audio as [| b0 rest]; [done |].
  cbv zeta. rewrite Hres.
  unfold bind at 1. unfold lift at 1. unfold bind at 1. rewrite Hload.
  assert (Hb : loaded = true).
  { destruct (ensure_loaded_value "voice_clone" rm w loaded) as [H | H];
      [by rewrite Hload | exact H | by rewrite H, Hfb]. }
  subst loaded. cbn [negb]. unfold bind at 1. rewrite Hgen, Hfb. reflexivity.
Qed.

End Fallback.

Lemma generate_voice_design_without_model (text instruct language : string) (w : world) :
  _QWEN_MODEL w = None -> _generate_voice_design text instruct language w = (Ok None, w).
Proof. intros H. unfold _generate_voice_design, bind, get. by rewrite H. Qed.

Lemma generate_custom_voice_without_model (cfg : config)
    (text speaker instruct language : string) (w : world) :
  _QWEN_MODEL w = None ->
  _generate_custom_voice cfg text speaker instruct language w = (Ok None, w).
Proof. intros H. unfold _generate_custom_voice, bind, get. by rewrite H. Qed.

Lemma generate_voice_clone_without_model (os : os_env) (text : string)
    (reference_audio : bytes) (language : string) (w : world) :
  _QWEN_MODEL w = None ->
  _generate_voice_clone os text reference_audio language w = (Ok None, w).
Proof. intros H. unfold _generate_voice_clone, bind, get. by rewrite H. Qed.

(** With fallback allowed, an exception still reaches the caller: when
    the constructor raises, or when the generator of a loaded model raises,
    [synthesize_voice_design] raises that exception and returns no
    silence. *)
Lemma synthesis_raises_despite_fallback :
  _ALLOW_FALLBACK (config_of_env env_fallback_broken) = true
  /\ whitespace_only "hello" = false
  /\ (synthesize_voice_design (config_of_env env_fallback_broken) env_fallback_broken
        "hello" "" "" 24000 "" initial_world).1
     = Raise (ExternalError "checkpoint not found")
  /\ (synthesize_voice_design (config_of_env env_fallback_broken) env_fallback_broken
        "hello" "" "" 24000 "" world_crashing).1
     = Raise (RuntimeError "CUDA out of memory").
Proof. vm_compute. repeat split. Qed.

Section Unloadable.

Variable cfg : config.
Variable os : os_env.

Lemma synthesize_custom_voice_unloadable (text speaker instruct language : string)
    (sample_rate : Z) (model_id rm : string) (w : world) :
  _ALLOW_FALLBACK cfg = true ->
  whitespace_only text = false ->
  _resolve_model "custom_voice" (Some model_id) = Ok rm ->
  ~ loaded_with w "custom_voice" rm ->
  Forall (fun c => creation cfg os w c.2 = Ok None)
    (_candidates_for_mode cfg "custom_voice" rm false) ->
  (synthesize_custom_voice cfg os text speaker instruct language sample_rate model_id w).1
  = _silent_wav sample_rate f_0_35.
Proof.
  intros Hfb Htext Hres Hnot Hall.
  destruct (resolve_model_again "custom_voice" (Some model_id) rm) as [Hagain _];
    [by right; left | exact Hres |].
  destruct (ensure_loaded_unloadable cfg os "custom_voice" rm w) as [Hb Hnone];
    [reflexivity | exact Hagain | exact Hnot | exact Hall |].
  destruct (_ensure_loaded cfg os "custom_voice" rm w) as [r w1] eqn:Hload.
  cbn [fst snd] in Hb, Hnone. subst r.
  rewrite (synthesize_custom_voice_no_audio cfg os text speaker instruct language sample_rate
             model_id rm (_ALLOW_FALLBACK cfg) w w1 w1 Hfb Htext Hres Hload).
  - reflexivity.
  - by apply generate_custom_voice_without_model.
Qed.

Lemma synthesize_voice_clone_unloadable (text : string) (reference_audio : bytes)
    (language : string) (sample_rate : Z) (model_id rm : string) (w : world) :
  _ALLOW_FALLBACK cfg = true ->
  whitespace_only text = false ->
  reference_audio <> [] ->
  _resolve_model "voice_clone" (Some model_id) = Ok rm ->
  ~ loaded_with w "voice_clone" rm ->
  Forall (fun c => creation cfg os w c.2 = Ok None)
    (_candidates_for_mode cfg "voice_clone" rm false) ->
  (synthesize_voice_clone cfg os text reference_audio language sample_rate model_id w).1
  = _silent_wav sample_rate f_0_35.
Proof.
  intros Hfb Htext Href Hres Hnot Hall.
  destruct (resolve_model_again "voice_clone" (Some model_id) rm) as [Hagain _];
    [by right; right | exact Hres |].
  destruct (ensure_loaded_unloadable cfg os "voice_clone" rm w) as [Hb Hnone];
    [reflexivity | exact Hagain | exact Hnot | exact Hall |].
  destruct (_ensure_loaded cfg os "voice_clone" rm w) as [r w1] eqn:Hload.
  cbn [fst snd] in Hb, Hnone. subst r.
  rewrite (synthesize_voice_clone_no_audio cfg os text reference_audio language sample_rate
             model_id rm (_ALLOW_FALLBACK cfg) w w1 w1 Hfb Htext Href Hres Hload).
  - reflexivity.
  - by apply generate_voice_clone_without_model.
Qed.

End Unloadable.

(** C8, amended.  With fallback enabled, a text that is not blank (and,
    for voice cloning, reference audio that is not empty) and a sample
    rate below [2 ^ 31], every synthesis entry point for which loading
    returns and whose generator yields no audio returns silence: the
    header of a mono 16-bit PCM WAV file at the requested rate followed by
    [max(1, int(sample_rate * 0.35))] all-zero frames, a count within one
    frame of 0.35 seconds.  This is in particular what each of the three
    entry points returns when no candidate model can be loaded (every
    instantiation yields no handle).  (An exception raised by the
    constructor or by the generator is not turned into silence.) *)
Theorem synthesis_falls_back_to_silence
    (cfg : config) (os : os_env) (w : world) (text : string) (sample_rate : Z) :
  _ALLOW_FALLBACK cfg = true ->
  whitespace_only text = false ->
  0 < sample_rate < 2 ^ 31 ->
  exists frames,
    (let? rate := float_of_Z sample_rate in
     let? n := trunc_float (fmul rate f_0_35) in
     Ok (Z.max 1 n)) = Ok frames
    /\ 1 <= frames
    /\ 7 * sample_rate - 20 <= 20 * frames <= 7 * sample_rate + 20
    /\ Forall (fun b => b = x00) (zero_frames frames)
    /\ length (zero_frames frames) = (2 * Z.to_nat frames)%nat
    /\ (forall instruct language model_id rm loaded w1 w2,
           _resolve_model "voice_design" (Some model_id) = Ok rm ->
           _ensure_loaded cfg os "voice_design" rm w = (Ok loaded, w1) ->
           _generate_voice_design text (str_or instruct "")
             (str_or language (DEFAULT_LANGUAGE cfg)) w1 = (Ok None, w2) ->
           synthesize_voice_design cfg os text instruct language sample_rate model_id w
           = (Ok (riff_header sample_rate (2 * frames) ++ zero_frames frames), w2))
    /\ (forall speaker instruct language model_id rm loaded w1 w2,
           _resolve_model "custom_voice" (Some model_id) = Ok rm ->
           _ensure_loaded cfg os "custom_voice" rm w = (Ok loaded, w1) ->
           _generate_custom_voice cfg text (str_or speaker (DEFAULT_SPEAKER cfg)) instruct
             (str_or language (DEFAULT_LANGUAGE cfg)) w1 = (Ok None, w2) ->
           synthesize_custom_voice cfg os text speaker instruct language sample_rate
             model_id w
           = (Ok (riff_header sample_rate (2 * frames) ++ zero_frames frames), w2))
    /\ (forall reference_audio language model_id rm loaded w1 w2,
           reference_audio <> [] ->
           _resolve_model "voice_clone" (Some model_id) = Ok rm ->
           _ensure_loaded cfg os "voice_clone" rm w = (Ok loaded, w1) ->
           _generate_voice_clone os text reference_audio
             (str_or language (DEFAULT_LANGUAGE cfg)) w1 = (Ok None, w2) ->
           synthesize_voice_clone cfg os text reference_audio language sample_rate
             model_id w
           = (Ok (riff_header sample_rate (2 * frames) ++ zero_frames frames), w2))
    /\ (forall instruct language model_id rm,
           _resolve_model "voice_design" (Some model_id) = Ok rm ->
           ~ loaded_with w "voice_design" rm ->
           Forall (fun c => creation cfg os w c.2 = Ok None)
             (_candidates_for_mode cfg "voice_design" rm false) ->
           (synthesize_voice_design cfg os text instruct language sample_rate model_id w).1
           = Ok (riff_header sample_rate (2 * frames) ++ zero_frames frames))
    /\ (forall speaker instruct language model_id rm,
           _resolve_model "custom_voice" (Some model_id) = Ok rm ->
           ~ loaded_with w "custom_voice" rm ->
           Forall (fun c => creation cfg os w c.2 = Ok None)
             (_candidates_for_mode cfg "custom_voice" rm false) ->
           (synthesize_custom_voice cfg os text speaker instruct language sample_rate
              model_id w).1
           = Ok (riff_header sample_rate (2 * frames) ++ zero_frames frames))
    /\ (forall reference_audio language model_id rm,
           reference_audio <> [] ->
           _resolve_model "voice_clone" (Some model_id) = Ok rm ->
           ~ loaded_with w "voice_clone" rm ->
           Forall (fun c => creation cfg os w c.2 = Ok None)
             (_candidates_for_mode cfg "voice_clone" rm false) ->
           (synthesize_voice_clone cfg os text reference_audio language sample_rate
              model_id w).1
           = Ok (riff_header sample_rate (2 * frames) ++ zero_frames frames)).
Proof.
  intros Hfb Htext Hsr.
  destruct (silent_wav_spec sample_rate Hsr) as (frames & Hframes & Hpos & Happrox & Hsilent).
  exists frames.
  split; [exact Hframes |]. split; [exact Hpos |]. split; [exact Happrox |].
  split; [apply zero_frames_zero |]. split; [apply zero_frames_length |].
  split; [| split; [| split; [| split; [| split]]]].
  - intros instruct language model_id rm loaded w1 w2 Hres Hload Hgen.
    rewrite <- Hsilent.
    by apply (synthesize_voice_design_no_audio cfg os text instruct language sample_rate
                model_id rm loaded w w1 w2).
  - intros speaker instruct language model_id rm loaded w1 w2 Hres Hload Hgen.
    rewrite <- Hsilent.
    by apply (synthesize_custom_voice_no_audio cfg os text speaker instruct language
                sample_rate model_id rm loaded w w1 w2).
  - intros reference_audio language model_id rm loaded w1 w2 Href Hres Hload Hgen.
    rewrite <- Hsilent.
    by apply (synthesize_voice_clone_no_audio cfg os text reference_audio language
                sample_rate model_id rm loaded w w1 w2).
  - intros instruct language model_id rm Hres Hnot Hall.
    destruct (resolve_model_again "voice_design" (Some model_id) rm) as [Hagain _];
      [by left | exact Hres |].
    destruct (ensure_loaded_unloadable cfg os "voice_design" rm w) as [Hb Hnone];
      [reflexivity | exact Hagain | exact Hnot | exact Hall |].
    destruct (_ensure_loaded cfg os "voice_design" rm w) as [r w1] eqn:Hload.
    cbn [fst snd] in Hb, Hnone. subst r.
    rewrite (synthesize_voice_design_no_audio cfg os text instruct language sample_rate
               model_id rm (_ALLOW_FALLBACK cfg) w w1 w1 Hfb Htext Hres Hload).
    + cbn [fst]. exact Hsilent.
    + by apply generate_voice_design_without_model.
  - intros speaker instruct language model_id rm Hres Hnot Hall.
    rewrite <- Hsilent.
    by apply (synthesize_custom_voice_unloadable cfg os text speaker instruct language
                sample_rate model_id rm w).
  - intros reference_audio language model_id rm Href Hres Hnot Hall.
    rewrite <- Hsilent.
    by apply (synthesize_voice_clone_unloadable cfg os text reference_audio language
                sample_rate model_id rm w).
Qed.

Lemma synthesis_falls_back_to_silence_witness :
  (synthesize_voice_design (config_of_env env_fallback) env_fallback
     "hello" "calm" "" 24000 "" initial_world).1
  = Ok (riff_header 24000 16800 ++ zero_frames 8400).
Proof.
  destruct (synthesis_falls_back_to_silence (config_of_env env_fallback) env_fallback
              initial_world "hello" 24000)
    as (frames & Hframes & _ & _ & _ & _ & _ & _ & _ & Hsilent & _ & _).
  - reflexivity.
  - reflexivity.
  - split; reflexivity.
  - vm_compute in Hframes. injection Hframes as <-.
    apply (Hsilent "calm" "" "" DEFAULT_VOICE_DESIGN_MODEL).
    + reflexivity.
    + intros (H & _). discriminate.
    + apply Forall_forall. intros c _. reflexivity.
Defined.

(** At 20 Hz the product 20 * 0.35 rounds to 7.0 exactly, so seven
    frames are written; below 3 Hz a single frame is; at 0 Hz the [wave]
    writer raises. *)
Example silent_wav_small_rates :
  _silent_wav 20 f_0_35 = Ok (riff_header 20 14 ++ zero_frames 7)
  /\ _silent_wav 2 f_0_35 = Ok (riff_header 2 2 ++ zero_frames 1)
  /\ _silent_wav 0 f_0_35 = Raise (WaveError "sampling rate not specified").
Proof. vm_compute. repeat split. Qed.

(** * Further properties of the multi-mode runner *)

(** ** Mode and model resolution *)

Lemma registry_lookup_registered (mode : string) :
  (exists ids, registry_lookup MODEL_REGISTRY mode = Some ids) <-> registered mode.
Proof.
  unfold registered, MODEL_REGISTRY. cbn [registry_lookup].
  destruct (String.eqb_spec "voice_design" mode) as [<- | H1].
  { split; [intros _; by left | intros _; by eexists]. }
  destruct (String.eqb_spec "custom_voice" mode) as [<- | H2].
  { split; [intros _; by right; left | intros _; by eexists]. }
  destruct (String.eqb_spec "voice_clone" mode) as [<- | H3].
  { split; [intros _; by right; right | intros _; by eexists]. }
  split; [by intros [ids ?] | intros [? | [? | ?]]; congruence].
Qed.

Lemma opt_or_blank (model_id : option string) :
  str_truthy (py_strip (opt_or model_id "")) = negb (blank_id model_id).
Proof.
  destruct model_id as [s |]; simpl; [| reflexivity].
  unfold str_or. destruct (str_truthy s) eqn:Hs.
  - pose proof (text_is_blank_whitespace_only s) as H. unfold text_is_blank in H.
    rewrite <- H. by rewrite negb_involutive.
  - apply str_truthy_false in Hs. subst s. reflexivity.
Qed.

(** X1.  When the configured default mode is a key of the registry,
    resolution never fails: [_resolve_mode] yields a registered mode, and
    [_resolve_model] yields for it a model id that is not empty, namely the
    stripped requested id, or the first registry entry of the mode when
    the requested id is absent or blank. *)
Theorem resolution_total (cfg : config) (mode model_id : option string) :
  registered (DEFAULT_MODE cfg) ->
  registered (_resolve_mode cfg mode)
  /\ exists rm,
       _resolve_model (_resolve_mode cfg mode) model_id = Ok rm
       /\ rm <> ""
       /\ rm = if blank_id model_id then default_model (_resolve_mode cfg mode)
               else py_strip (opt_or model_id "").
Proof.
  intros Hdefault.
  assert (Hreg : registered (_resolve_mode cfg mode)).
  { unfold _resolve_mode. cbv zeta.
    destruct (registry_lookup MODEL_REGISTRY
                (py_lower (py_strip (opt_or mode (DEFAULT_MODE cfg))))) as [ids |] eqn:Hl;
      [| exact Hdefault].
    apply registry_lookup_registered. by exists ids. }
  split; [exact Hreg |].
  unfold _resolve_model.
  pose proof (opt_or_blank model_id) as Hb.
  destruct (blank_id model_id); cbn [negb] in Hb; rewrite Hb.
  - destruct Hreg as [-> | [-> | ->]]; eexists; (split; [reflexivity |]); by split.
  - eexists. split; [reflexivity |]. split; [| reflexivity].
    by apply str_truthy_true.
Qed.

Lemma resolution_total_witness :
  registered (_resolve_mode (config_of_env env_bare) (Some " Custom_Voice "))
  /\ exists rm,
       _resolve_model (_resolve_mode (config_of_env env_bare) (Some " Custom_Voice "))
         (Some "   ") = Ok rm
       /\ rm <> ""
       /\ rm = if blank_id (Some "   ")
               then default_model (_resolve_mode (config_of_env env_bare) (Some " Custom_Voice "))
               else py_strip (opt_or (Some "   ") "").
Proof.
  apply (resolution_total (config_of_env env_bare) (Some " Custom_Voice ") (Some "   ")).
  by left.
Defined.

(** X2.  When the configured default mode is not a key of the registry
    and the requested mode is not recognised either, [load_model] without
    a model id raises [KeyError] on the default mode, before it touches
    the globals or tries any candidate. *)
Theorem load_model_unregistered_default_mode
    (cfg : config) (os : os_env) (w : world) (mode model_id strict : option string) :
  ~ registered (DEFAULT_MODE cfg) ->
  ~ registered (py_lower (py_strip (opt_or mode (DEFAULT_MODE cfg)))) ->
  blank_id model_id = true ->
  load_model cfg os mode model_id strict w = (Raise (KeyError (DEFAULT_MODE cfg)), w).
Proof.
  intros Hdefault Hmode Hblank.
  assert (Hres : _resolve_mode cfg mode = DEFAULT_MODE cfg).
  { unfold _resolve_mode. cbv zeta.
    destruct (registry_lookup MODEL_REGISTRY
                (py_lower (py_strip (opt_or mode (DEFAULT_MODE cfg))))) as [ids |] eqn:Hl;
      [| reflexivity].
    exfalso. apply Hmode, registry_lookup_registered. by exists ids. }
  apply load_model_unresolved. rewrite Hres.
  unfold _resolve_model. rewrite opt_or_blank, Hblank. cbn [negb].
  unfold _resolve_default_model_for_mode.
  destruct (registry_lookup MODEL_REGISTRY (DEFAULT_MODE cfg)) as [ids |] eqn:Hl;
    [| reflexivity].
  exfalso. apply Hdefault, registry_lookup_registered. by exists ids.
Qed.

Lemma load_model_unregistered_default_mode_witness :
  load_model (config_of_env env_bad_default_mode) env_bad_default_mode
    (Some "bogus") None None initial_world
  = (Raise (KeyError "Custom_Voice"), initial_world).
Proof.
  apply (load_model_unregistered_default_mode (config_of_env env_bad_default_mode)
           env_bad_default_mode initial_world (Some "bogus") None None).
  - intros [H | [H | H]]; discriminate.
  - intros [H | [H | H]]; discriminate.
  - reflexivity.
Defined.

(** ** The candidate list in closed form *)

Section FoldFacts.

Context {A B : Type}.

Lemma fold_left_cond_snoc (p : B -> bool) (f : B -> A) (l : list B) (acc : list A) :
  fold_left (fun acc b => if p b then acc ++ [f b] else acc) l acc
  = acc ++ map f (filter (fun b => p b = true) l).
Proof.
  revert acc. induction l as [| b l IH]; intros acc; simpl.
  - by rewrite app_nil_r.
  - rewrite IH. rewrite filter_cons. destruct (p b) eqn:Hp.
    + rewrite decide_True by done. simpl. by rewrite <- app_assoc.
    + rewrite decide_False by congruence. reflexivity.
Qed.

Lemma fold_left_app_flat_map (g : B -> list A) (l : list B) (acc : list A) :
  fold_left (fun acc b => acc ++ g b) l acc = acc ++ flat_map g l.
Proof.
  revert acc. induction l as [| b l IH]; intros acc; simpl.
  - by rewrite app_nil_r.
  - by rewrite IH, <- app_assoc.
Qed.

End FoldFacts.

Lemma dedup_fold_nodup (l : list candidate) (seen : gset candidate) (unique : list candidate) :
  NoDup (unique ++ l) ->
  (forall x, x ∈ seen <-> x ∈ unique) ->
  (fold_left dedup_step l (seen, unique)).2 = unique ++ l.
Proof.
  revert seen unique. induction l as [| entry l IH]; intros seen unique Hnd Hseen; simpl.
  - by rewrite app_nil_r.
  - assert (Hnot : entry ∉ seen).
    { rewrite Hseen. apply NoDup_app in Hnd as (_ & Hdisj & _).
      intros Hin. apply (Hdisj entry Hin). by left. }
    destruct (decide (entry ∈ seen)) as [Hin | _]; [contradiction |].
    rewrite IH.
    + by rewrite <- app_assoc.
    + by rewrite <- app_assoc.
    + intros x. rewrite elem_of_union, elem_of_singleton, elem_of_app,
        list_elem_of_singleton, Hseen. tauto.
Qed.

Lemma same_mode_fold (mode requested_model : string) (ids : list string)
    (acc : list candidate) :
  fold_left (fun ordered model_id =>
               if negb (String.eqb model_id requested_model)
               then ordered ++ [(mode, model_id)] else ordered) ids acc
  = acc ++ map (pair mode) (filter (fun id => id <> requested_model) ids).
Proof.
  revert acc. induction ids as [| id ids IH]; intros acc; cbn [fold_left].
  - by rewrite app_nil_r.
  - rewrite IH, filter_cons. destruct (String.eqb_spec id requested_model) as [-> | Hne].
    + by rewrite decide_False by (intros H; by apply H).
    + rewrite decide_True by done. cbn [negb map]. by rewrite <- app_assoc.
Qed.

Lemma other_mode_fold (fallback_mode requested_model : string) (ids : list string)
    (acc : list candidate) :
  fold_left (fun ordered model_id =>
               if String.eqb model_id requested_model then ordered
               else ordered ++ [(fallback_mode, model_id)]) ids acc
  = acc ++ map (pair fallback_mode) (filter (fun id => id <> requested_model) ids).
Proof.
  revert acc. induction ids as [| id ids IH]; intros acc; cbn [fold_left].
  - by rewrite app_nil_r.
  - rewrite IH, filter_cons. destruct (String.eqb_spec id requested_model) as [-> | Hne].
    + by rewrite decide_False by (intros H; by apply H).
    + rewrite decide_True by done. cbn [map]. by rewrite <- app_assoc.
Qed.

Lemma cross_mode_fold (mode requested_model : string) (reg : list (string * list string))
    (acc : list candidate) :
  fold_left
    (fun ordered '(fallback_mode, model_ids) =>
       if String.eqb fallback_mode mode then ordered
       else
         fold_left
           (fun ordered model_id =>
              if String.eqb model_id requested_model then ordered
              else ordered ++ [(fallback_mode, model_id)])
           model_ids ordered)
    reg acc
  = acc ++ flat_map (fun entry : string * list string =>
                       if String.eqb entry.1 mode then []
                       else map (pair entry.1)
                              (filter (fun id => id <> requested_model) entry.2)) reg.
Proof.
  revert acc. induction reg as [| [fm ids] reg IH]; intros acc; cbn [fold_left flat_map].
  - by rewrite app_nil_r.
  - rewrite IH. cbn [fst snd]. destruct (String.eqb fm mode).
    + reflexivity.
    + by rewrite other_mode_fold, <- app_assoc.
Qed.

Lemma candidates_before_dedup (cfg : config) (mode requested_model : string) (strict : bool) :
  _candidates_for_mode cfg mode requested_model strict
  = (fold_left dedup_step (candidates_in_order cfg mode requested_model strict) (∅, [])).2.
Proof.
  unfold _candidates_for_mode, candidates_in_order, cross_mode_candidates, models_of.
  cbv zeta. f_equal. f_equal.
  rewrite same_mode_fold.
  destruct (negb strict && _ALLOW_CROSS_MODE_FALLBACK cfg).
  - by rewrite cross_mode_fold, <- app_assoc.
  - by rewrite app_nil_r.
Qed.

Lemma registry_ids_nodup (mode : string) (ids : list string) :
  (mode, ids) ∈ MODEL_REGISTRY -> NoDup ids.
Proof.
  unfold MODEL_REGISTRY. rewrite !elem_of_cons, elem_of_nil.
  intros [[= _ ->] | [[= _ ->] | [[= _ ->] | []]]];
    apply (bool_decide_unpack _); vm_compute; exact I.
Qed.

Lemma registry_modes_nodup : NoDup (MODEL_REGISTRY.*1).
Proof. apply (bool_decide_unpack _). vm_compute. exact I. Qed.

Lemma registry_lookup_elem_of (reg : list (string * list string)) (mode : string)
    (ids : list string) :
  registry_lookup reg mode = Some ids -> (mode, ids) ∈ reg.
Proof.
  induction reg as [| [k v] reg IH]; cbn [registry_lookup]; [discriminate |].
  destruct (String.eqb_spec k mode) as [-> | Hne].
  - intros [= ->]. by left.
  - intros H. right. by apply IH.
Qed.

Lemma models_of_nodup (mode : string) : NoDup (models_of mode).
Proof.
  unfold models_of.
  destruct (registry_lookup MODEL_REGISTRY mode) as [ids |] eqn:Hl; [| apply NoDup_nil_2].
  eapply registry_ids_nodup, registry_lookup_elem_of, Hl.
Qed.

Lemma elem_of_pairs (mode requested_model : string) (ids : list string) (c : candidate) :
  c ∈ map (pair mode) (filter (fun id => id <> requested_model) ids)
  <-> c.1 = mode /\ c.2 <> requested_model /\ c.2 ∈ ids.
Proof.
  rewrite list_elem_of_fmap. setoid_rewrite list_elem_of_filter. split.
  - intros (id & -> & Hne & Hin). auto.
  - intros (H1 & H2 & H3). exists c.2. destruct c as [m id]. simpl in *. by subst.
Qed.

Lemma pairs_nodup (mode requested_model : string) (ids : list string) :
  NoDup ids -> NoDup (map (pair mode) (filter (fun id => id <> requested_model) ids)).
Proof.
  intros H. apply (NoDup_fmap_2 (pair mode)). by apply NoDup_filter.
Qed.

Lemma elem_of_cross_fold (mode requested_model : string) (reg : list (string * list string))
    (c : candidate) :
  c ∈ flat_map (fun entry : string * list string =>
                  if String.eqb entry.1 mode then []
                  else map (pair entry.1)
                         (filter (fun id => id <> requested_model) entry.2)) reg
  <-> c.1 <> mode /\ c.2 <> requested_model /\ exists ids, (c.1, ids) ∈ reg /\ c.2 ∈ ids.
Proof.
  rewrite list_elem_of_In, in_flat_map. setoid_rewrite <- list_elem_of_In. split.
  - intros ([fm ids] & Hin & Hc). cbn [fst snd] in Hc.
    destruct (String.eqb_spec fm mode) as [-> | Hne]; [by apply elem_of_nil in Hc |].
    apply elem_of_pairs in Hc as (H1 & H2 & H3).
    split; [congruence |]. split; [done |]. exists ids. by rewrite H1.
  - intros (H1 & H2 & ids & Hin & Hid). exists (c.1, ids). split; [done |].
    cbn [fst snd]. destruct (String.eqb_spec c.1 mode) as [He | _]; [contradiction |].
    by apply elem_of_pairs.
Qed.

Lemma cross_fold_nodup (mode requested_model : string) (reg : list (string * list string)) :
  NoDup (reg.*1) ->
  (forall fm ids, (fm, ids) ∈ reg -> NoDup ids) ->
  NoDup (flat_map (fun entry : string * list string =>
                     if String.eqb entry.1 mode then []
                     else map (pair entry.1)
                            (filter (fun id => id <> requested_model) entry.2)) reg).
Proof.
  induction reg as [| [fm ids] reg IH]; intros Hkeys Hids; cbn [flat_map].
  - apply NoDup_nil_2.
  - cbn [fmap list_fmap fst] in Hkeys. apply NoDup_cons in Hkeys as [Hfm Hkeys].
    apply NoDup_app. split; [| split].
    + cbn [fst snd]. destruct (String.eqb fm mode); [apply NoDup_nil_2 |].
      apply pairs_nodup, (Hids fm). by left.
    + intros c Hc Hrest. cbn [fst snd] in Hc.
      destruct (String.eqb fm mode); [by apply elem_of_nil in Hc |].
      apply elem_of_pairs in Hc as (H1 & _ & _).
      apply elem_of_cross_fold in Hrest as (_ & _ & ids' & Hin & _).
      apply Hfm. rewrite <- H1. apply list_elem_of_fmap. by exists (c.1, ids').
    + apply IH; [done |]. intros fm' ids' Hin. apply (Hids fm'). by right.
Qed.

Lemma candidates_in_order_nodup (cfg : config) (mode requested_model : string)
    (strict : bool) :
  NoDup (candidates_in_order cfg mode requested_model strict).
Proof.
  unfold candidates_in_order. apply NoDup_app. split; [| split].
  - destruct (str_truthy requested_model); [apply NoDup_singleton | apply NoDup_nil_2].
  - intros c Hc Hrest.
    assert (Hc' : c = (mode, requested_model)).
    { destruct (str_truthy requested_model);
        [by apply list_elem_of_singleton in Hc | by apply elem_of_nil in Hc]. }
    subst c. apply elem_of_app in Hrest as [H | H].
    + apply elem_of_pairs in H as (_ & H & _). by apply H.
    + destruct (negb strict && _ALLOW_CROSS_MODE_FALLBACK cfg);
        [| by apply elem_of_nil in H].
      apply elem_of_cross_fold in H as (H & _). by apply H.
  - apply NoDup_app. split; [| split].
    + apply pairs_nodup, models_of_nodup.
    + intros c Hc Hrest. apply elem_of_pairs in Hc as (H1 & _ & _).
      destruct (negb strict && _ALLOW_CROSS_MODE_FALLBACK cfg);
        [| by apply elem_of_nil in Hrest].
      apply elem_of_cross_fold in Hrest as (H & _). by apply H.
    + destruct (negb strict && _ALLOW_CROSS_MODE_FALLBACK cfg); [| apply NoDup_nil_2].
      apply cross_fold_nodup; [apply registry_modes_nodup | apply registry_ids_nodup].
Qed.

Lemma candidates_elem_of (cfg : config) (mode requested_model : string) (strict : bool)
    (c : candidate) :
  c ∈ _candidates_for_mode cfg mode requested_model strict
  <-> c ∈ candidates_in_order cfg mode requested_model strict.
Proof. rewrite candidates_before_dedup. apply dedup_elem_of. Qed.

(** X3.  [_candidates_for_mode] returns, in this order: the requested
    pair (when the id is not empty), the other registered models of the
    requested mode in registry order, and, unless the load is strict or
    cross-mode fallback is switched off, the models of the other modes in
    registry order, never the requested id again.  The closing
    deduplication loop removes nothing. *)
Theorem candidates_closed_form (cfg : config) (mode requested_model : string) (strict : bool) :
  _candidates_for_mode cfg mode requested_model strict
  = candidates_in_order cfg mode requested_model strict.
Proof.
  rewrite candidates_before_dedup.
  rewrite (dedup_fold_nodup _ ∅ []).
  - reflexivity.
  - apply candidates_in_order_nodup.
  - intros x. rewrite elem_of_nil. split; [by intros H%not_elem_of_empty | done].
Qed.

(** ** Loading *)

Lemma expected_attempts_first_available (out : string -> res (option handle))
    (pre post : list candidate) (c : candidate) (model : handle) :
  Forall (fun p => out p.2 = Ok None) pre ->
  out c.2 = Ok (Some model) ->
  expected_attempts out (pre ++ c :: post)
  = map (fun p => (p, Ok None)) pre ++ [(c, Ok (Some model))].
Proof.
  intros Hpre Hc. induction Hpre as [| p pre Hp _ IH]; simpl.
  - by rewrite Hc.
  - by rewrite Hp, IH.
Qed.

Lemma load_outcome_first_available (fallback : bool)
    (before : bool * option handle * option string * option string)
    (pre : list candidate) (c : candidate) (model : handle) :
  load_outcome fallback before (map (fun p => (p, Ok None)) pre ++ [(c, Ok (Some model))])
  = (Ok true, (true, Some model, Some c.1, Some c.2)).
Proof. induction pre as [| p pre IH]; simpl; auto. Qed.

(** X4.  [load_model] loads the first candidate that can be
    instantiated: when the candidates before it yield no handle and its
    creation yields one, the call returns [True], the handle is stored
    with that candidate's own mode and model id as the active pair, and
    the candidates after it are never tried. *)
Theorem load_model_first_available
    (cfg : config) (os : os_env) (w : world) (mode model_id strict : option string)
    (resolved_model : string) (pre post : list candidate) (c : candidate) (model : handle) :
  _resolve_model (_resolve_mode cfg mode) model_id = Ok resolved_model ->
  ~ loaded_with w (_resolve_mode cfg mode) resolved_model ->
  _candidates_for_mode cfg (_resolve_mode cfg mode) resolved_model (strict_flag strict)
  = pre ++ c :: post ->
  Forall (fun p => creation cfg os w p.2 = Ok None) pre ->
  creation cfg os w c.2 = Ok (Some model) ->
  (load_model cfg os mode model_id strict w).1 = Ok true
  /\ lifecycle (load_model cfg os mode model_id strict w).2
     = (true, Some model, Some c.1, Some c.2)
  /\ attempts (trace (load_model cfg os mode model_id strict w).2)
     = attempts (trace w) ++ map (fun p => (p, Ok None)) pre ++ [(c, Ok (Some model))].
Proof.
  intros Hres Hnot Hcands Hpre Hc.
  rewrite (load_model_unfold cfg os mode model_id strict w resolved_model Hres).
  destruct (already_active w (_resolve_mode cfg mode) resolved_model) eqn:Hact.
  { exfalso. by apply Hnot, already_active_loaded_with. }
  destruct (load_candidates_spec cfg os
              (_candidates_for_mode cfg (_resolve_mode cfg mode) resolved_model
                 (strict_flag strict)) w) as (Hatt & Hout & _).
  rewrite Hcands in Hatt, Hout |- *.
  rewrite (expected_attempts_first_available _ pre post c model Hpre Hc) in Hatt, Hout.
  rewrite load_outcome_first_available in Hout.
  apply pair_equal_spec in Hout as [H1 H2]. auto.
Qed.

Lemma load_model_first_available_witness :
  (load_model (config_of_env env_small_checkpoint_missing) env_small_checkpoint_missing
     (Some "custom_voice") None None world_voice_design).1 = Ok true
  /\ lifecycle (load_model (config_of_env env_small_checkpoint_missing)
                  env_small_checkpoint_missing (Some "custom_voice") None None
                  world_voice_design).2
     = (true, Some ryan_serena_model, Some "custom_voice",
        Some "Qwen/Qwen3-TTS-12Hz-1.7B-CustomVoice").
Proof.
  destruct (load_model_first_available (config_of_env env_small_checkpoint_missing)
              env_small_checkpoint_missing world_voice_design (Some "custom_voice") None None
              DEFAULT_CUSTOM_VOICE_MODEL
              [("custom_voice", DEFAULT_CUSTOM_VOICE_MODEL)]
              [("voice_design", DEFAULT_VOICE_DESIGN_MODEL);
               ("voice_clone", DEFAULT_VOICE_CLONE_MODEL);
               ("voice_clone", "Qwen/Qwen3-TTS-12Hz-1.7B-Base")]
              ("custom_voice", "Qwen/Qwen3-TTS-12Hz-1.7B-CustomVoice")
              ryan_serena_model) as (H1 & H2 & _).
  - reflexivity.
  - intros (_ & _ & H & _). discriminate.
  - vm_compute. reflexivity.
  - repeat constructor.
  - reflexivity.
  - split; [exact H1 | exact H2].
Defined.

Lemma candidates_same_mode (cfg : config) (mode requested_model : string) (strict : bool) :
  strict = true \/ _ALLOW_CROSS_MODE_FALLBACK cfg = false ->
  Forall (fun c => c.1 = mode) (_candidates_for_mode cfg mode requested_model strict).
Proof.
  intros Hflag. apply Forall_forall. intros c Hc.
  apply candidates_elem_of in Hc. unfold candidates_in_order in Hc.
  replace (negb strict && _ALLOW_CROSS_MODE_FALLBACK cfg) with false in Hc
    by (destruct Hflag as [-> | ->]; [reflexivity | by rewrite andb_false_r]).
  rewrite app_nil_r in Hc. apply elem_of_app in Hc as [Hc | Hc].
  - destruct (str_truthy requested_model);
      [by apply list_elem_of_singleton in Hc as -> | by apply elem_of_nil in Hc].
  - by apply elem_of_pairs in Hc as (H & _).
Qed.

(** X5.  A strict load, or any load while cross-mode fallback is
    switched off, attempts only candidates of the resolved mode. *)
Theorem load_model_stays_in_mode
    (cfg : config) (os : os_env) (w : world) (mode model_id strict : option string) :
  strict_flag strict = true \/ _ALLOW_CROSS_MODE_FALLBACK cfg = false ->
  exists new,
    attempts (trace (load_model cfg os mode model_id strict w).2) = attempts (trace w) ++ new
    /\ Forall (fun a => a.1.1 = _resolve_mode cfg mode) new.
Proof.
  intros Hflag.
  destruct (_resolve_model (_resolve_mode cfg mode) model_id) as [rm | e] eqn:Hres.
  - rewrite (load_model_unfold cfg os mode model_id strict w rm Hres).
    destruct (already_active w (_resolve_mode cfg mode) rm).
    + exists []. pose proof (debug_frame cfg MsgAlreadyLoaded w) as (_ & _ & H & _).
      cbn [snd]. rewrite H, app_nil_r. by split.
    + destruct (load_candidates_spec cfg os
                  (_candidates_for_mode cfg (_resolve_mode cfg mode) rm (strict_flag strict)) w)
        as (Hatt & _ & _).
      eexists. split; [exact Hatt |].
      eapply Forall_impl;
        [apply expected_attempts_models, (candidates_same_mode cfg _ rm _ Hflag) |].
      by intros a [H _].
  - rewrite (load_model_unresolved cfg os mode model_id strict w e Hres).
    exists []. by rewrite app_nil_r.
Qed.

Lemma load_model_stays_in_mode_witness :
  exists new,
    attempts (trace (load_model (config_of_env env_bare) env_bare (Some "voice_clone") None
                       (Some "1") world_voice_design).2)
    = attempts (trace world_voice_design) ++ new
    /\ Forall (fun a => a.1.1 = "voice_clone") new.
Proof.
  apply (load_model_stays_in_mode (config_of_env env_bare) env_bare world_voice_design
           (Some "voice_clone") None (Some "1")).
  left. reflexivity.
Defined.

(** ** Model creation *)

Lemma sources_app (t1 t2 : list event) : sources (t1 ++ t2) = sources t1 ++ sources t2.
Proof. unfold sources. apply omap_app. Qed.

(** X6.  With [TTM_QWEN_LOCAL_MODEL_PATH] set to a non-empty path,
    [_create_model] ignores the model id: whatever the id, it does the
    same thing, and the only checkpoint it asks [from_pretrained] for is
    that path.  Every candidate of a load then instantiates the same
    checkpoint. *)
Theorem create_model_explicit_path
    (cfg : config) (os : os_env) (w : world) (path : string) (id1 id2 : string) :
  getenv os "TTM_QWEN_LOCAL_MODEL_PATH" = Some path ->
  path <> "" ->
  _create_model cfg os id1 w = _create_model cfg os id2 w
  /\ exists asked,
       sources (trace (_create_model cfg os id1 w).2) = sources (trace w) ++ asked
       /\ Forall (fun source => source = path) asked.
Proof.
  intros Henv Hpath. apply str_truthy_true in Hpath.
  assert (Hlocal : forall id, _resolve_local_model_path os id = Some path).
  { intros id. unfold _resolve_local_model_path. rewrite Henv. cbn [opt_truthy].
    by rewrite Hpath. }
  unfold _create_model. rewrite !Hlocal. unfold str_or. rewrite Hpath.
  split; [reflexivity |].
  unfold _load_qwen_module, bind, get, ret, lift, set_module, emit, _debug.
  destruct (_QWEN_MODULE w) as [qm |]; cbn.
  - destruct (Qwen3TTSModel qm); cbn.
    + exists [path]. split; [| by repeat constructor].
      destruct (_DEBUG cfg); cbn; by rewrite sources_app.
    + exists []. by rewrite app_nil_r.
  - destruct (import_qwen_tts os) as [qm |]; cbn.
    + destruct (Qwen3TTSModel qm); cbn.
      * exists [path]. split; [| by repeat constructor].
        destruct (_DEBUG cfg); cbn; by rewrite sources_app.
      * exists []. by rewrite app_nil_r.
    + exists []. by rewrite app_nil_r.
Qed.

Lemma create_model_explicit_path_witness :
  _create_model (config_of_env env_local_path) env_local_path
    DEFAULT_CUSTOM_VOICE_MODEL initial_world
  = _create_model (config_of_env env_local_path) env_local_path
      DEFAULT_VOICE_DESIGN_MODEL initial_world.
Proof.
  apply (create_model_explicit_path (config_of_env env_local_path) env_local_path
           initial_world "/opt/models/tts").
  - reflexivity.
  - discriminate.
Defined.

Lemma create_model_module (cfg : config) (os : os_env) (model_id : string) (w : world) :
  _QWEN_MODULE (_create_model cfg os model_id w).2 = effective_module os w.
Proof.
  unfold _create_model, _load_qwen_module, effective_module, bind, get, ret, lift,
    set_module, emit, _debug.
  destruct (_QWEN_MODULE w) as [qm |] eqn:Hqm; cbn.
  - destruct (Qwen3TTSModel qm); cbn; rewrite ?Hqm; auto.
    destruct (_DEBUG cfg); cbn; by rewrite ?Hqm.
  - destruct (import_qwen_tts os) as [qm |]; cbn; rewrite ?Hqm; auto.
    destruct (Qwen3TTSModel qm); cbn; auto.
    destruct (_DEBUG cfg); cbn; auto.
Qed.

Lemma load_candidates_module (cfg : config) (os : os_env) (cands : list candidate)
    (w : world) (qm : qwen_module) :
  _QWEN_MODULE w = Some qm ->
  _QWEN_MODULE (load_candidates cfg os cands w).2 = Some qm.
Proof.
  revert w. induction cands as [| [cm cid] rest IH]; intros w Hqm.
  - exact Hqm.
  - cbn [load_candidates].
    pose proof (create_model_module cfg os cid w) as Hmod.
    unfold effective_module in Hmod. rewrite Hqm in Hmod.
    destruct (_create_model cfg os cid w) as [[[model |] | e] w1]; cbn [snd] in Hmod.
    + unfold bind, emit, set_lifecycle, ret, _debug. destruct (_DEBUG cfg); exact Hmod.
    + unfold bind at 1. unfold emit at 1. unfold bind at 1.
      pose proof (debug_frame cfg (MsgLoadFailed cm cid)
                    {| _MODEL_LOADED := _MODEL_LOADED w1; _QWEN_MODEL := _QWEN_MODEL w1;
                       _QWEN_MODULE := _QWEN_MODULE w1; _ACTIVE_MODE := _ACTIVE_MODE w1;
                       _ACTIVE_MODEL_ID := _ACTIVE_MODEL_ID w1; stdout := stdout w1;
                       trace := trace w1 ++ [EvAttempt cm cid (Ok None)] |})
        as (Hd1 & _ & _ & Hd4).
      destruct (_debug cfg (MsgLoadFailed cm cid) _) as [rd w3].
      cbn [fst snd] in Hd1, Hd4. subst rd. apply IH. by rewrite Hd4.
    + exact Hmod.
Qed.

Lemma load_model_module (cfg : config) (os : os_env) (mode model_id strict : option string)
    (w : world) (qm : qwen_module) :
  _QWEN_MODULE w = Some qm ->
  _QWEN_MODULE (load_model cfg os mode model_id strict w).2 = Some qm.
Proof.
  intros Hqm.
  destruct (_resolve_model (_resolve_mode cfg mode) model_id) as [rm | e] eqn:Hres.
  - rewrite (load_model_unfold cfg os mode model_id strict w rm Hres).
    destruct (already_active w (_resolve_mode cfg mode) rm).
    + pose proof (debug_frame cfg MsgAlreadyLoaded w) as (_ & _ & _ & H).
      cbn [snd]. by rewrite H.
    + by apply load_candidates_module.
  - by rewrite (load_model_unresolved cfg os mode model_id strict w e Hres).
Qed.

(** X7.  Once the [qwen_tts] module has been imported it stays cached:
    no sequence of [load_model], [unload_model] and [_ensure_loaded]
    calls, in whatever environment, clears or replaces it.  Unloading a
    model does not unload the package. *)
Theorem module_cache_kept (cfg : config) (ops : list (os_env * op)) (w : world)
    (qm : qwen_module) :
  _QWEN_MODULE w = Some qm -> _QWEN_MODULE (run cfg ops w) = Some qm.
Proof.
  revert w. induction ops as [| [os o] ops IH]; intros w Hqm; cbn [run fold_left].
  - exact Hqm.
  - apply IH. destruct o as [mode model_id strict | | mode model_id]; cbn [step].
    + by apply load_model_module.
    + exact Hqm.
    + rewrite ensure_loaded_unfold. destruct (already_active w mode model_id); [exact Hqm |].
      by apply load_model_module.
Qed.

Lemma module_cache_kept_witness :
  _QWEN_MODULE (run (config_of_env env_working)
                  [(env_working, OpLoad None None None); (env_bare, OpUnload)] world_imported)
  = Some {| Qwen3TTSModel := None |}.
Proof.
  apply (module_cache_kept (config_of_env env_working)
           [(env_working, OpLoad None None None); (env_bare, OpUnload)] world_imported).
  reflexivity.
Defined.

Lemma resolve_model_nonempty (mode : string) (model_id : option string) (rm : string) :
  _resolve_model mode model_id = Ok rm -> rm <> "".
Proof.
  unfold _resolve_model.
  destruct (str_truthy (py_strip (opt_or model_id ""))) eqn:Ht.
  - intros [= <-]. by apply str_truthy_true.
  - unfold _resolve_default_model_for_mode, MODEL_REGISTRY. cbn [registry_lookup].
    destruct (String.eqb "voice_design" mode); [intros [= <-]; discriminate |].
    destruct (String.eqb "custom_voice" mode); [intros [= <-]; discriminate |].
    destruct (String.eqb "voice_clone" mode); [intros [= <-]; discriminate |].
    discriminate.
Qed.

(** X8.  [unload_model] always returns [True] and clears the lifecycle
    globals, and it forces the next [load_model] to instantiate: after it,
    a load whose arguments resolve attempts the resolved pair first, even
    if that pair was the active one before. *)
Theorem unload_then_load_instantiates
    (cfg : config) (os : os_env) (w : world) (mode model_id strict : option string)
    (resolved_model : string) :
  _resolve_model (_resolve_mode cfg mode) model_id = Ok resolved_model ->
  (unload_model w).1 = Ok true
  /\ lifecycle (unload_model w).2 = unloaded
  /\ (is_model_loaded (unload_model w).2).1 = Ok false
  /\ exists tail,
       attempts (trace (load_model cfg os mode model_id strict (unload_model w).2).2)
       = attempts (trace w)
         ++ ((_resolve_mode cfg mode, resolved_model), creation cfg os w resolved_model)
              :: tail.
Proof.
  intros Hres.
  split; [reflexivity |]. split; [reflexivity |]. split; [reflexivity |].
  pose proof (resolve_model_nonempty _ _ _ Hres) as Hne.
  rewrite (load_model_unfold cfg os mode model_id strict _ resolved_model Hres).
  assert (Hact : already_active (unload_model w).2 (_resolve_mode cfg mode) resolved_model
                 = false) by reflexivity.
  rewrite Hact.
  destruct (load_candidates_spec cfg os
              (_candidates_for_mode cfg (_resolve_mode cfg mode) resolved_model
                 (strict_flag strict)) (unload_model w).2) as (Hatt & _ & _).
  destruct (candidates_head cfg (_resolve_mode cfg mode) resolved_model (strict_flag strict)
              Hne) as [rest Hrest].
  rewrite Hrest in Hatt |- *.
  destruct (expected_attempts_head (creation cfg os (unload_model w).2)
              (_resolve_mode cfg mode, resolved_model) rest) as [tail Htail].
  exists tail. etrans; [exact Hatt |].
  change (trace (unload_model w).2) with (trace w). f_equal.
  etrans; [exact Htail |]. cbn [snd]. f_equal. f_equal.
  by apply creation_effective_module.
Qed.

Lemma unload_then_load_instantiates_witness :
  exists tail,
    attempts (trace (load_model (config_of_env env_working) env_working
                       (Some "voice_design") None None
                       (unload_model world_voice_design).2).2)
    = attempts (trace world_voice_design)
      ++ (("voice_design", DEFAULT_VOICE_DESIGN_MODEL),
          creation (config_of_env env_working) env_working world_voice_design
            DEFAULT_VOICE_DESIGN_MODEL) :: tail.
Proof.
  destruct (unload_then_load_instantiates (config_of_env env_working) env_working
              world_voice_design (Some "voice_design") None None
              DEFAULT_VOICE_DESIGN_MODEL) as (_ & _ & _ & H).
  - reflexivity.
  - exact H.
Defined.

(** ** Speakers *)

(** X9.  For a mode that does not resolve to [custom_voice],
    [get_supported_speakers] answers the empty list and does nothing at
    all: no load, no call to the model, the globals stay as they are. *)
Theorem get_supported_speakers_other_modes
    (cfg : config) (os : os_env) (w : world) (mode model_id : option string) :
  _resolve_mode cfg mode <> "custom_voice" ->
  get_supported_speakers cfg os mode model_id w = (Ok [], w).
Proof.
  intros Hmode. unfold get_supported_speakers. cbv zeta.
  destruct (String.eqb_spec (_resolve_mode cfg mode) "custom_voice") as [H | _];
    [contradiction | reflexivity].
Qed.

Lemma get_supported_speakers_other_modes_witness :
  get_supported_speakers (config_of_env env_working) env_working (Some "VOICE_CLONE") None
    world_voice_design
  = (Ok [], world_voice_design).
Proof.
  apply (get_supported_speakers_other_modes (config_of_env env_working) env_working
           world_voice_design (Some "VOICE_CLONE") None).
  discriminate.
Defined.

Lemma get_supported_speakers_filtered
    (cfg : config) (os : os_env) (w : world) (mode model_id : option string)
    (speakers : list string) :
  (get_supported_speakers cfg os mode model_id w).1 = Ok speakers ->
  exists names, speakers = filter (fun speaker => str_truthy speaker = true) names.
Proof.
  unfold get_supported_speakers. cbv zeta.
  destruct (negb (String.eqb (_resolve_mode cfg mode) "custom_voice")).
  { intros [= <-]. by exists []. }
  destruct (_resolve_model (_resolve_mode cfg mode) model_id) as [rm | e]; [| discriminate].
  unfold bind at 1. unfold lift at 1. unfold bind at 1.
  destruct (load_model cfg os (Some (_resolve_mode cfg mode)) (Some rm) (Some "1") w)
    as [[[|] | e] w1]; cbn [negb]; [| intros [= <-]; by exists [] | discriminate].
  unfold bind, get, ret, emit.
  destruct (_QWEN_MODEL w1) as [model |]; [| intros [= <-]; by exists []].
  destruct (supported_speakers model) as [[names | e] |]; cbn [fst];
    intros [= <-]; first [by exists names | by exists []].
Qed.

(** X10.  [get_supported_speakers] never raises on account of the model
    (an exception of the model's own [get_supported_speakers] gives the
    empty list), and the names it returns are never empty. *)
Theorem get_supported_speakers_names
    (cfg : config) (os : os_env) (w : world) (mode model_id : option string)
    (speakers : list string) :
  (get_supported_speakers cfg os mode model_id w).1 = Ok speakers ->
  Forall (fun speaker => speaker <> "") speakers.
Proof.
  intros Hrun.
  destruct (get_supported_speakers_filtered cfg os w mode model_id speakers Hrun)
    as [names ->].
  apply Forall_forall. intros speaker Hin.
  apply list_elem_of_filter in Hin as [Ht _]. by apply str_truthy_true.
Qed.

Lemma get_supported_speakers_names_witness :
  Forall (fun speaker => speaker <> "") ["ryan"; "serena"].
Proof.
  apply (get_supported_speakers_names (config_of_env env_bare) env_bare world_blank_speaker
           (Some "custom_voice") None).
  reflexivity.
Defined.

Lemma join_comma_empty (speakers : list string) :
  Forall (fun speaker => speaker <> "") speakers ->
  join_comma speakers = "" <-> speakers = [].
Proof.
  intros Hall. destruct Hall as [| first rest Hfirst _]; [done |].
  split; [| discriminate]. intros Hjoin. exfalso. apply Hfirst.
  cbn [join_comma] in Hjoin. destruct rest; [exact Hjoin |].
  by destruct first.
Qed.

(** X27.  [get_supported_speakers_csv] returns the comma-joined names
    of [get_supported_speakers], with the same effect on the globals, and
    the string is empty exactly when there is no speaker: a caller can
    test the CSV for emptiness. *)
Theorem get_supported_speakers_csv_empty
    (cfg : config) (os : os_env) (w : world) (mode model_id : option string) (csv : string) :
  (get_supported_speakers_csv cfg os mode model_id w).1 = Ok csv ->
  exists speakers,
    get_supported_speakers cfg os mode model_id w
    = (Ok speakers, (get_supported_speakers_csv cfg os mode model_id w).2)
    /\ csv = join_comma speakers
    /\ (csv = "" <-> speakers = []).
Proof.
  intros Hcsv.
  pose proof (get_supported_speakers_filtered cfg os w mode model_id) as Hnames.
  destruct (get_supported_speakers_csv cfg os mode model_id w) as [r w'] eqn:Hrun.
  cbn [fst snd] in Hcsv |- *. subst r.
  unfold get_supported_speakers_csv, bind in Hrun.
  destruct (get_supported_speakers cfg os mode model_id w) as [[speakers | e] w1];
    [| discriminate].
  unfold ret in Hrun. injection Hrun as <- <-.
  exists speakers. split; [reflexivity |]. split; [reflexivity |].
  destruct (Hnames speakers eq_refl) as [names ->].
  apply join_comma_empty, Forall_forall. intros speaker Hin.
  apply list_elem_of_filter in Hin as [Ht _]. by apply str_truthy_true.
Qed.

Lemma get_supported_speakers_csv_empty_witness :
  exists speakers,
    get_supported_speakers (config_of_env env_bare) env_bare (Some "custom_voice") None
      world_blank_speaker
    = (Ok speakers,
       (get_supported_speakers_csv (config_of_env env_bare) env_bare (Some "custom_voice") None
          world_blank_speaker).2)
    /\ "ryan,serena" = join_comma speakers
    /\ ("ryan,serena" = "" <-> speakers = []).
Proof.
  apply (get_supported_speakers_csv_empty (config_of_env env_bare) env_bare
           world_blank_speaker (Some "custom_voice") None "ryan,serena").
  reflexivity.
Defined.

(** ** Custom voice *)

Lemma generate_custom_voice_calls
    (cfg : config) (w : world) (text speaker instruct language : string)
    (model : handle) (method : kwargs -> res pyval) (chosen : string) :
  _QWEN_MODEL w = Some model ->
  generate_custom_voice model = Some method ->
  custom_voice_speaker cfg model speaker = Ok chosen ->
  let base := [("text", text); ("language", language); ("speaker", chosen)] in
  let kw := if str_truthy instruct then base ++ [("instruct", instruct)] else base in
  (_generate_custom_voice cfg text speaker instruct language w).1
  = match method kw with
    | Raise TypeError => let? output := method base in encode_output output
    | answer => let? output := answer in encode_output output
    end
  /\ trace (_generate_custom_voice cfg text speaker instruct language w).2
     = trace w ++ speakers_query model
         ++ EvGenerate "generate_custom_voice" kw
            :: match method kw with
               | Raise TypeError => [EvGenerate "generate_custom_voice" base]
               | _ => []
               end.
Proof.
  intros Hmodel Hmethod Hspeaker base kw.
  destruct (_generate_custom_voice cfg text speaker instruct language w) as [r w'] eqn:Hrun.
  unfold _generate_custom_voice, bind at 1, get at 1 in Hrun.
  rewrite Hmodel, Hmethod in Hrun.
  unfold custom_voice_speaker in Hspeaker. unfold speakers_query.
  assert (Hcall : forall w0 : world,
            bind (fun w1 =>
                    match call_method (Some method) "generate_custom_voice" kw w1 with
                    | (Raise TypeError, w2) =>
                        call_method (Some method) "generate_custom_voice" base w2
                    | other => other
                    end)
              (fun output => lift (encode_output output)) w0 = (r, w') ->
            r = match method kw with
                | Raise TypeError => let? output := method base in encode_output output
                | answer => let? output := answer in encode_output output
                end
            /\ trace w'
               = trace w0
                   ++ EvGenerate "generate_custom_voice" kw
                      :: match method kw with
                         | Raise TypeError => [EvGenerate "generate_custom_voice" base]
                         | _ => []
                         end).
  { intros w0 H. unfold call_method, bind, emit, lift in H. cbn in H.
    destruct (method kw) as [output | e].
    - injection H as <- <-. by split.
    - destruct e; try (injection H as <- <-; by split).
      destruct (method base) as [output | e]; injection H as <- <-;
        cbn [trace res_bind]; by rewrite <- app_assoc. }
  cbn [fst snd].
  destruct (supported_speakers model) as [[supported | e] |]; cbn [res_bind] in Hspeaker.
  - injection Hspeaker as Hchosen.
    unfold bind at 1 in Hrun. unfold bind at 1, emit at 1 in Hrun.
    unfold bind at 1, lift at 1 in Hrun.
    assert (Hpick : forall w1 : world,
              match supported with
              | [] => ret (py_lower (str_or speaker (DEFAULT_SPEAKER cfg)))
              | first :: _ =>
                  if bool_decide (py_lower (str_or speaker (DEFAULT_SPEAKER cfg)) ∈ supported)
                  then ret (py_lower (str_or speaker (DEFAULT_SPEAKER cfg)))
                  else ret first
              end w1 = (Ok chosen, w1)).
    { intros w1. rewrite <- Hchosen. destruct supported as [| first others]; [reflexivity |].
      by destruct (bool_decide (py_lower (str_or speaker (DEFAULT_SPEAKER cfg))
                                  ∈ first :: others)). }
    rewrite Hpick in Hrun. fold base in Hrun. fold kw in Hrun.
    destruct (Hcall _ Hrun) as [Hr Ht]. split; [exact Hr |].
    rewrite Ht. cbn [trace]. by rewrite <- app_assoc.
  - discriminate.
  - injection Hspeaker as Hchosen.
    unfold bind at 1, ret at 1 in Hrun. rewrite Hchosen in Hrun.
    fold base in Hrun. fold kw in Hrun.
    destruct (Hcall _ Hrun) as [Hr Ht]. by split.
Qed.

(** X11.  When the loaded model publishes a non-empty speaker list,
    [_generate_custom_voice] asks the model for that list and then calls
    [generate_custom_voice] with a speaker of the list: the requested one,
    lower-cased, when it is listed, and the first listed speaker when it
    is not.  The call (and its one repetition after a [TypeError]) is made
    with exactly that speaker. *)
Theorem custom_voice_speaker_supported
    (cfg : config) (w : world) (text speaker instruct language : string)
    (model : handle) (supported : list string) (method : kwargs -> res pyval) :
  _QWEN_MODEL w = Some model ->
  supported_speakers model = Some (Ok supported) ->
  supported <> [] ->
  generate_custom_voice model = Some method ->
  let requested := py_lower (str_or speaker (DEFAULT_SPEAKER cfg)) in
  exists chosen,
    chosen ∈ supported
    /\ (requested ∈ supported -> chosen = requested)
    /\ (requested ∉ supported -> head supported = Some chosen)
    /\ let base := [("text", text); ("language", language); ("speaker", chosen)] in
       let kw := if str_truthy instruct then base ++ [("instruct", instruct)] else base in
       trace (_generate_custom_voice cfg text speaker instruct language w).2
       = trace w
           ++ EvSpeakers
              :: EvGenerate "generate_custom_voice" kw
              :: match method kw with
                 | Raise TypeError => [EvGenerate "generate_custom_voice" base]
                 | _ => []
                 end.
Proof.
  intros Hmodel Hsup Hne Hmethod requested.
  destruct supported as [| first others]; [done |].
  set (chosen := if bool_decide (requested ∈ first :: others) then requested else first).
  assert (Hspeaker : custom_voice_speaker cfg model speaker = Ok chosen).
  { unfold custom_voice_speaker. by rewrite Hsup. }
  exists chosen. split; [| split; [| split]].
  - subst chosen. destruct (bool_decide (requested ∈ first :: others)) eqn:Hd.
    + by apply bool_decide_eq_true in Hd.
    + by left.
  - intros Hin. subst chosen. by rewrite bool_decide_eq_true_2.
  - intros Hnot. subst chosen. by rewrite bool_decide_eq_false_2.
  - cbv zeta.
    destruct (generate_custom_voice_calls cfg w text speaker instruct language model method
                chosen Hmodel Hmethod Hspeaker) as [_ Htrace].
    cbv zeta in Htrace. rewrite Htrace. unfold speakers_query. by rewrite Hsup.
Qed.

Lemma custom_voice_speaker_supported_witness :
  trace (_generate_custom_voice (config_of_env env_bare) "hello" "Vivian" "" "English"
           world_custom_voice).2
  = [EvSpeakers;
     EvGenerate "generate_custom_voice"
       [("text", "hello"); ("language", "English"); ("speaker", "ryan")]].
Proof.
  destruct (custom_voice_speaker_supported (config_of_env env_bare) world_custom_voice
              "hello" "Vivian" "" "English" ryan_serena_model ["ryan"; "serena"]
              (fun _ => Ok (PyDict [("wav", PyList [PyFloat f_zero]);
                                    ("sampling_rate", PyInt 24000)])))
    as (chosen & _ & _ & Hfirst & Htrace).
  - reflexivity.
  - reflexivity.
  - discriminate.
  - reflexivity.
  - assert (Hnot : "vivian" ∉ ["ryan"; "serena"]).
    { apply (bool_decide_eq_false_1 ("vivian" ∈ ["ryan"; "serena"])). reflexivity. }
    injection (Hfirst Hnot) as <-. exact Htrace.
Defined.

(** X12.  A [TypeError] raised by [generate_custom_voice] is retried
    exactly once, with the same text, language and speaker and without
    [instruct]; what the second call returns or raises is the result.
    This holds for every loaded model with the method whose speaker
    query, if it has one, returns. *)
Theorem custom_voice_retries_without_instruct
    (cfg : config) (w : world) (text speaker instruct language : string)
    (model : handle) (method : kwargs -> res pyval) (chosen : string) :
  _QWEN_MODEL w = Some model ->
  generate_custom_voice model = Some method ->
  custom_voice_speaker cfg model speaker = Ok chosen ->
  let base := [("text", text); ("language", language); ("speaker", chosen)] in
  let kw := if str_truthy instruct then base ++ [("instruct", instruct)] else base in
  method kw = Raise TypeError ->
  (_generate_custom_voice cfg text speaker instruct language w).1
  = (let? output := method base in encode_output output)
  /\ trace (_generate_custom_voice cfg text speaker instruct language w).2
     = trace w ++ speakers_query model
         ++ [EvGenerate "generate_custom_voice" kw; EvGenerate "generate_custom_voice" base].
Proof.
  intros Hmodel Hmethod Hspeaker base kw Hfirst.
  destruct (generate_custom_voice_calls cfg w text speaker instruct language model method
              chosen Hmodel Hmethod Hspeaker) as [Hresult Htrace].
  cbv zeta in Hresult, Htrace. fold base in Hresult, Htrace. fold kw in Hresult, Htrace.
  rewrite Hfirst in Hresult, Htrace. by split.
Qed.

Lemma custom_voice_retries_without_instruct_witness :
  (_generate_custom_voice (config_of_env env_bare) "hello" "Vivian" "cheerful" "English"
     world_legacy).1
  = Ok (Some [x52; x49])
  /\ trace (_generate_custom_voice (config_of_env env_bare) "hello" "Vivian" "cheerful"
              "English" world_legacy).2
     = [EvSpeakers;
        EvGenerate "generate_custom_voice"
          [("text", "hello"); ("language", "English"); ("speaker", "ryan");
           ("instruct", "cheerful")];
        EvGenerate "generate_custom_voice"
          [("text", "hello"); ("language", "English"); ("speaker", "ryan")]].
Proof.
  apply (custom_voice_retries_without_instruct (config_of_env env_bare) world_legacy
           "hello" "Vivian" "cheerful" "English" legacy_model
           (fun kw =>
              match kw_get kw "instruct" with
              | Some _ => Raise TypeError
              | None => Ok (py_bytes [x52; x49])
              end) "ryan").
  - reflexivity.
  - reflexivity.
  - reflexivity.
  - reflexivity.
Defined.

(** ** Voice cloning *)

Lemma clone_candidates_trace (model : handle) (candidates : list (string * kwargs))
    (w : world) :
  exists calls,
    trace (clone_candidates model candidates w).2 = trace w ++ calls
    /\ calls `sublist_of` map (fun c : string * kwargs => EvGenerate c.1 c.2) candidates
    /\ lifecycle (clone_candidates model candidates w).2 = lifecycle w.
Proof.
  revert w. induction candidates as [| [name kw] rest IH]; intros w; cbn [clone_candidates map].
  - exists []. by rewrite app_nil_r.
  - destruct (clone_method model name) as [method |].
    + unfold bind at 1. unfold emit at 1.
      set (w1 := {| _MODEL_LOADED := _MODEL_LOADED w; _QWEN_MODEL := _QWEN_MODEL w;
                    _QWEN_MODULE := _QWEN_MODULE w; _ACTIVE_MODE := _ACTIVE_MODE w;
                    _ACTIVE_MODEL_ID := _ACTIVE_MODEL_ID w; stdout := stdout w;
                    trace := trace w ++ [EvGenerate name kw] |}).
      assert (Hstop : forall r : res (option bytes),
                exists calls,
                  trace w1 = trace w ++ calls
                  /\ calls `sublist_of` EvGenerate name kw
                                          :: map (fun c : string * kwargs => EvGenerate c.1 c.2) rest
                  /\ lifecycle w1 = lifecycle w).
      { intros _. exists [EvGenerate name kw]. split; [reflexivity |]. split; [| reflexivity].
        apply sublist_skip, sublist_nil_l. }
      assert (Hnext : exists calls,
                trace (clone_candidates model rest w1).2 = trace w ++ calls
                /\ calls `sublist_of` EvGenerate name kw
                                        :: map (fun c : string * kwargs => EvGenerate c.1 c.2) rest
                /\ lifecycle (clone_candidates model rest w1).2 = lifecycle w).
      { destruct (IH w1) as (calls & Htrace & Hsub & Hlife).
        exists (EvGenerate name kw :: calls). split; [| split].
        - rewrite Htrace. subst w1. cbn [trace]. by rewrite <- app_assoc.
        - by apply sublist_skip.
        - by rewrite Hlife. }
      cbn [fst snd].
      destruct (let? output := method kw in encode_output output) as [[wav |] | e].
      * apply (Hstop (Ok (Some wav))).
      * exact Hnext.
      * destruct e; first [exact Hnext | apply (Hstop (Ok None))].
    + destruct (IH w) as (calls & Htrace & Hsub & Hlife).
      exists calls. split; [exact Htrace |]. split; [by apply sublist_cons | exact Hlife].
Qed.

(** X13.  [_generate_voice_clone] with a model present writes the
    reference audio to a temporary file first and removes that file last,
    whether it returns audio, returns [None] or raises.  In between it
    makes at most three calls, a subsequence of: [generate_voice_clone]
    with [reference_audio], [generate_voice_clone] with [prompt_audio],
    [generate_base] with [prompt_audio], each with the text, the language
    and the path of the temporary file.  The lifecycle globals are left
    alone. *)
Theorem voice_clone_removes_temp_file
    (os : os_env) (w : world) (text : string) (reference_audio : bytes) (language : string)
    (model : handle) (reference_path : string) :
  _QWEN_MODEL w = Some model ->
  mktemp os = Ok reference_path ->
  reference_path <> "" ->
  exists calls,
    trace (_generate_voice_clone os text reference_audio language w).2
    = trace w ++ [EvTempWrite reference_path reference_audio] ++ calls
        ++ [EvTempRemove reference_path]
    /\ calls `sublist_of`
         [ EvGenerate "generate_voice_clone"
             [("text", text); ("language", language); ("reference_audio", reference_path)];
           EvGenerate "generate_voice_clone"
             [("text", text); ("language", language); ("prompt_audio", reference_path)];
           EvGenerate "generate_base"
             [("text", text); ("language", language); ("prompt_audio", reference_path)] ]
    /\ lifecycle (_generate_voice_clone os text reference_audio language w).2 = lifecycle w.
Proof.
  intros Hmodel Htemp Hpath. apply str_truthy_true in Hpath.
  destruct (_generate_voice_clone os text reference_audio language w) as [r w'] eqn:Hrun.
  unfold _generate_voice_clone, bind at 1, get at 1 in Hrun. rewrite Hmodel, Htemp in Hrun.
  unfold bind at 1, emit at 1 in Hrun. rewrite Hpath in Hrun.
  match type of Hrun with
  | context [clone_candidates model ?c ?w0] =>
      destruct (clone_candidates_trace model c w0) as (calls & Htrace & Hsub & Hlife);
      destruct (clone_candidates model c w0) as [result w2]
  end.
  cbn [snd trace] in Htrace. unfold lifecycle in Hlife. cbn in Hlife.
  unfold bind, emit, lift in Hrun. injection Hrun as <- <-.
  exists calls. cbn [snd trace]. split; [| split; [exact Hsub | exact Hlife]].
  rewrite Htrace. by rewrite <- !app_assoc.
Qed.

Lemma voice_clone_removes_temp_file_witness :
  exists calls,
    trace (_generate_voice_clone env_bare "hello" [x52; x49] "English" world_failing_clone).2
    = trace world_failing_clone ++ [EvTempWrite "/tmp/reference.wav" [x52; x49]] ++ calls
        ++ [EvTempRemove "/tmp/reference.wav"]
    /\ calls `sublist_of`
         [ EvGenerate "generate_voice_clone"
             [("text", "hello"); ("language", "English");
              ("reference_audio", "/tmp/reference.wav")];
           EvGenerate "generate_voice_clone"
             [("text", "hello"); ("language", "English");
              ("prompt_audio", "/tmp/reference.wav")];
           EvGenerate "generate_base"
             [("text", "hello"); ("language", "English");
              ("prompt_audio", "/tmp/reference.wav")] ]
    /\ lifecycle (_generate_voice_clone env_bare "hello" [x52; x49] "English"
                    world_failing_clone).2
       = lifecycle world_failing_clone.
Proof.
  apply (voice_clone_removes_temp_file env_bare world_failing_clone "hello" [x52; x49]
           "English" failing_clone_model "/tmp/reference.wav").
  - reflexivity.
  - reflexivity.
  - discriminate.
Defined.

(** ** Sample containers *)

Lemma flatten_list (items : list pyval) :
  _flatten_numeric_samples (PyList items) = flatten_items items.
Proof. reflexivity. Qed.

Lemma flatten_tuple (items : list pyval) :
  _flatten_numeric_samples (PyTuple items) = flatten_items items.
Proof. reflexivity. Qed.

Lemma flatten_items_cons (item : pyval) (rest : list pyval) :
  flatten_items (item :: rest)
  = let? head := _flatten_numeric_samples item in
    let? tail := flatten_items rest in
    Ok (head ++ tail).
Proof. reflexivity. Qed.

Lemma flatten_items_app (a b : list pyval) :
  flatten_items (a ++ b)
  = let? x := flatten_items a in
    let? y := flatten_items b in
    Ok (x ++ y).
Proof.
  induction a as [| item a IH].
  - cbn [app]. change (flatten_items []) with (@Ok (list pyfloat) []). cbn [res_bind].
    by destruct (flatten_items b).
  - cbn [app]. rewrite !flatten_items_cons, IH.
    destruct (_flatten_numeric_samples item) as [h |]; cbn [res_bind]; [| reflexivity].
    destruct (flatten_items a) as [x |]; cbn [res_bind]; [| reflexivity].
    destruct (flatten_items b) as [y |]; cbn [res_bind]; [| reflexivity].
    by rewrite app_assoc.
Qed.

Lemma flatten_items_one_level (items acc : list pyval) :
  flatten_items
    (fold_left
       (fun flattened item =>
          match item with
          | PyList l | PyTuple l => flattened ++ l
          | _ => flattened ++ [item]
          end) items acc)
  = let? x := flatten_items acc in
    let? y := flatten_items items in
    Ok (x ++ y).
Proof.
  revert acc. induction items as [| item items IH]; intros acc; cbn [fold_left].
  - change (flatten_items []) with (@Ok (list pyfloat) []).
    destruct (flatten_items acc); cbn [res_bind]; by rewrite ?app_nil_r.
  - rewrite IH, flatten_items_cons.
    assert (Hitem : flatten_items
                      match item with
                      | PyList l | PyTuple l => acc ++ l
                      | _ => acc ++ [item]
                      end
                    = let? x := flatten_items acc in
                      let? h := _flatten_numeric_samples item in
                      Ok (x ++ h)).
    { destruct item; rewrite flatten_items_app, ?flatten_list, ?flatten_tuple;
        try reflexivity;
        rewrite flatten_items_cons;
        change (flatten_items []) with (@Ok (list pyfloat) []);
        destruct (flatten_items acc); cbn [res_bind]; try reflexivity;
        match goal with
        | |- context [_flatten_numeric_samples ?v] =>
            destruct (_flatten_numeric_samples v); cbn [res_bind]; by rewrite ?app_nil_r
        end. }
    rewrite Hitem.
    destruct (flatten_items acc) as [x |]; cbn [res_bind]; [| reflexivity].
    destruct (_flatten_numeric_samples item) as [h |]; cbn [res_bind]; [| reflexivity].
    destruct (flatten_items items) as [y |]; cbn [res_bind]; [| reflexivity].
    by rewrite app_assoc.
Qed.

Lemma flatten_unbatch (data : pyval) :
  (forall items, data = PyList items \/ data = PyTuple items ->
     _flatten_numeric_samples (unbatch data) = flatten_items items)
  /\ (plain data = true ->
      _flatten_numeric_samples (unbatch data) = _flatten_numeric_samples data).
Proof.
  assert (Hlist : forall items,
            _flatten_numeric_samples (unbatch (PyList items)) = flatten_items items).
  { intros [| first rest]; [reflexivity |].
    unfold unbatch. destruct (is_list_or_tuple first) eqn:Hfirst; [| reflexivity].
    destruct rest as [| second rest].
    - rewrite flatten_items_cons. change (flatten_items []) with (@Ok (list pyfloat) []).
      destruct (_flatten_numeric_samples first); cbn [res_bind]; by rewrite ?app_nil_r.
    - rewrite flatten_list, flatten_items_one_level.
      change (flatten_items []) with (@Ok (list pyfloat) []). cbn [res_bind].
      by destruct (flatten_items (first :: second :: rest)). }
  split.
  - intros items [-> | ->]; [apply Hlist | apply (Hlist items)].
  - intros Hplain. destruct data; try reflexivity; try discriminate.
    + apply Hlist.
    + apply (Hlist items).
Qed.

Lemma normalize_unbatch (data : pyval) :
  _normalize_samples data
  = unbatch match data with
            | PyObj o =>
                match detach_numpy o with
                | Returning (PyObj a) =>
                    match tolist a with Returning v => v | _ => data end
                | Returning _ | Raising _ => data
                | Absent =>
                    match tolist o with Returning v => v | _ => data end
                end
            | _ => data
            end.
Proof. reflexivity. Qed.

Lemma flatten_converted (v : pyval) :
  plain v = true ->
  _flatten_numeric_samples v
  = match v with
    | PyList items | PyTuple items => flatten_items items
    | _ => let? f := py_float v in Ok [f]
    end.
Proof. destruct v; intros H; try reflexivity; discriminate. Qed.

(** X14.  [_normalize_samples] does not change what
    [_flatten_numeric_samples] makes of a value, provided a [tolist]
    conversion does not itself yield a foreign object: unwrapping a
    single-item batch, or flattening a batch by one level, keeps the
    samples and their order.  The generators' call
    [_to_wav_bytes(_normalize_samples(payload), sr)] therefore encodes
    exactly what [_to_wav_bytes(payload, sr)] would. *)
Theorem normalize_keeps_samples (data : pyval) (sample_rate : Z) :
  converts_to_plain data ->
  _flatten_numeric_samples (_normalize_samples data) = _flatten_numeric_samples data
  /\ _to_wav_bytes (_normalize_samples data) sample_rate = _to_wav_bytes data sample_rate.
Proof.
  intros Hconv.
  assert (Hflat : _flatten_numeric_samples (_normalize_samples data)
                  = _flatten_numeric_samples data).
  { rewrite normalize_unbatch.
    destruct data as [| b | z | f | items | items | entries | o];
      try (apply flatten_unbatch; reflexivity).
    cbn [converts_to_plain] in Hconv.
    assert (Hsame : _flatten_numeric_samples (unbatch (PyObj o))
                    = _flatten_numeric_samples (PyObj o)) by reflexivity.
    destruct (detach_numpy o) as [| e | [| | | | | | | a]] eqn:Hdetach; try exact Hsame.
    - destruct (tolist o) as [| e | v] eqn:Htolist; try exact Hsame.
      rewrite (proj2 (flatten_unbatch v) Hconv).
      rewrite (flatten_converted v Hconv).
      cbn [_flatten_numeric_samples]. rewrite Hdetach, Htolist.
      by destruct v.
    - destruct (tolist a) as [| e | v] eqn:Htolist; try exact Hsame.
      rewrite (proj2 (flatten_unbatch v) Hconv).
      rewrite (flatten_converted v Hconv).
      cbn [_flatten_numeric_samples]. rewrite Hdetach, Htolist.
      by destruct v. }
  split; [exact Hflat |].
  unfold _to_wav_bytes. by rewrite Hflat.
Qed.

Lemma normalize_keeps_samples_witness :
  _to_wav_bytes
    (_normalize_samples (py_tensor (PyList [PyTuple [PyFloat f_zero; PyFloat f_one]])))
    24000
  = _to_wav_bytes (py_tensor (PyList [PyTuple [PyFloat f_zero; PyFloat f_one]])) 24000.
Proof.
  apply (normalize_keeps_samples
           (py_tensor (PyList [PyTuple [PyFloat f_zero; PyFloat f_one]])) 24000).
  reflexivity.
Defined.

(** ** Synthesis without fallback *)

(** X15.  The [sample_rate] argument of the synthesis entry points only
    serves the silent fallback.  With fallback off it has no effect at
    all: result, exceptions and globals are the same for any two rates.
    Audio that a model produces is encoded at the model's own rate. *)
Theorem synthesis_ignores_sample_rate
    (cfg : config) (os : os_env) (w : world) (text speaker instruct language model_id : string)
    (reference_audio : bytes) (rate1 rate2 : Z) :
  _ALLOW_FALLBACK cfg = false ->
  synthesize_voice_design cfg os text instruct language rate1 model_id w
  = synthesize_voice_design cfg os text instruct language rate2 model_id w
  /\ synthesize_custom_voice cfg os text speaker instruct language rate1 model_id w
     = synthesize_custom_voice cfg os text speaker instruct language rate2 model_id w
  /\ synthesize_voice_clone cfg os text reference_audio language rate1 model_id w
     = synthesize_voice_clone cfg os text reference_audio language rate2 model_id w.
Proof.
  intros Hfb.
  unfold synthesize_voice_design, synthesize_custom_voice, synthesize_voice_clone.
  rewrite Hfb. auto.
Qed.

Lemma synthesis_ignores_sample_rate_witness :
  synthesize_custom_voice (config_of_env env_bare) env_bare "hello" "ryan" "" "" 8000 ""
    world_custom_voice
  = synthesize_custom_voice (config_of_env env_bare) env_bare "hello" "ryan" "" "" 48000 ""
      world_custom_voice.
Proof.
  destruct (synthesis_ignores_sample_rate (config_of_env env_bare) env_bare world_custom_voice
              "hello" "ryan" "" "" "" [] 8000 48000) as (_ & H & _).
  - reflexivity.
  - exact H.
Defined.



(** X17.  With fallback off, an entry point whose generator yields no
    audio raises the [RuntimeError] of its own mode, whatever happened
    during loading; it never returns silence. *)
Theorem synthesis_failure_without_fallback
    (cfg : config) (os : os_env) (w : world) (text : string) (sample_rate : Z) :
  _ALLOW_FALLBACK cfg = false ->
  whitespace_only text = false ->
  (forall instruct language model_id rm w1 w2,
      _resolve_model "voice_design" (Some model_id) = Ok rm ->
      _ensure_loaded cfg os "voice_design" rm w = (Ok true, w1) ->
      _generate_voice_design text (str_or instruct "")
        (str_or language (DEFAULT_LANGUAGE cfg)) w1 = (Ok None, w2) ->
      synthesize_voice_design cfg os text instruct language sample_rate model_id w
      = (Raise (RuntimeError "Qwen3-TTS VoiceDesign synthesis failed"), w2))
  /\ (forall speaker instruct language model_id rm w1 w2,
        _resolve_model "custom_voice" (Some model_id) = Ok rm ->
        _ensure_loaded cfg os "custom_voice" rm w = (Ok true, w1) ->
        _generate_custom_voice cfg text (str_or speaker (DEFAULT_SPEAKER cfg)) instruct
          (str_or language (DEFAULT_LANGUAGE cfg)) w1 = (Ok None, w2) ->
        synthesize_custom_voice cfg os text speaker instruct language sample_rate model_id w
        = (Raise (RuntimeError "Qwen3-TTS CustomVoice synthesis failed"), w2))
  /\ (forall reference_audio language model_id rm w1 w2,
        reference_audio <> [] ->
        _resolve_model "voice_clone" (Some model_id) = Ok rm ->
        _ensure_loaded cfg os "voice_clone" rm w = (Ok true, w1) ->
        _generate_voice_clone os text reference_audio
          (str_or language (DEFAULT_LANGUAGE cfg)) w1 = (Ok None, w2) ->
        synthesize_voice_clone cfg os text reference_audio language sample_rate model_id w
        = (Raise (RuntimeError "Qwen3-TTS VoiceClone synthesis failed"), w2)).
Proof.
  intros Hfb Htext. split; [| split].
  - intros instruct language model_id rm w1 w2 Hres Hload Hgen.
    unfold synthesize_voice_design.
    rewrite text_is_blank_whitespace_only, Htext. cbv zeta. rewrite Hres.
    unfold bind at 1. unfold lift at 1. unfold bind at 1. rewrite Hload.
    cbn [negb]. unfold bind at 1. by rewrite Hgen, Hfb.
  - intros speaker instruct language model_id rm w1 w2 Hres Hload Hgen.
    unfold synthesize_custom_voice.
    rewrite text_is_blank_whitespace_only, Htext. cbv zeta. rewrite Hres.
    unfold bind at 1. unfold lift at 1. unfold bind at 1. rewrite Hload.
    cbn [negb]. unfold bind at 1. by rewrite Hgen, Hfb.
  - intros reference_audio language model_id rm w1 w2 Href Hres Hload Hgen.
    unfold synthesize_voice_clone.
    rewrite text_is_blank_whitespace_only, Htext.
    destruct reference_audio as [| b0 rest]; [done |].
    cbv zeta. rewrite Hres.
    unfold bind at 1. unfold lift at 1. unfold bind at 1. rewrite Hload.
    cbn [negb]. unfold bind at 1. by rewrite Hgen, Hfb.
Qed.

Lemma synthesis_failure_without_fallback_witness :
  (synthesize_voice_design (config_of_env env_bare) env_bare "hello" "" "" 24000 ""
     world_speechless).1
  = Raise (RuntimeError "Qwen3-TTS VoiceDesign synthesis failed").
Proof.
  destruct (synthesis_failure_without_fallback (config_of_env env_bare) env_bare
              world_speechless "hello" 24000) as (H & _ & _).
  - reflexivity.
  - reflexivity.
  - erewrite (H "" "" "" DEFAULT_VOICE_DESIGN_MODEL); reflexivity.
Defined.

(** X18.  [synthesize_voice_clone] validates before it does anything
    else: empty reference audio raises [ValueError] with nothing loaded,
    no temporary file written and the globals as they were; a blank text
    is reported first. *)
Theorem voice_clone_rejects_empty_reference
    (cfg : config) (os : os_env) (w : world) (text language : string) (sample_rate : Z)
    (model_id : string) :
  synthesize_voice_clone cfg os text [] language sample_rate model_id w
  = (Raise (ValueError (if whitespace_only text then "text must not be empty"
                        else "reference_audio must not be empty")), w).
Proof.
  unfold synthesize_voice_clone. rewrite text_is_blank_whitespace_only.
  by destruct (whitespace_only text).
Qed.

(** ** Generation leaves the lifecycle alone *)

Lemma generate_voice_design_frame (text instruct language : string) (w : world) :
  lifecycle (_generate_voice_design text instruct language w).2 = lifecycle w
  /\ attempts (trace (_generate_voice_design text instruct language w).2)
     = attempts (trace w).
Proof.
  destruct (_generate_voice_design text instruct language w) as [r w'] eqn:Hrun.
  unfold _generate_voice_design, bind at 1, get at 1 in Hrun.
  destruct (_QWEN_MODEL w) as [model |] eqn:Hmodel.
  - unfold call_method in Hrun. destruct (generate_voice_design model) as [f |].
    + unfold bind, emit, lift, raise in Hrun.
      destruct (f _) in Hrun; injection Hrun as <- <-; cbn [snd trace];
        rewrite attempts_app; cbn; rewrite app_nil_r; split; try reflexivity;
        unfold lifecycle; cbn; by rewrite Hmodel.
    + unfold bind, raise in Hrun. by injection Hrun as <- <-.
  - unfold ret in Hrun. by injection Hrun as <- <-.
Qed.

Lemma generate_custom_voice_frame (cfg : config) (text speaker instruct language : string)
    (w : world) :
  lifecycle (_generate_custom_voice cfg text speaker instruct language w).2 = lifecycle w
  /\ attempts (trace (_generate_custom_voice cfg text speaker instruct language w).2)
     = attempts (trace w).
Proof.
  destruct (_generate_custom_voice cfg text speaker instruct language w) as [r w'] eqn:Hrun.
  unfold _generate_custom_voice, bind at 1, get at 1 in Hrun.
  destruct (_QWEN_MODEL w) as [model |] eqn:Hmodel;
    [| unfold ret in Hrun; by injection Hrun as <- <-].
  assert (Hframe : forall w0 : world,
            lifecycle w0 = lifecycle w -> attempts (trace w0) = attempts (trace w) ->
            forall (kw base : kwargs) (r0 : res (option bytes)) (w1 : world),
              bind (fun w1 =>
                      match call_method (generate_custom_voice model)
                              "generate_custom_voice" kw w1 with
                      | (Raise TypeError, w2) =>
                          call_method (generate_custom_voice model)
                            "generate_custom_voice" base w2
                      | other => other
                      end)
                (fun output => lift (encode_output output)) w0 = (r0, w1) ->
              lifecycle w1 = lifecycle w /\ attempts (trace w1) = attempts (trace w)).
  { intros w0 Hl Ha kw base r0 w1 Hcall.
    unfold call_method in Hcall. destruct (generate_custom_voice model) as [f |].
    - unfold bind, emit, lift, raise in Hcall. cbn in Hcall.
      destruct (f kw) as [output | e].
      + injection Hcall as <- <-. cbn [trace]. rewrite attempts_app. cbn.
        rewrite app_nil_r. by split.
      + destruct e; try (injection Hcall as <- <-; cbn [trace]; rewrite attempts_app; cbn;
                         rewrite app_nil_r; by split).
        destruct (f base); injection Hcall as <- <-; cbn [trace];
          rewrite !attempts_app; cbn; rewrite !app_nil_r; by split.
    - unfold bind, raise in Hcall. injection Hcall as <- <-. by split. }
  destruct (supported_speakers model) as [[supported | e] |].
  - unfold bind at 1 in Hrun. unfold bind at 1, emit at 1 in Hrun.
    unfold bind at 1, lift at 1 in Hrun.
    assert (Hpick : forall requested : string,
              exists chosen : string,
                match supported with
                | [] => ret requested
                | first :: _ =>
                    if bool_decide (requested ∈ supported) then ret requested else ret first
                end
                = (ret chosen : M string)).
    { intros requested. destruct supported as [| first others]; [by eexists |].
      destruct (bool_decide (requested ∈ first :: others)); by eexists. }
    destruct (Hpick (py_lower (str_or speaker (DEFAULT_SPEAKER cfg)))) as [chosen Hchosen].
    rewrite Hchosen in Hrun. unfold ret at 1 in Hrun.
    eapply Hframe; [| | exact Hrun].
    + reflexivity.
    + cbn [trace]. rewrite attempts_app. cbn. by rewrite app_nil_r.
  - unfold bind, emit, lift in Hrun. injection Hrun as <- <-.
    cbn [snd trace]. rewrite attempts_app. cbn. rewrite app_nil_r. by split.
  - unfold bind at 1, ret at 1 in Hrun. eapply Hframe; [| | exact Hrun]; reflexivity.
Qed.

Lemma sublist_generate_attempts (calls : list event) (cands : list (string * kwargs)) :
  calls `sublist_of` map (fun c : string * kwargs => EvGenerate c.1 c.2) cands ->
  attempts calls = [].
Proof.
  intros Hsub.
  assert (Hall : Forall (fun ev => exists name kw, ev = EvGenerate name kw) calls).
  { apply Forall_forall. intros ev Hin.
    apply (elem_of_sublist _ _ _ Hin) in Hsub. rename Hsub into Hin'. clear Hin.
    rename Hin' into Hin.
    apply list_elem_of_fmap in Hin as ([name kw] & -> & _). by eexists _, _. }
  clear Hsub. induction Hall as [| ev calls (name & kw & ->) _ IH]; [reflexivity | exact IH].
Qed.

Lemma generate_voice_clone_frame (os : os_env) (text : string) (reference_audio : bytes)
    (language : string) (w : world) :
  lifecycle (_generate_voice_clone os text reference_audio language w).2 = lifecycle w
  /\ attempts (trace (_generate_voice_clone os text reference_audio language w).2)
     = attempts (trace w).
Proof.
  destruct (_generate_voice_clone os text reference_audio language w) as [r w'] eqn:Hrun.
  unfold _generate_voice_clone, bind at 1, get at 1 in Hrun.
  destruct (_QWEN_MODEL w) as [model |] eqn:Hmodel;
    [| unfold ret in Hrun; by injection Hrun as <- <-].
  destruct (mktemp os) as [reference_path | e];
    [| unfold raise in Hrun; by injection Hrun as <- <-].
  unfold bind at 1, emit at 1 in Hrun.
  match type of Hrun with
  | context [clone_candidates model ?c ?w0] =>
      destruct (clone_candidates_trace model c w0) as (calls & Htrace & Hsub & Hlife);
      destruct (clone_candidates model c w0) as [result w2]
  end.
  cbn [snd trace] in Htrace. unfold lifecycle in Hlife. cbn in Hlife.
  apply sublist_generate_attempts in Hsub.
  destruct (str_truthy reference_path).
  - unfold bind, emit, lift in Hrun. injection Hrun as <- <-. cbn [snd trace].
    split; [exact Hlife |].
    rewrite Htrace, !attempts_app, Hsub. cbn. by rewrite !app_nil_r.
  - injection Hrun as <- <-. cbn [snd]. split; [exact Hlife |].
    rewrite Htrace, !attempts_app, Hsub. cbn. by rewrite !app_nil_r.
Qed.

Lemma after_generation_frame (cfg : config) (sample_rate : Z) (failure : string)
    (audio : option bytes) (w : world) :
  (after_generation cfg sample_rate failure audio w).2 = w.
Proof.
  unfold after_generation. destruct audio; [reflexivity |].
  by destruct (_ALLOW_FALLBACK cfg).
Qed.

Lemma ensured_generation_frame (cfg : config) (os : os_env) (mode rm : string)
    (generate : M (option bytes)) (finish : option bytes -> M bytes) (w : world) :
  loaded_with w mode rm ->
  (forall w0, lifecycle (generate w0).2 = lifecycle w0
              /\ attempts (trace (generate w0).2) = attempts (trace w0)) ->
  (forall audio w0, (finish audio w0).2 = w0) ->
  let after :=
    (bind (_ensure_loaded cfg os mode rm)
       (fun loaded =>
          if negb loaded
          then raise (RuntimeError "Qwen3-TTS runtime unavailable: failed to load model")
          else bind generate finish) w).2 in
  lifecycle after = lifecycle w /\ attempts (trace after) = attempts (trace w).
Proof.
  intros Hloaded Hgen Hfinish. cbv zeta.
  apply already_active_loaded_with in Hloaded.
  assert (Hrun : bind (_ensure_loaded cfg os mode rm)
                   (fun loaded =>
                      if negb loaded
                      then raise (RuntimeError
                                    "Qwen3-TTS runtime unavailable: failed to load model")
                      else bind generate finish) w
                 = bind generate finish w).
  { unfold bind at 1. by rewrite ensure_loaded_unfold, Hloaded. }
  rewrite Hrun. unfold bind. destruct (Hgen w) as [H1 H2].
  destruct (generate w) as [[audio | e] w1]; cbn [snd] in *.
  - by rewrite Hfinish.
  - by split.
Qed.

(** X19.  A synthesis call whose resolved pair is the active one never
    reloads: whatever the generator returns or raises, the lifecycle
    globals are those from before the call and no candidate is
    attempted. *)
Theorem synthesis_keeps_active_model
    (cfg : config) (os : os_env) (w : world) (text : string) (sample_rate : Z)
    (model_id resolved_model : string) :
  (forall instruct language,
      _resolve_model "voice_design" (Some model_id) = Ok resolved_model ->
      loaded_with w "voice_design" resolved_model ->
      let after :=
        (synthesize_voice_design cfg os text instruct language sample_rate model_id w).2 in
      lifecycle after = lifecycle w /\ attempts (trace after) = attempts (trace w))
  /\ (forall speaker instruct language,
        _resolve_model "custom_voice" (Some model_id) = Ok resolved_model ->
        loaded_with w "custom_voice" resolved_model ->
        let after :=
          (synthesize_custom_voice cfg os text speaker instruct language sample_rate
             model_id w).2 in
        lifecycle after = lifecycle w /\ attempts (trace after) = attempts (trace w))
  /\ (forall reference_audio language,
        _resolve_model "voice_clone" (Some model_id) = Ok resolved_model ->
        loaded_with w "voice_clone" resolved_model ->
        let after :=
          (synthesize_voice_clone cfg os text reference_audio language sample_rate
             model_id w).2 in
        lifecycle after = lifecycle w /\ attempts (trace after) = attempts (trace w)).
Proof.
  split; [| split].
  - intros instruct language Hres Hloaded. cbv zeta.
    unfold synthesize_voice_design. destruct (text_is_blank text); [by split |].
    cbv zeta. rewrite Hres. unfold bind at 1. unfold lift at 1.
    apply (ensured_generation_frame cfg os "voice_design" resolved_model
             (_generate_voice_design text (str_or instruct "")
                (str_or language (DEFAULT_LANGUAGE cfg)))
             (after_generation cfg sample_rate "Qwen3-TTS VoiceDesign synthesis failed") w
             Hloaded).
    + intros w0. apply generate_voice_design_frame.
    + intros audio w0. apply after_generation_frame.
  - intros speaker instruct language Hres Hloaded. cbv zeta.
    unfold synthesize_custom_voice. destruct (text_is_blank text); [by split |].
    cbv zeta. rewrite Hres. unfold bind at 1. unfold lift at 1.
    apply (ensured_generation_frame cfg os "custom_voice" resolved_model
             (_generate_custom_voice cfg text (str_or speaker (DEFAULT_SPEAKER cfg)) instruct
                (str_or language (DEFAULT_LANGUAGE cfg)))
             (after_generation cfg sample_rate "Qwen3-TTS CustomVoice synthesis failed") w
             Hloaded).
    + intros w0. apply generate_custom_voice_frame.
    + intros audio w0. apply after_generation_frame.
  - intros reference_audio language Hres Hloaded. cbv zeta.
    unfold synthesize_voice_clone. destruct (text_is_blank text); [by split |].
    destruct reference_audio as [| b0 rest]; [by split |].
    cbv zeta. rewrite Hres. unfold bind at 1. unfold lift at 1.
    apply (ensured_generation_frame cfg os "voice_clone" resolved_model
             (_generate_voice_clone os text (b0 :: rest)
                (str_or language (DEFAULT_LANGUAGE cfg)))
             (after_generation cfg sample_rate "Qwen3-TTS VoiceClone synthesis failed") w
             Hloaded).
    + intros w0. apply generate_voice_clone_frame.
    + intros audio w0. apply after_generation_frame.
Qed.

Lemma synthesis_keeps_active_model_witness :
  lifecycle (synthesize_custom_voice (config_of_env env_bare) env_bare "hello" "ryan" "" ""
               24000 "" world_custom_voice).2
  = lifecycle world_custom_voice.
Proof.
  destruct (synthesis_keeps_active_model (config_of_env env_bare) env_bare world_custom_voice
              "hello" 24000 "" DEFAULT_CUSTOM_VOICE_MODEL) as (_ & H & _).
  apply (H "ryan" "" "").
  - reflexivity.
  - repeat split; eauto.
Defined.

(** * Properties of the single-mode runner *)

Lemma bridge_debug_frame (cfg : TTMPythonBridge.config) (message : TTMPythonBridge.debug_line)
    (w : TTMPythonBridge.world) :
  (TTMPythonBridge._debug cfg message w).1 = Ok tt
  /\ bridge_state (TTMPythonBridge._debug cfg message w).2 = bridge_state w
  /\ TTMPythonBridge.trace (TTMPythonBridge._debug cfg message w).2 = TTMPythonBridge.trace w.
Proof. unfold TTMPythonBridge._debug. destruct (TTMPythonBridge._DEBUG cfg); auto. Qed.

Lemma bridge_create_model_frame (cfg : TTMPythonBridge.config) (os : os_env)
    (w : TTMPythonBridge.world) :
  bridge_state (TTMPythonBridge._create_model cfg os w).2 = bridge_state w.
Proof.
  unfold TTMPythonBridge._create_model, TTMPythonBridge._load_qwen_module,
    TTMPythonBridge.bind, TTMPythonBridge.get, TTMPythonBridge.ret, TTMPythonBridge.lift,
    TTMPythonBridge.set_module, TTMPythonBridge.emit, TTMPythonBridge._debug.
  destruct (TTMPythonBridge._QWEN_MODULE w) as [qm |]; cbn.
  - destruct (Qwen3TTSModel qm); cbn; auto.
    destruct (TTMPythonBridge._DEBUG cfg); cbn;
      match goal with |- context [match ?x with _ => _ end] => destruct x end; reflexivity.
  - destruct (import_qwen_tts os) as [qm |]; cbn; auto.
    destruct (Qwen3TTSModel qm); cbn; auto.
    destruct (TTMPythonBridge._DEBUG cfg); cbn;
      match goal with |- context [match ?x with _ => _ end] => destruct x end; reflexivity.
Qed.

Lemma bridge_load_model_reuse (cfg : TTMPythonBridge.config) (os : os_env)
    (w : TTMPythonBridge.world) (model : handle) :
  TTMPythonBridge._MODEL_LOADED w = true ->
  TTMPythonBridge._QWEN_MODEL w = Some model ->
  TTMPythonBridge.load_model cfg os w
  = (Ok true, (TTMPythonBridge._debug cfg TTMPythonBridge.LineAlreadyLoaded w).2).
Proof.
  intros Hloaded Hmodel. unfold TTMPythonBridge.load_model.
  unfold TTMPythonBridge.bind at 1, TTMPythonBridge.get at 1. rewrite Hloaded, Hmodel.
  cbn [andb]. unfold TTMPythonBridge.bind, TTMPythonBridge.ret.
  pose proof (bridge_debug_frame cfg TTMPythonBridge.LineAlreadyLoaded w) as (Hd & _).
  destruct (TTMPythonBridge._debug cfg TTMPythonBridge.LineAlreadyLoaded w) as [rd wd].
  cbn [fst] in Hd. by subst rd.
Qed.

Lemma bridge_load_model_create (cfg : TTMPythonBridge.config) (os : os_env)
    (w : TTMPythonBridge.world) :
  TTMPythonBridge._MODEL_LOADED w
  && match TTMPythonBridge._QWEN_MODEL w with Some _ => true | None => false end = false ->
  let after := TTMPythonBridge.load_model cfg os w in
  match (TTMPythonBridge._create_model cfg os w).1 with
  | Ok (Some model) => after.1 = Ok true /\ bridge_state after.2 = (true, Some model)
  | Ok None =>
      after.1 = Ok (TTMPythonBridge._ALLOW_FALLBACK cfg)
      /\ bridge_state after.2 = (false, None)
  | Raise e => after.1 = Raise e /\ bridge_state after.2 = bridge_state w
  end.
Proof.
  intros Hnot. cbv zeta.
  destruct (TTMPythonBridge.load_model cfg os w) as [r w'] eqn:Hrun.
  unfold TTMPythonBridge.load_model in Hrun.
  unfold TTMPythonBridge.bind at 1, TTMPythonBridge.get at 1 in Hrun.
  rewrite Hnot in Hrun.
  pose proof (bridge_create_model_frame cfg os w) as Hframe.
  unfold TTMPythonBridge.bind at 1 in Hrun.
  destruct (TTMPythonBridge._create_model cfg os w) as [[[model |] | e] w1];
    cbn [fst snd] in *.
  - unfold TTMPythonBridge.bind, TTMPythonBridge.set_model, TTMPythonBridge.ret,
      TTMPythonBridge._debug in Hrun.
    destruct (TTMPythonBridge._DEBUG cfg); injection Hrun as <- <-; by split.
  - unfold TTMPythonBridge.bind, TTMPythonBridge.set_model, TTMPythonBridge.ret,
      TTMPythonBridge._debug in Hrun.
    destruct (TTMPythonBridge._DEBUG cfg); injection Hrun as <- <-; by split.
  - injection Hrun as <- <-. by split.
Qed.

(** X20.  [load_model] of the single-mode runner: with the loaded flag
    set and a handle present it returns [True] and touches nothing;
    otherwise it instantiates once, and either stores the handle and
    returns [True], or (no handle) clears both globals and returns the
    fallback flag, so that with fallback allowed it reports success while
    [is_model_loaded] stays [False], or lets the constructor's exception
    through with both globals as they were. *)
Theorem bridge_load_model_outcomes
    (cfg : TTMPythonBridge.config) (os : os_env) (w : TTMPythonBridge.world) :
  let after := TTMPythonBridge.load_model cfg os w in
  match bridge_state w with
  | (true, Some _) =>
      after.1 = Ok true /\ bridge_state after.2 = bridge_state w
      /\ TTMPythonBridge.trace after.2 = TTMPythonBridge.trace w
  | _ =>
      match (TTMPythonBridge._create_model cfg os w).1 with
      | Ok (Some model) => after.1 = Ok true /\ bridge_state after.2 = (true, Some model)
      | Ok None =>
          after.1 = Ok (TTMPythonBridge._ALLOW_FALLBACK cfg)
          /\ bridge_state after.2 = (false, None)
          /\ (TTMPythonBridge.is_model_loaded after.2).1 = Ok false
      | Raise e => after.1 = Raise e /\ bridge_state after.2 = bridge_state w
      end
  end.
Proof.
  cbv zeta. unfold bridge_state at 1.
  assert (Hcreate : TTMPythonBridge._MODEL_LOADED w
                    && match TTMPythonBridge._QWEN_MODEL w with
                       | Some _ => true
                       | None => false
                       end = false ->
            match (TTMPythonBridge._create_model cfg os w).1 with
            | Ok (Some model) =>
                (TTMPythonBridge.load_model cfg os w).1 = Ok true
                /\ bridge_state (TTMPythonBridge.load_model cfg os w).2 = (true, Some model)
            | Ok None =>
                (TTMPythonBridge.load_model cfg os w).1
                = Ok (TTMPythonBridge._ALLOW_FALLBACK cfg)
                /\ bridge_state (TTMPythonBridge.load_model cfg os w).2 = (false, None)
                /\ (TTMPythonBridge.is_model_loaded (TTMPythonBridge.load_model cfg os w).2).1
                   = Ok false
            | Raise e =>
                (TTMPythonBridge.load_model cfg os w).1 = Raise e
                /\ bridge_state (TTMPythonBridge.load_model cfg os w).2 = bridge_state w
            end).
  { intros Hnot. pose proof (bridge_load_model_create cfg os w Hnot) as H. cbv zeta in H.
    destruct ((TTMPythonBridge._create_model cfg os w).1) as [[model |] | e]; try exact H.
    destruct H as [H1 H2]. split; [exact H1 |]. split; [exact H2 |].
    injection H2 as Hflag _.
    unfold TTMPythonBridge.is_model_loaded, TTMPythonBridge.bind, TTMPythonBridge.get,
      TTMPythonBridge.ret. cbn [fst]. by rewrite Hflag. }
  destruct (TTMPythonBridge._MODEL_LOADED w) eqn:Hloaded; [| by apply Hcreate].
  destruct (TTMPythonBridge._QWEN_MODEL w) as [model |] eqn:Hmodel; [| by apply Hcreate].
  rewrite (bridge_load_model_reuse cfg os w model Hloaded Hmodel). cbn [fst snd].
  pose proof (bridge_debug_frame cfg TTMPythonBridge.LineAlreadyLoaded w) as (_ & Hd2 & Hd3).
  split; [reflexivity |]. split; [| exact Hd3].
  rewrite Hd2. unfold bridge_state. by rewrite Hloaded, Hmodel.
Qed.

Lemma bridge_load_model_inv (cfg : TTMPythonBridge.config) (os : os_env)
    (w : TTMPythonBridge.world) :
  bridge_inv w -> bridge_inv (TTMPythonBridge.load_model cfg os w).2.
Proof.
  intros Hinv.
  assert (Hstate : forall w1 w2 : TTMPythonBridge.world,
            bridge_state w1 = bridge_state w2 -> bridge_inv w2 -> bridge_inv w1).
  { intros w1 w2 [= H1 H2] H. unfold bridge_inv. by rewrite H1, H2. }
  assert (Hset : forall (w1 : TTMPythonBridge.world) (b : bool) (m : option handle),
            bridge_state w1 = (b, m) ->
            b = match m with Some _ => true | None => false end -> bridge_inv w1).
  { intros w1 b m [= H1 H2] H. unfold bridge_inv. by rewrite H1, H2. }
  destruct (TTMPythonBridge._MODEL_LOADED w
            && match TTMPythonBridge._QWEN_MODEL w with Some _ => true | None => false end)
    eqn:Hguard.
  - apply andb_true_iff in Hguard as [Hloaded Hmodel].
    destruct (TTMPythonBridge._QWEN_MODEL w) as [model |] eqn:Hm; [| discriminate].
    rewrite (bridge_load_model_reuse cfg os w model Hloaded Hm). cbn [snd].
    pose proof (bridge_debug_frame cfg TTMPythonBridge.LineAlreadyLoaded w) as (_ & Hd & _).
    by apply (Hstate _ w).
  - pose proof (bridge_load_model_create cfg os w Hguard) as H. cbv zeta in H.
    destruct ((TTMPythonBridge._create_model cfg os w).1) as [[m |] | e];
      destruct H as [_ H];
      first [ by apply (Hset _ _ _ H) | by apply (Hstate _ w) ].
Qed.

Lemma bridge_encode_frame (output : pyval) (w : TTMPythonBridge.world) :
  (bridge_encode output w).2 = w.
Proof.
  unfold bridge_encode, TTMPythonBridge.bind, TTMPythonBridge.lift, TTMPythonBridge.ret.
  destruct (TTMPythonBridge._extract_audio_and_sample_rate output 24000)
    as [[payload sr] | e]; [| reflexivity].
  cbn [fst snd].
  destruct payload as [| | | | | | | o]; try reflexivity;
    try (destruct (TTMPythonBridge._to_wav_bytes _ sr); reflexivity).
  destruct (buffer o); [reflexivity |].
  destruct (TTMPythonBridge._to_wav_bytes _ sr); reflexivity.
Qed.

Lemma bridge_call_method_frame (method : option (kwargs -> res pyval)) (name : string)
    (kw : kwargs) (w : TTMPythonBridge.world) :
  let after :=
    TTMPythonBridge.bind (TTMPythonBridge.call_method method name kw) bridge_encode w in
  bridge_state after.2 = bridge_state w
  /\ TTMPythonBridge.trace after.2 = TTMPythonBridge.trace w ++ method_call method name kw.
Proof.
  cbv zeta.
  destruct (TTMPythonBridge.bind (TTMPythonBridge.call_method method name kw) bridge_encode w)
    as [r w'] eqn:Hrun.
  unfold TTMPythonBridge.call_method in Hrun. destruct method as [f |]; cbn [method_call].
  - unfold TTMPythonBridge.bind at 1 2, TTMPythonBridge.emit, TTMPythonBridge.lift in Hrun.
    destruct (f kw) as [output | e].
    + match type of Hrun with
      | bridge_encode output ?w0 = _ =>
          pose proof (bridge_encode_frame output w0) as Hframe; rewrite Hrun in Hframe
      end.
      cbn [snd] in Hframe. subst w'. cbn [snd]. by split.
    + injection Hrun as <- <-. cbn [snd]. by split.
  - unfold TTMPythonBridge.bind, TTMPythonBridge.raise in Hrun. injection Hrun as <- <-.
    cbn [snd]. split; [reflexivity | by rewrite app_nil_r].
Qed.

Lemma bridge_generate_cases (cfg : TTMPythonBridge.config) (text voice : string)
    (w : TTMPythonBridge.world) (model : handle) :
  TTMPythonBridge._QWEN_MODEL w = Some model ->
  TTMPythonBridge._generate_with_qwen cfg text voice w
  = if String.eqb (TTMPythonBridge._MODEL_MODE cfg) "voice_design" then
      TTMPythonBridge.bind
        (TTMPythonBridge.call_method (generate_voice_design model) "generate_voice_design"
           [("text", text); ("language", TTMPythonBridge._LANGUAGE cfg);
            ("instruct", str_or voice "")]) bridge_encode w
    else
      match supported_speakers model with
      | None =>
          TTMPythonBridge.bind
            (TTMPythonBridge.call_method (generate_custom_voice model) "generate_custom_voice"
               [("text", text); ("language", TTMPythonBridge._LANGUAGE cfg);
                ("speaker", py_lower (str_or voice (TTMPythonBridge._DEFAULT_SPEAKER cfg)))])
            bridge_encode w
      | Some (Raise e) => (Raise e, (TTMPythonBridge.emit EvSpeakers w).2)
      | Some (Ok supported) =>
          TTMPythonBridge.bind
            (TTMPythonBridge.call_method (generate_custom_voice model) "generate_custom_voice"
               [("text", text); ("language", TTMPythonBridge._LANGUAGE cfg);
                ("speaker",
                 match supported with
                 | first :: _ =>
                     if bool_decide
                          (py_lower (str_or voice (TTMPythonBridge._DEFAULT_SPEAKER cfg))
                             ∈ supported)
                     then py_lower (str_or voice (TTMPythonBridge._DEFAULT_SPEAKER cfg))
                     else first
                 | [] => py_lower (str_or voice (TTMPythonBridge._DEFAULT_SPEAKER cfg))
                 end)])
            bridge_encode (TTMPythonBridge.emit EvSpeakers w).2
      end.
Proof.
  intros Hmodel. unfold TTMPythonBridge._generate_with_qwen.
  unfold TTMPythonBridge.bind at 1, TTMPythonBridge.get at 1. rewrite Hmodel.
  destruct (String.eqb (TTMPythonBridge._MODEL_MODE cfg) "voice_design"); [reflexivity |].
  destruct (supported_speakers model) as [[supported | e] |]; try reflexivity.
  destruct supported as [| first others]; [reflexivity |].
  unfold TTMPythonBridge.bind, TTMPythonBridge.emit, TTMPythonBridge.lift,
    TTMPythonBridge.ret. cbn [fst snd].
  by destruct (bool_decide
                 (py_lower (str_or voice (TTMPythonBridge._DEFAULT_SPEAKER cfg))
                    ∈ first :: others)).
Qed.

(** X21.  [_generate_with_qwen] with a model present leaves the two
    lifecycle globals alone and makes exactly the calls of [bridge_calls].
    When the configured mode is exactly [voice_design] that is one
    [generate_voice_design] call with the voice as [instruct].  For any
    other mode, [voice_clone] included, it is one [generate_custom_voice]
    call, never with [instruct] and never repeated, preceded by a query of
    the model's speakers when the model can list them; the speaker passed
    is the lower-cased request if it is listed (or nothing is listed), and
    the first listed speaker otherwise.  A model without the method gets
    no call. *)
Theorem bridge_generation_calls
    (cfg : TTMPythonBridge.config) (w : TTMPythonBridge.world) (text voice : string)
    (model : handle) :
  TTMPythonBridge._QWEN_MODEL w = Some model ->
  let language := TTMPythonBridge._LANGUAGE cfg in
  let requested := py_lower (str_or voice (TTMPythonBridge._DEFAULT_SPEAKER cfg)) in
  bridge_state (TTMPythonBridge._generate_with_qwen cfg text voice w).2 = bridge_state w
  /\ TTMPythonBridge.trace (TTMPythonBridge._generate_with_qwen cfg text voice w).2
     = TTMPythonBridge.trace w ++ bridge_calls cfg model text voice
  /\ (TTMPythonBridge._MODEL_MODE cfg = "voice_design" ->
      is_Some (generate_voice_design model) ->
      bridge_calls cfg model text voice
      = [EvGenerate "generate_voice_design"
           [("text", text); ("language", language); ("instruct", voice)]])
  /\ (TTMPythonBridge._MODEL_MODE cfg <> "voice_design" ->
      is_Some (generate_custom_voice model) ->
      supported_speakers model = None ->
      bridge_calls cfg model text voice
      = [EvGenerate "generate_custom_voice"
           [("text", text); ("language", language); ("speaker", requested)]])
  /\ (TTMPythonBridge._MODEL_MODE cfg <> "voice_design" ->
      is_Some (generate_custom_voice model) ->
      forall supported,
        supported_speakers model = Some (Ok supported) ->
        exists chosen,
          bridge_calls cfg model text voice
          = [EvSpeakers;
             EvGenerate "generate_custom_voice"
               [("text", text); ("language", language); ("speaker", chosen)]]
          /\ (requested ∈ supported \/ supported = [] -> chosen = requested)
          /\ (requested ∉ supported -> forall first others,
                supported = first :: others -> chosen = first))
  /\ (TTMPythonBridge._MODEL_MODE cfg <> "voice_design" ->
      forall e,
        supported_speakers model = Some (Raise e) ->
        bridge_calls cfg model text voice = [EvSpeakers]
        /\ (TTMPythonBridge._generate_with_qwen cfg text voice w).1 = Raise e).
Proof.
  intros Hmodel language requested.
  assert (Hrun : bridge_state (TTMPythonBridge._generate_with_qwen cfg text voice w).2
                 = bridge_state w
                 /\ TTMPythonBridge.trace
                      (TTMPythonBridge._generate_with_qwen cfg text voice w).2
                    = TTMPythonBridge.trace w ++ bridge_calls cfg model text voice).
  { rewrite (bridge_generate_cases cfg text voice w model Hmodel). unfold bridge_calls.
    destruct (String.eqb (TTMPythonBridge._MODEL_MODE cfg) "voice_design");
      [apply bridge_call_method_frame |].
    cbv zeta. destruct (supported_speakers model) as [[supported | e] |].
    - match goal with
      | |- context [TTMPythonBridge.call_method _ _ ?kw] =>
          destruct (bridge_call_method_frame (generate_custom_voice model)
                      "generate_custom_voice" kw (TTMPythonBridge.emit EvSpeakers w).2)
            as (Hstate & Htrace)
      end.
      split; [by rewrite Hstate |]. rewrite Htrace.
      cbn [TTMPythonBridge.emit snd TTMPythonBridge.trace]. by rewrite <- app_assoc.
    - by split.
    - apply bridge_call_method_frame. }
  destruct Hrun as [Hstate Htrace].
  split; [exact Hstate |]. split; [exact Htrace |].
  split; [| split; [| split]].
  - intros Hmode [m Hm]. unfold bridge_calls. rewrite Hmode, Hm.
    change ("voice_design" =? "voice_design")%string with true. cbn [method_call].
    unfold str_or. by destruct (str_truthy voice) eqn:Hv;
      [| apply str_truthy_false in Hv; subst voice].
  - intros Hmode [m Hm] Hsup. unfold bridge_calls.
    apply String.eqb_neq in Hmode. by rewrite Hmode, Hsup, Hm.
  - intros Hmode [m Hm] supported Hsup. unfold bridge_calls.
    apply String.eqb_neq in Hmode. rewrite Hmode, Hsup, Hm. cbv zeta. cbn [method_call].
    fold requested. fold language.
    destruct supported as [| first others].
    + exists requested. split; [reflexivity |]. split; [done |].
      intros _ first others Hnil. discriminate.
    + destruct (bool_decide (requested ∈ first :: others)) eqn:Hd.
      * apply bool_decide_eq_true in Hd. exists requested.
        split; [reflexivity |]. split; [done |]. by intros Hnot.
      * apply bool_decide_eq_false in Hd. exists first.
        split; [reflexivity |]. split.
        -- intros [Hin | Hnil]; [contradiction | discriminate].
        -- by intros _ first' others' [= <- _].
  - intros Hmode e Hsup. unfold bridge_calls.
    apply String.eqb_neq in Hmode. rewrite Hmode, Hsup. split; [reflexivity |].
    rewrite (bridge_generate_cases cfg text voice w model Hmodel), Hmode, Hsup. reflexivity.
Qed.

Lemma bridge_generation_calls_witness :
  TTMPythonBridge.trace
    (TTMPythonBridge._generate_with_qwen (TTMPythonBridge.config_of_env env_bridge_voice_clone)
       "hello" "Vivian" bridge_world_loaded).2
  = [EvSpeakers;
     EvGenerate "generate_custom_voice"
       [("text", "hello"); ("language", "auto"); ("speaker", "ryan")]].
Proof.
  destruct (bridge_generation_calls (TTMPythonBridge.config_of_env env_bridge_voice_clone)
              bridge_world_loaded "hello" "Vivian" ryan_serena_model) as (_ & H & _).
  - reflexivity.
  - rewrite H. reflexivity.
Defined.

Lemma bridge_generate_frame (cfg : TTMPythonBridge.config) (text voice : string)
    (w : TTMPythonBridge.world) :
  bridge_state (TTMPythonBridge._generate_with_qwen cfg text voice w).2 = bridge_state w.
Proof.
  destruct (TTMPythonBridge._QWEN_MODEL w) as [model |] eqn:Hmodel.
  - rewrite (bridge_generate_cases cfg text voice w model Hmodel).
    destruct (String.eqb (TTMPythonBridge._MODEL_MODE cfg) "voice_design");
      [apply bridge_call_method_frame |].
    destruct (supported_speakers model) as [[supported | e] |];
      [| reflexivity | apply bridge_call_method_frame].
    match goal with
    | |- context [TTMPythonBridge.call_method _ _ ?kw] =>
        by destruct (bridge_call_method_frame (generate_custom_voice model)
                       "generate_custom_voice" kw (TTMPythonBridge.emit EvSpeakers w).2)
          as [-> _]
    end.
  - unfold TTMPythonBridge._generate_with_qwen, TTMPythonBridge.bind, TTMPythonBridge.get.
    by rewrite Hmodel.
Qed.

(** [synthesize] once the text is accepted: use the model if the flag
    is set, load otherwise, then generate and finish. *)
Lemma bridge_synthesize_unfold (cfg : TTMPythonBridge.config) (os : os_env)
    (text voice : string) (sample_rate : Z) (w : TTMPythonBridge.world) :
  whitespace_only text = false ->
  TTMPythonBridge.synthesize cfg os text voice sample_rate w
  = let '(usable, w1) :=
      if TTMPythonBridge._MODEL_LOADED w then (Ok true, w)
      else TTMPythonBridge.load_model cfg os w in
    match usable with
    | Raise e => (Raise e, w1)
    | Ok false =>
        (Raise (RuntimeError "Qwen3-TTS runtime unavailable: failed to load model"), w1)
    | Ok true =>
        let '(audio, w2) := TTMPythonBridge._generate_with_qwen cfg text voice w1 in
        match audio with
        | Raise e => (Raise e, w2)
        | Ok (Some wav) => (Ok wav, w2)
        | Ok None =>
            if TTMPythonBridge._ALLOW_FALLBACK cfg
            then (TTMPythonBridge._silent_wav sample_rate f_0_35, w2)
            else (Raise (RuntimeError "Qwen3-TTS synthesis failed"), w2)
        end
    end.
Proof.
  intros Htext. unfold TTMPythonBridge.synthesize.
  pose proof (text_is_blank_whitespace_only text) as Hblank.
  unfold text_is_blank in Hblank. rewrite Hblank, Htext.
  unfold TTMPythonBridge.bind at 1, TTMPythonBridge.is_model_loaded,
    TTMPythonBridge.bind at 1, TTMPythonBridge.get, TTMPythonBridge.ret at 1.
  unfold TTMPythonBridge.bind at 1.
  destruct (TTMPythonBridge._MODEL_LOADED w).
  - unfold TTMPythonBridge.ret at 1. cbn [negb]. unfold TTMPythonBridge.bind at 1.
    destruct (TTMPythonBridge._generate_with_qwen cfg text voice w) as [[[wav |] | e] w2];
      try reflexivity.
    by destruct (TTMPythonBridge._ALLOW_FALLBACK cfg).
  - destruct (TTMPythonBridge.load_model cfg os w) as [[[|] | e] w1]; try reflexivity.
    cbn [negb]. unfold TTMPythonBridge.bind at 1.
    destruct (TTMPythonBridge._generate_with_qwen cfg text voice w1) as [[[wav |] | e] w2];
      try reflexivity.
    by destruct (TTMPythonBridge._ALLOW_FALLBACK cfg).
Qed.

Lemma bridge_synthesize_blank_frame (cfg : TTMPythonBridge.config) (os : os_env)
    (text voice : string) (sample_rate : Z) (w : TTMPythonBridge.world) :
  whitespace_only text = true ->
  (TTMPythonBridge.synthesize cfg os text voice sample_rate w).2 = w.
Proof.
  intros Htext. unfold TTMPythonBridge.synthesize.
  pose proof (text_is_blank_whitespace_only text) as Hblank.
  unfold text_is_blank in Hblank. by rewrite Hblank, Htext.
Qed.

Lemma bridge_inv_state (w1 w2 : TTMPythonBridge.world) :
  bridge_state w1 = bridge_state w2 -> bridge_inv w2 -> bridge_inv w1.
Proof. intros [= H1 H2] H. unfold bridge_inv. by rewrite H1, H2. Qed.

Lemma bridge_synthesize_inv (cfg : TTMPythonBridge.config) (os : os_env)
    (text voice : string) (sample_rate : Z) (w : TTMPythonBridge.world) :
  bridge_inv w -> bridge_inv (TTMPythonBridge.synthesize cfg os text voice sample_rate w).2.
Proof.
  intros Hinv. destruct (whitespace_only text) eqn:Htext.
  - by rewrite bridge_synthesize_blank_frame.
  - rewrite bridge_synthesize_unfold by exact Htext.
    assert (Hload : bridge_inv
                      (if TTMPythonBridge._MODEL_LOADED w then (Ok true, w)
                       else TTMPythonBridge.load_model cfg os w).2).
    { destruct (TTMPythonBridge._MODEL_LOADED w); [exact Hinv |].
      by apply bridge_load_model_inv. }
    destruct (if TTMPythonBridge._MODEL_LOADED w then (Ok true, w)
              else TTMPythonBridge.load_model cfg os w) as [[[|] | e] w1];
      cbn [snd] in Hload; try exact Hload.
    pose proof (bridge_generate_frame cfg text voice w1) as Hgen.
    destruct (TTMPythonBridge._generate_with_qwen cfg text voice w1) as [[[wav |] | e] w2];
      cbn [snd] in Hgen |- *; try by apply (bridge_inv_state _ w1).
    destruct (TTMPythonBridge._ALLOW_FALLBACK cfg); cbn [snd];
      by apply (bridge_inv_state _ w1).
Qed.

(** X22.  In every state the single-mode runner reaches from its
    initial globals through [load_model], [unload_model] and [synthesize]
    calls, in whatever environments, [_MODEL_LOADED] is true exactly when
    a handle is stored: [is_model_loaded] never reports a model that is
    not there, even after a load that only succeeded by fallback. *)
Theorem bridge_loaded_flag_invariant
    (cfg : TTMPythonBridge.config) (ops : list (os_env * bridge_op)) :
  let w := bridge_run cfg ops TTMPythonBridge.initial_world in
  (TTMPythonBridge.is_model_loaded w).1 = Ok true
  <-> is_Some (TTMPythonBridge._QWEN_MODEL w).
Proof.
  cbv zeta.
  assert (Hinv : bridge_inv (bridge_run cfg ops TTMPythonBridge.initial_world)).
  { assert (H0 : bridge_inv TTMPythonBridge.initial_world) by reflexivity.
    revert H0. generalize TTMPythonBridge.initial_world.
    induction ops as [| [os o] ops IH]; intros w Hw; cbn [bridge_run fold_left]; [exact Hw |].
    apply IH. destruct o as [| | text voice sample_rate]; cbn [bridge_step].
    - by apply bridge_load_model_inv.
    - reflexivity.
    - by apply bridge_synthesize_inv. }
  unfold bridge_inv in Hinv.
  unfold TTMPythonBridge.is_model_loaded, TTMPythonBridge.bind, TTMPythonBridge.get,
    TTMPythonBridge.ret. cbn [fst]. rewrite Hinv.
  destruct (TTMPythonBridge._QWEN_MODEL _); split; intros H;
    first [done | by eexists | by destruct H].
Qed.

(** X23.  [synthesize] of the single-mode runner rejects an empty or
    whitespace-only text with [ValueError] before anything else: nothing
    is loaded, no call is made, the globals stay as they are. *)
Theorem bridge_synthesize_rejects_blank_text
    (cfg : TTMPythonBridge.config) (os : os_env) (w : TTMPythonBridge.world)
    (text voice : string) (sample_rate : Z) :
  whitespace_only text = true ->
  TTMPythonBridge.synthesize cfg os text voice sample_rate w
  = (Raise (ValueError "text must not be empty"), w).
Proof.
  intros Htext. unfold TTMPythonBridge.synthesize.
  pose proof (text_is_blank_whitespace_only text) as Hblank.
  unfold text_is_blank in Hblank. by rewrite Hblank, Htext.
Qed.

Lemma bridge_synthesize_rejects_blank_text_witness :
  TTMPythonBridge.synthesize (TTMPythonBridge.config_of_env env_working) env_working
    "  " "serena" 24000 TTMPythonBridge.initial_world
  = (Raise (ValueError "text must not be empty"), TTMPythonBridge.initial_world).
Proof.
  apply (bridge_synthesize_rejects_blank_text (TTMPythonBridge.config_of_env env_working)
           env_working TTMPythonBridge.initial_world "  " "serena" 24000).
  reflexivity.
Defined.



(** * Debug output of the multi-mode runner *)

Lemma create_model_stdout (cfg : config) (os : os_env) (model_id : string) (w : world) :
  _DEBUG cfg = false -> stdout (_create_model cfg os model_id w).2 = stdout w.
Proof.
  intros Hdebug.
  unfold _create_model, _load_qwen_module, bind, get, ret, lift, set_module, emit, _debug.
  rewrite Hdebug.
  destruct (_QWEN_MODULE w) as [qm |]; cbn.
  - destruct (Qwen3TTSModel qm); cbn; auto;
      try (match goal with |- context [match ?x with _ => _ end] => destruct x end;
           reflexivity).
  - destruct (import_qwen_tts os) as [qm |]; cbn; auto.
    destruct (Qwen3TTSModel qm); cbn; auto;
      try (match goal with |- context [match ?x with _ => _ end] => destruct x end;
           reflexivity).
Qed.

Lemma load_candidates_stdout (cfg : config) (os : os_env) (cands : list candidate)
    (w : world) :
  _DEBUG cfg = false -> stdout (load_candidates cfg os cands w).2 = stdout w.
Proof.
  intros Hdebug. revert w. induction cands as [| [cm cid] rest IH]; intros w.
  - reflexivity.
  - cbn [load_candidates].
    pose proof (create_model_stdout cfg os cid w Hdebug) as Hcreate.
    destruct (_create_model cfg os cid w) as [[[model |] | e] w1]; cbn [snd] in Hcreate.
    + unfold bind, emit, set_lifecycle, ret, _debug. by rewrite Hdebug.
    + unfold bind at 1. unfold emit at 1. unfold bind at 1. unfold _debug at 1.
      rewrite Hdebug. by rewrite IH.
    + exact Hcreate.
Qed.

Lemma load_model_stdout (cfg : config) (os : os_env) (mode model_id strict : option string)
    (w : world) :
  _DEBUG cfg = false -> stdout (load_model cfg os mode model_id strict w).2 = stdout w.
Proof.
  intros Hdebug.
  destruct (_resolve_model (_resolve_mode cfg mode) model_id) as [rm | e] eqn:Hres.
  - rewrite (load_model_unfold cfg os mode model_id strict w rm Hres).
    destruct (already_active w (_resolve_mode cfg mode) rm).
    + unfold _debug. by rewrite Hdebug.
    + by apply load_candidates_stdout.
  - by rewrite (load_model_unresolved cfg os mode model_id strict w e Hres).
Qed.

(** X25.  Unless [TTM_QWEN_DEBUG] is [1], the lifecycle functions print
    nothing: across any sequence of [load_model], [unload_model] and
    [_ensure_loaded] calls, what the runner has written to standard
    output does not change. *)
Theorem lifecycle_prints_nothing (cfg : config) (ops : list (os_env * op)) (w : world) :
  _DEBUG cfg = false -> stdout (run cfg ops w) = stdout w.
Proof.
  intros Hdebug. revert w.
  induction ops as [| [os o] ops IH]; intros w; cbn [run fold_left]; [reflexivity |].
  fold (run cfg ops (step cfg os o w)). rewrite IH.
  destruct o as [mode model_id strict | | mode model_id]; cbn [step].
  - by apply load_model_stdout.
  - reflexivity.
  - rewrite ensure_loaded_unfold. destruct (already_active w mode model_id); [reflexivity |].
    by apply load_model_stdout.
Qed.

Lemma lifecycle_prints_nothing_witness :
  stdout (run (config_of_env env_working)
            [(env_working, OpLoad None None None); (env_bare, OpUnload);
             (env_small_checkpoint_missing, OpEnsure "custom_voice" DEFAULT_CUSTOM_VOICE_MODEL)]
            initial_world)
  = stdout initial_world.
Proof.
  apply (lifecycle_prints_nothing (config_of_env env_working)
           [(env_working, OpLoad None None None); (env_bare, OpUnload);
            (env_small_checkpoint_missing,
             OpEnsure "custom_voice" DEFAULT_CUSTOM_VOICE_MODEL)] initial_world).
  reflexivity.
Defined.

(** * Samples that are not numbers *)

(** X26.  A sample that does not compare below 1.0 is stored as 32767,
    bytes [ff 7f].  This holds for 1.0 and everything above it, for
    positive infinity, and also for NaN: [min(1.0, nan)] keeps its first
    argument, so a NaN sample is written at full positive scale instead
    of making [int] raise. *)
Theorem to_wav_bytes_full_scale (sample : pyfloat) :
  flt sample f_one = false ->
  clip sample = f_one
  /\ pack_sample (clip sample) = Ok [xff; x7f]
  /\ forall sample_rate,
       0 < sample_rate < 2 ^ 31 ->
       _to_wav_bytes (PyList [PyFloat sample]) sample_rate
       = Ok (riff_header sample_rate 2 ++ [xff; x7f]).
Proof.
  intros Hcmp.
  assert (Hclip : clip sample = f_one).
  { unfold clip, py_max, py_min. by rewrite Hcmp. }
  split; [exact Hclip |]. rewrite Hclip. split; [reflexivity |].
  intros sample_rate Hrate.
  unfold _to_wav_bytes. cbn [_flatten_numeric_samples py_float res_bind app map res_mapM].
  rewrite Hclip.
  change (pack_sample f_one) with (@Ok bytes [xff; x7f]). cbn [res_bind concat app].
  rewrite wave_write_mono16; [reflexivity | exact Hrate |].
  cbn. lia.
Qed.

Lemma to_wav_bytes_full_scale_witness :
  clip S754_nan = f_one
  /\ pack_sample (clip S754_nan) = Ok [xff; x7f]
  /\ forall sample_rate,
       0 < sample_rate < 2 ^ 31 ->
       _to_wav_bytes (PyList [PyFloat S754_nan]) sample_rate
       = Ok (riff_header sample_rate 2 ++ [xff; x7f]).
Proof.
  apply (to_wav_bytes_full_scale S754_nan).
  reflexivity.
Defined.
